(** * scio_beast: a SocketCluster client over Boost.Beast

    A shallow embedding of [src/scio_beast.hpp]: the compressed MessagePack
    codec [CodecEngineMinBin], the channel objects, and the parts of
    [SCSocket] that run on its io thread (emit, acknowledgement timers,
    inbound dispatch, channel subscription, close and reconnect timing),
    followed by the properties proved about them.

    Conventions.
    - C++ exceptions are values of [exn]; a function that can throw returns
      an [outcome].  [try { .. } catch(std::out_of_range) { }] is [catch_oor].
    - [std::map] is a key-sorted association list ([map_find], [map_set],
      [map_erase]); [boost::unordered_map] is a [gmap].
    - Shared [SCChannel] objects live in a store indexed by pointer; the
      registry and the subscribe callbacks hold pointers.
    - Signals and response handlers are opaque to the library: firing one is
      recorded in the trace [m_trace] of the socket. *)

From Stdlib Require Import ZArith NArith QArith Qround Qpower Lia Lqa List String Ascii Bool Decimal DecimalString.
From Stdlib.Strings Require Import Byte.
From stdpp Require Import base option list strings gmap.

Local Open Scope string_scope.
Local Open Scope list_scope.
Local Open Scope Z_scope.

(** ** Exceptions *)

Inductive exn : Type :=
  | out_of_range          (* std::out_of_range *)
  | domain_error          (* std::domain_error: json type errors *)
  | invalid_argument      (* std::invalid_argument: parse errors *)
  | dataflow_exception    (* boost::archive::iterators::dataflow_exception *)
  | undefined_behaviour   (* indexing a vector past its end *)
  | not_modelled.         (* a value [json] does not have: a float *)

Inductive outcome (A : Type) : Type :=
  | Ok (a : A)
  | Throw (e : exn).
Arguments Ok {A} a.
Arguments Throw {A} e.

Definition obind {A B} (m : outcome A) (k : A -> outcome B) : outcome B :=
  match m with
  | Ok a => k a
  | Throw e => Throw e
  end.

#[global] Instance outcome_bind : MBind outcome := fun A B k m => obind m k.
#[global] Instance outcome_ret : MRet outcome := fun A a => Ok a.

(** [try { body } catch(std::out_of_range) { handler }] *)
Definition catch_oor {A} (body : outcome A) (handler : outcome A) : outcome A :=
  match body with
  | Throw out_of_range => handler
  | r => r
  end.

(** [try { body } catch(std::invalid_argument) { handler }] *)
Definition catch_inv {A} (body : outcome A) (handler : outcome A) : outcome A :=
  match body with
  | Throw invalid_argument => handler
  | r => r
  end.

(** ** std::map<std::string, V> as a key-sorted association list *)

Section StdMap.
Context {V : Type}.

Fixpoint map_find (k : string) (m : list (string * V)) : option V :=
  match m with
  | [] => None
  | (k', v) :: m' => if String.eqb k k' then Some v else map_find k m'
  end.

(** [m[k] = v]: overwrite in place, or insert before the first larger key. *)
Fixpoint map_set (k : string) (v : V) (m : list (string * V)) : list (string * V) :=
  match m with
  | [] => [(k, v)]
  | (k', v') :: m' =>
      if String.eqb k k' then (k, v) :: m'
      else if String.ltb k k' then (k, v) :: (k', v') :: m'
      else (k', v') :: map_set k v m'
  end.

Fixpoint map_erase (k : string) (m : list (string * V)) : list (string * V) :=
  match m with
  | [] => []
  | (k', v') :: m' =>
      if String.eqb k k' then map_erase k m' else (k', v') :: map_erase k m'
  end.
End StdMap.

(** ** nlohmann::json values

    Numbers are the integer kinds ([number_integer], [number_unsigned]);
    [number_float] values are outside the model. *)

#[warnings="-register-all"]
Inductive json : Type :=
  | JNull
  | JBool (b : bool)
  | JNum (z : Z)
  | JStr (s : string)
  | JArr (l : list json)
  | JObj (m : list (string * json)).

Definition is_null (j : json) : bool := match j with JNull => true | _ => false end.
Definition is_array (j : json) : bool := match j with JArr _ => true | _ => false end.
Definition is_object (j : json) : bool := match j with JObj _ => true | _ => false end.

(** [json::object()] *)
Definition json_object : json := JObj [].

(** [j.size()] *)
Definition json_size (j : json) : nat :=
  match j with
  | JNull => 0%nat
  | JArr l => length l
  | JObj m => length m
  | _ => 1%nat
  end.

(** [j.empty()] *)
Definition json_empty (j : json) : bool :=
  match j with
  | JNull => true
  | JArr l => match l with [] => true | _ => false end
  | JObj m => match m with [] => true | _ => false end
  | _ => false
  end.

(** [j.at(key)]: [std::out_of_range] for a missing key, a type error when
    [j] is not an object. *)
Definition json_at (key : string) (j : json) : outcome json :=
  match j with
  | JObj m => match map_find key m with
              | Some v => Ok v
              | None => Throw out_of_range
              end
  | _ => Throw domain_error
  end.

(** [j[idx]] on a const value: unchecked on arrays. *)
Definition json_index (idx : nat) (j : json) : outcome json :=
  match j with
  | JArr l => match nth_error l idx with
              | Some v => Ok v
              | None => Throw undefined_behaviour
              end
  | _ => Throw domain_error
  end.

(** [j[key] = v] on a mutable value: null becomes an object first. *)
Definition json_set (key : string) (v : json) (j : json) : outcome json :=
  match j with
  | JObj m => Ok (JObj (map_set key v m))
  | JNull => Ok (JObj [(key, v)])
  | _ => Throw domain_error
  end.

(** [j.erase(key)] *)
Definition json_erase (key : string) (j : json) : outcome json :=
  match j with
  | JObj m => Ok (JObj (map_erase key m))
  | _ => Throw domain_error
  end.

(** Conversion to [std::string]. *)
Definition get_string (j : json) : outcome string :=
  match j with
  | JStr s => Ok s
  | _ => Throw domain_error
  end.

(** Integer widths of the source, with their wrap-around. *)
Definition wrap_int (z : Z) : Z := (z + 2 ^ 31) mod 2 ^ 32 - 2 ^ 31.
Definition wrap_uint32 (z : Z) : Z := z mod 2 ^ 32.
Definition wrap_uint64 (z : Z) : Z := z mod 2 ^ 64.

(** Conversion to [int] ([static_cast] of the stored integer). *)
Definition get_int (j : json) : outcome Z :=
  match j with
  | JNum z => Ok (wrap_int z)
  | _ => Throw domain_error
  end.

(** Conversion to [CallId] ([uint64_t]). *)
Definition get_CallId (j : json) : outcome Z :=
  match j with
  | JNum z => Ok (wrap_uint64 z)
  | _ => Throw domain_error
  end.

(** Conversion to [uint32_t]. *)
Definition get_uint32 (j : json) : outcome Z :=
  match j with
  | JNum z => Ok (wrap_uint32 z)
  | _ => Throw domain_error
  end.

(** [j.value(key, dflt)]: the member converted to the type of [dflt], or
    [dflt] when absent. *)
Definition json_value {A} (conv : json -> outcome A) (key : string) (dflt : A)
    (j : json) : outcome A :=
  match j with
  | JObj m => match map_find key m with
              | Some v => conv v
              | None => Ok dflt
              end
  | _ => Throw domain_error
  end.

(** [obj.value("cid", 0)]: the default is an [int], so the member is read as
    an [int]. *)
Definition value_int (key : string) (j : json) : outcome Z :=
  json_value get_int key 0 j.

(** [obj.value("event", "")] *)
Definition value_string (key : string) (j : json) : outcome string :=
  json_value get_string key "" j.

(** [obj.value("data", json::object())] *)
Definition value_json (key : string) (dflt : json) (j : json) : outcome json :=
  json_value Ok key dflt j.

(** [typedef uint64_t CallId]; [const CallId cid = obj.value("cid", 0)]
    converts the [int] read to 64 unsigned bits. *)
Definition CallId_of_int (z : Z) : Z := wrap_uint64 z.

(** ** MessagePack ([json::to_msgpack], [json::from_msgpack])

    The library encoding, for the value kinds of [json]: nil, booleans,
    integers in their shortest form, str, array and map. *)

Definition byte_of_Z (z : Z) : byte :=
  match Byte.of_N (Z.to_N (z mod 256)) with
  | Some b => b
  | None => x00
  end.

Definition Z_of_byte (b : byte) : Z := Z.of_N (Byte.to_N b).

(** [n] bytes of [z], most significant first. *)
Fixpoint be_bytes (n : nat) (z : Z) : list byte :=
  match n with
  | O => []
  | S n' => byte_of_Z (Z.shiftr z (8 * Z.of_nat n')) :: be_bytes n' z
  end.

Definition be_to_Z (bs : list byte) : Z :=
  fold_left (fun acc b => acc * 256 + Z_of_byte b) bs 0.

Definition msgpack_int (z : Z) : list byte :=
  if 0 <=? z then
    if z <? 128 then [byte_of_Z z]
    else if z <=? 255 then byte_of_Z 204 :: be_bytes 1 z
    else if z <=? 65535 then byte_of_Z 205 :: be_bytes 2 z
    else if z <=? 4294967295 then byte_of_Z 206 :: be_bytes 4 z
    else byte_of_Z 207 :: be_bytes 8 z
  else
    if -32 <=? z then [byte_of_Z z]
    else if -128 <=? z then byte_of_Z 208 :: be_bytes 1 z
    else if -32768 <=? z then byte_of_Z 209 :: be_bytes 2 z
    else if -2147483648 <=? z then byte_of_Z 210 :: be_bytes 4 z
    else byte_of_Z 211 :: be_bytes 8 z.

(** Header of a str, array or map of [n] items: [fix] is the base of the
    one-byte form for up to [lim] items, [b8] (when there is one), [b16] and
    [b32] the lead bytes of the longer forms. *)
Definition msgpack_header (fix_base lim : Z) (b8 : option Z) (b16 b32 : Z) (n : nat)
    : list byte :=
  let z := Z.of_nat n in
  if z <=? lim then [byte_of_Z (fix_base + z)]
  else match b8 with
       | Some b => if z <=? 255 then byte_of_Z b :: be_bytes 1 z
                   else if z <=? 65535 then byte_of_Z b16 :: be_bytes 2 z
                   else byte_of_Z b32 :: be_bytes 4 z
       | None => if z <=? 65535 then byte_of_Z b16 :: be_bytes 2 z
                 else byte_of_Z b32 :: be_bytes 4 z
       end.

Definition msgpack_str (s : string) : list byte :=
  msgpack_header 160 31 (Some 217) 218 219 (String.length s) ++ list_byte_of_string s.

Fixpoint to_msgpack (j : json) : list byte :=
  match j with
  | JNull => [byte_of_Z 192]
  | JBool false => [byte_of_Z 194]
  | JBool true => [byte_of_Z 195]
  | JNum z => msgpack_int z
  | JStr s => msgpack_str s
  | JArr l =>
      msgpack_header 144 15 None 220 221 (length l) ++
      (fix items (l : list json) : list byte :=
         match l with
         | [] => []
         | x :: l' => to_msgpack x ++ items l'
         end) l
  | JObj m =>
      msgpack_header 128 15 None 222 223 (length m) ++
      (fix members (m : list (string * json)) : list byte :=
         match m with
         | [] => []
         | (k, v) :: m' => msgpack_str k ++ to_msgpack v ++ members m'
         end) m
  end.

(** Read [n] bytes, [std::out_of_range] when the input is shorter. *)
Definition take_bytes (n : nat) (bs : list byte) : outcome (list byte * list byte) :=
  if (n <=? length bs)%nat then Ok (firstn n bs, skipn n bs) else Throw out_of_range.

Definition read_uint (n : nat) (bs : list byte) : outcome (Z * list byte) :=
  '(h, t) ← take_bytes n bs; Ok (be_to_Z h, t).

Definition read_int (n : nat) (bs : list byte) : outcome (Z * list byte) :=
  '(h, t) ← take_bytes n bs;
  let u := be_to_Z h in
  let half := 2 ^ (8 * Z.of_nat n - 1) in
  Ok (if u <? half then u else u - 2 * half, t).

Definition read_str (n : nat) (bs : list byte) : outcome (json * list byte) :=
  '(h, t) ← take_bytes n bs; Ok (JStr (string_of_list_byte h), t).

(** One value from the front of the input.  [fuel] bounds the number of
    nested reads; one more than the input length is always enough, since
    every value takes at least one byte.  The float formats (lead bytes
    202 and 203) carry values outside [json]. *)
Fixpoint from_msgpack_internal (fuel : nat) (bs : list byte) : outcome (json * list byte) :=
  match fuel with
  | O => Throw out_of_range
  | S fuel' =>
      match bs with
      | [] => Throw out_of_range
      | b :: rest =>
          let items :=
            fix items (count : nat) (bs : list byte) : outcome (list json * list byte) :=
              match count with
              | O => Ok ([], bs)
              | S c =>
                  '(x, bs1) ← from_msgpack_internal fuel' bs;
                  '(xs, bs2) ← items c bs1;
                  Ok (x :: xs, bs2)
              end in
          let members :=
            fix members (count : nat) (acc : list (string * json)) (bs : list byte)
                : outcome (list (string * json) * list byte) :=
              match count with
              | O => Ok (acc, bs)
              | S c =>
                  '(kj, bs1) ← from_msgpack_internal fuel' bs;
                  k ← get_string kj;
                  '(v, bs2) ← from_msgpack_internal fuel' bs1;
                  members c (map_set k v acc) bs2
              end in
          let array n := '(l, r) ← items n rest; Ok (JArr l, r) in
          let map n := '(m, r) ← members n [] rest; Ok (JObj m, r) in
          let lead := Z_of_byte b in
          if lead <=? 127 then Ok (JNum lead, rest)
          else if lead <=? 143 then map (Z.to_nat (lead - 128))
          else if lead <=? 159 then array (Z.to_nat (lead - 144))
          else if lead <=? 191 then read_str (Z.to_nat (lead - 160)) rest
          else if lead =? 192 then Ok (JNull, rest)
          else if lead =? 194 then Ok (JBool false, rest)
          else if lead =? 195 then Ok (JBool true, rest)
          else if lead =? 204 then '(z, r) ← read_uint 1 rest; Ok (JNum z, r)
          else if lead =? 205 then '(z, r) ← read_uint 2 rest; Ok (JNum z, r)
          else if lead =? 206 then '(z, r) ← read_uint 4 rest; Ok (JNum z, r)
          else if lead =? 207 then '(z, r) ← read_uint 8 rest; Ok (JNum z, r)
          else if lead =? 208 then '(z, r) ← read_int 1 rest; Ok (JNum z, r)
          else if lead =? 209 then '(z, r) ← read_int 2 rest; Ok (JNum z, r)
          else if lead =? 210 then '(z, r) ← read_int 4 rest; Ok (JNum z, r)
          else if lead =? 211 then '(z, r) ← read_int 8 rest; Ok (JNum z, r)
          else if lead =? 217 then '(n, r) ← read_uint 1 rest; read_str (Z.to_nat n) r
          else if lead =? 218 then '(n, r) ← read_uint 2 rest; read_str (Z.to_nat n) r
          else if lead =? 219 then '(n, r) ← read_uint 4 rest; read_str (Z.to_nat n) r
          else if lead =? 220 then
            '(n, r) ← read_uint 2 rest; '(l, r') ← items (Z.to_nat n) r; Ok (JArr l, r')
          else if lead =? 221 then
            '(n, r) ← read_uint 4 rest; '(l, r') ← items (Z.to_nat n) r; Ok (JArr l, r')
          else if lead =? 222 then
            '(n, r) ← read_uint 2 rest; '(m, r') ← members (Z.to_nat n) [] r; Ok (JObj m, r')
          else if lead =? 223 then
            '(n, r) ← read_uint 4 rest; '(m, r') ← members (Z.to_nat n) [] r; Ok (JObj m, r')
          else if 224 <=? lead then Ok (JNum (lead - 256), rest)
          else if (lead =? 202) || (lead =? 203) then Throw not_modelled
          else Throw invalid_argument
      end
  end.

Definition from_msgpack (bs : list byte) : outcome json :=
  '(j, _) ← from_msgpack_internal (S (length bs)) bs; Ok j.

(** ** CodecEngineMinBin *)

Module CodecEngineMinBin.

Definition eraseMembers (names : list string) (obj : json) : outcome json :=
  fold_left (fun acc n => o ← acc; json_erase n o) names (Ok obj).

(** The array built for the [p] and [e] members: the call id is pushed
    only when it is not zero. *)
Definition with_cid (a : list json) (cid : Z) : list json :=
  if cid =? 0 then a else a ++ [JNum cid].

Definition compressPublishPacket (obj : json) : outcome json :=
  catch_oor
    (ev ← json_at "event" obj;
     eventName ← get_string ev;
     data ← json_at "data" obj;
     if negb (String.eqb "#publish" eventName) then Ok obj
     else
       inner ← json_at "data" data;
       c ← value_int "cid" obj;
       let a := with_cid [JStr eventName; inner] (CallId_of_int c) in
       obj1 ← json_set "p" (JArr a) obj;
       eraseMembers ["event"; "data"; "cid"] obj1)
    (Ok obj).

Definition decompressPublishPacket (obj : json) : outcome json :=
  catch_oor
    (p ← json_at "p" obj;
     obj1 ← json_set "event" (JStr "#publish") obj;
     p0 ← json_index 0 p;
     p1 ← json_index 1 p;
     obj2 ← json_set "data" (JObj [("channel", p0); ("data", p1)]) obj1;
     obj3 ← (if (2 <? json_size p)%nat
             then p2 ← json_index 2 p; json_set "cid" p2 obj2
             else Ok obj2);
     json_erase "p" obj3)
    (Ok obj).

Definition compressEmitPacket (obj : json) : outcome json :=
  catch_oor
    (ev ← json_at "event" obj;
     eventName ← get_string ev;
     data ← json_at "data" obj;
     c ← value_int "cid" obj;
     let a := with_cid [JStr eventName; data] (CallId_of_int c) in
     obj1 ← json_set "e" (JArr a) obj;
     eraseMembers ["event"; "data"; "cid"] obj1)
    (Ok obj).

Definition decompressEmitPacket (obj : json) : outcome json :=
  catch_oor
    (e ← json_at "e" obj;
     e0 ← json_index 0 e;
     obj1 ← json_set "event" e0 obj;
     e1 ← json_index 1 e;
     obj2 ← json_set "data" e1 obj1;
     obj3 ← (if (2 <? json_size e)%nat
             then e2 ← json_index 2 e; json_set "cid" e2 obj2
             else Ok obj2);
     json_erase "e" obj3)
    (Ok obj).

(** The array on the right of [obj["r"] = ...] is built before the member
    is created, so a missing [error] or [data] leaves [obj] as it was. *)
Definition compressResponsePacket (obj : json) : outcome json :=
  catch_oor
    (r ← json_at "rid" obj;
     rid ← get_CallId r;
     error ← json_at "error" obj;
     data ← json_at "data" obj;
     obj1 ← json_set "r" (JArr [JNum rid; error; data]) obj;
     eraseMembers ["rid"; "error"; "data"] obj1)
    (Ok obj).

Definition decompressResponsePacket (obj : json) : outcome json :=
  catch_oor
    (r ← json_at "r" obj;
     r0 ← json_index 0 r;
     obj1 ← json_set "rid" r0 obj;
     r1 ← json_index 1 r;
     obj2 ← (if negb (is_null r1) then json_set "error" r1 obj1 else Ok obj1);
     r2 ← json_index 2 r;
     obj3 ← (if negb (is_null r2) then json_set "data" r2 obj2 else Ok obj2);
     json_erase "r" obj3)
    (Ok obj).

Definition compressSinglePacket (obj : json) : outcome json :=
  o1 ← compressPublishPacket obj;
  o2 ← compressEmitPacket o1;
  compressResponsePacket o2.

Definition decompressSinglePacket (obj : json) : outcome json :=
  o1 ← decompressEmitPacket obj;
  o2 ← decompressPublishPacket o1;
  decompressResponsePacket o2.

Fixpoint each (f : json -> outcome json) (l : list json) : outcome (list json) :=
  match l with
  | [] => Ok []
  | x :: l' => y ← f x; ys ← each f l'; Ok (y :: ys)
  end.

(** The value handed to [json::to_msgpack] by [encode]: [o] starts as
    null and stays null unless one of the two branches assigns it. *)
Definition encode_json (obj : json) : outcome json :=
  match obj with
  | JArr l =>
      match l with
      | [] => Ok JNull
      | _ => ys ← each compressSinglePacket l; Ok (JArr ys)
      end
  | _ =>
      ev ← value_string "event" obj;
      if negb (String.eqb "" ev) then compressSinglePacket obj
      else
        rid ← value_int "rid" obj;
        if negb (rid =? 0) then compressSinglePacket obj
        else Ok JNull
  end.

Definition encode (obj : json) : outcome string :=
  o ← encode_json obj; Ok (string_of_list_byte (to_msgpack o)).

(** What [decode] does to the value read by [json::from_msgpack]. *)
Definition decode_json (obj : json) : outcome json :=
  match obj with
  | JArr l => ys ← each decompressSinglePacket l; Ok (JArr ys)
  | JObj _ => decompressSinglePacket obj
  | _ => Ok obj
  end.

Definition decode (payload : string) : outcome json :=
  obj ← from_msgpack (list_byte_of_string payload); decode_json obj.

Definition isBinary : bool := true.

End CodecEngineMinBin.

(** ** Library functions the socket calls

    [json::parse], [json::dump] and the Boost base64 input range are not
    part of the repository; the socket is parameterised by them.  So it
    is by the arithmetic on [double]: sums and products are rounded by
    the machine (and may be fused by the compiler), [std::pow] and
    [std::round] are the C library's, an overflow gives an infinity, and
    the conversion of a [double] that does not fit [uint32_t] has no
    defined result.  Nothing is assumed of these operations here; a
    property that needs one of their laws states it. *)

Class Library := {
  (** [json::parse]: [std::invalid_argument] on malformed text *)
  json_parse : string -> outcome json;
  (** [obj.dump()] *)
  json_dump : json -> string;
  (** [transform_width<binary_from_base64<char*>, 8, 6>] over a whole
      string: [dataflow_exception] on a character outside the alphabet *)
  Base64 : string -> outcome string;
  (** the values of type [double] *)
  double : Type;
  (** the [double] that holds a given number: a [uint32_t] operand
      converted, the multiplier stored in the options, a sample drawn *)
  double_of : Q -> double;
  (** [x + y] and [x * y] on [double] *)
  double_add : double -> double -> double;
  double_mul : double -> double -> double;
  (** [std::pow(x, y)] and [std::round(x)] *)
  std_pow : double -> double -> double;
  round_double : double -> double;
  (** the conversion that initialises a [uint32_t] from a [double] *)
  uint32_of_double : double -> Z
}.

(** ** Error codes *)

Inductive errors : Type :=
  | protocol_error
  | unexpected_rid
  | json_parse_failure
  | response_error
  | ack_timeout.

Inductive error_code : Type :=
  | ec_success                    (* boost::system::error_code() *)
  | ec_scio (e : errors)          (* make_error_code(e) *)
  | ec_operation_aborted          (* boost::asio::error::operation_aborted *)
  | ec_eof                        (* boost::asio::error::eof *)
  | ec_other (n : Z).

(** [if(ec)] *)
Definition ec_failed (ec : error_code) : bool :=
  match ec with ec_success => false | _ => true end.

Definition is_operation_aborted (ec : error_code) : bool :=
  match ec with ec_operation_aborted => true | _ => false end.

Definition is_eof (ec : error_code) : bool :=
  match ec with ec_eof => true | _ => false end.

(** ** Channels *)

Inductive ChannelState : Type := UNSUBSCRIBED | PENDING | SUBSCRIBED.

#[global] Instance ChannelState_eq_dec : EqDecision ChannelState.
Proof. solve_decision. Defined.

Record ChannelStateData := {
  name : string;
  oldState : ChannelState;
  newState : ChannelState
}.

Record ChannelSubscriptionOptions := {
  waitForAuth : bool;
  data : json
}.

(** The default-constructed options: [waitForAuth(false)], null data. *)
Definition default_ChannelSubscriptionOptions : ChannelSubscriptionOptions :=
  {| waitForAuth := false; data := JNull |}.

(** A [boost::signals2::connection] to a channel's [ChannelEvent] signal. *)
Abbreviation connection := nat (only parsing).

Module SCChannel.

Inductive Event : Type :=
  | SubscribeEvent (name : string)
  | SubscribeFailEvent (name : string) (ec : error_code)
  | SubscriptionStateChangeEvent (d : ChannelStateData)
  | UnsubscribeEvent (name : string)
  | ChannelEvent (slots : list connection) (msg : json).

(** [m_watchers] stands for the slots connected to the [ChannelEvent]
    signal of [m_eventTable]. *)
Record t := {
  m_name : string;
  m_state : ChannelState;
  m_watchers : list connection
}.

(** [SCChannel(name, socket)] *)
Definition make (name : string) : t :=
  {| m_name := name; m_state := UNSUBSCRIBED; m_watchers := [] |}.

Definition set_state (st : ChannelState) (c : t) : t :=
  {| m_name := m_name c; m_state := st; m_watchers := m_watchers c |}.

Definition watch (slot : connection) (c : t) : t :=
  {| m_name := m_name c; m_state := m_state c; m_watchers := m_watchers c ++ [slot] |}.

(** [unwatch()]: [disconnect_all_slots] *)
Definition unwatch (c : t) : t :=
  {| m_name := m_name c; m_state := m_state c; m_watchers := [] |}.

(** [conn.disconnect()], seen from one channel *)
Definition disconnect (conn : connection) (c : t) : t :=
  {| m_name := m_name c; m_state := m_state c;
     m_watchers := filter (fun x => x ≠ conn) (m_watchers c) |}.

End SCChannel.

(** [std::shared_ptr<SCChannel>]: an index into the store of channels. *)
Abbreviation SCChannelPtr := nat (only parsing).

(** ** Options *)

Record AutoReconnectOptions := {
  initialDelay : Z;   (* uint32_t, milliseconds *)
  randomness : Z;     (* uint32_t, milliseconds *)
  multiplier : Q;     (* double, known by the number it holds *)
  maxDelay : Z        (* uint32_t, milliseconds *)
}.

Definition default_AutoReconnectOptions : AutoReconnectOptions :=
  {| initialDelay := 10000; randomness := 10000; multiplier := 3 # 2; maxDelay := 60000 |}.

Record ICodecEngine := {
  encode : json -> outcome string;
  decode : string -> outcome json;
  isBinary : bool
}.

Definition codecEngineMinBin : ICodecEngine :=
  {| encode := CodecEngineMinBin.encode;
     decode := CodecEngineMinBin.decode;
     isBinary := CodecEngineMinBin.isBinary |}.

Record ConnectOptions := {
  host : string;
  port : string;
  userAgent : string;
  secure : bool;
  path : string;
  autoReconnect : bool;
  autoReconnectOptions : AutoReconnectOptions;
  ackTimeout : Z;                       (* uint32_t, seconds *)
  codecEngine : option ICodecEngine     (* nullptr: JSON text *)
}.

Definition default_ConnectOptions : ConnectOptions :=
  {| host := "localhost"; port := "http"; userAgent := ""; secure := false;
     path := "/socketcluster/"; autoReconnect := true;
     autoReconnectOptions := default_AutoReconnectOptions;
     ackTimeout := 10; codecEngine := None |}.

(** ** Response handlers and timers *)

(** A [ResponseHandler] is either a function of the caller of [emit],
    known here by an identifier, or the closure [tryChannelSubscribe]
    passes, which captures the channel and its options. *)
Inductive ResponseHandler : Type :=
  | UserHandler (id : nat)
  | SubscribeAck (channel : SCChannelPtr) (opts : ChannelSubscriptionOptions).

(** A [deadline_timer] with a wait outstanding, or after [cancel()]. *)
Inductive TimerState : Type := TimerWaiting | TimerCancelled.

Record ResponseItem := {
  handler : ResponseHandler;
  ackTimer : option TimerState   (* nullptr when emitted with noTimeout *)
}.

Inductive close_code : Type := close_normal | close_protocol_error.

(** Requests made of the transport and the io service. *)
Inductive TransportOp : Type :=
  | ws_close (code : close_code)
  | ws_async_write (buf : string)
  | ws_async_read_some
  | async_resolve (host port : string)
  | async_connect
  | ssl_async_handshake
  | ws_async_handshake (host path : string)
  | reconnect_timer (ms : Z)
  | ios_stop.

(** ** SCSocket *)

Module SCSocket.

Inductive State : Type := CLOSED | CONNECTING | OPEN.

Inductive AuthState : Type := UNAUTHENTICATED | AUTHENTICATED.

Inductive ProtocolEvent : Type :=
  | UNKNOWN
  | PUBLISH
  | REMOVE_TOKEN
  | SET_TOKEN
  | EVENT
  | IS_AUTHENTICATED
  | ACK_RECEIVE.

#[global] Instance State_eq_dec : EqDecision State.
Proof. solve_decision. Defined.

(** The signals of the socket's event table, with their arguments.  The
    response callback handed to an [EmitEvent] slot is identified by the
    call id it captures ([None]: no response requested). *)
Inductive Event : Type :=
  | RawEvent (buf : string)
  | ErrorEvent (ec : error_code)
  | ConnectingEvent
  | ConnectEvent (payload : json)
  | ConnectAbortEvent (ec : error_code)
  | DisconnectEvent (ec : error_code)
  | AuthenticateEvent (token : string)
  | AuthTokenChangeEvent (token : string)
  | DeauthenticateEvent
  | SubscribeEvent (name : string)
  | SubscribeFailEvent (name : string) (ec : error_code)
  | SubscriptionStateChangeEvent (d : ChannelStateData)
  | UnsubscribeEvent (name : string)
  | EmitEvent (eventName : string) (data : json) (respond : option Z).

(** What the socket does that is visible outside it, in order. *)
Inductive Action : Type :=
  | Socket (e : Event)
  | Channel (ch : SCChannelPtr) (e : SCChannel.Event)
  | Handler (id : nat) (ec : error_code) (resp : json)
  | Transport (op : TransportOp).

Record t := {
  m_state : State;
  m_connectOptions : ConnectOptions;
  m_nextCallId : Z;                               (* CallId *)
  m_outQueue : list json;                         (* front first *)
  m_pendingResponses : gmap Z ResponseItem;
  m_signedAuthToken : string;
  m_authToken : json;
  m_channels : list (string * SCChannelPtr);      (* std::map, by name *)
  m_connectAttempts : Z;                          (* uint32_t *)
  m_pingTimeout : Z;                              (* uint32_t, ms *)
  m_pingTimeoutTimer : option Z;                  (* a wait of that many ms, if any *)
  channels : list SCChannel.t;                    (* the SCChannel objects *)
  m_trace : list Action
}.

(** [SCSocket(connectOptions)] *)
Definition make (o : ConnectOptions) : t :=
  {| m_state := CLOSED; m_connectOptions := o; m_nextCallId := 1;
     m_outQueue := []; m_pendingResponses := ∅; m_signedAuthToken := "";
     m_authToken := JNull; m_channels := []; m_connectAttempts := 0;
     m_pingTimeout := wrap_uint32 (ackTimeout o * 1000);
     m_pingTimeoutTimer := None; channels := []; m_trace := [] |}.

(** *** Field updates *)

Definition set_state (v : State) (s : t) : t :=
  {| m_state := v; m_connectOptions := m_connectOptions s;
     m_nextCallId := m_nextCallId s; m_outQueue := m_outQueue s;
     m_pendingResponses := m_pendingResponses s;
     m_signedAuthToken := m_signedAuthToken s; m_authToken := m_authToken s;
     m_channels := m_channels s; m_connectAttempts := m_connectAttempts s;
     m_pingTimeout := m_pingTimeout s; m_pingTimeoutTimer := m_pingTimeoutTimer s;
     channels := channels s; m_trace := m_trace s |}.

Definition set_nextCallId (v : Z) (s : t) : t :=
  {| m_state := m_state s; m_connectOptions := m_connectOptions s;
     m_nextCallId := v; m_outQueue := m_outQueue s;
     m_pendingResponses := m_pendingResponses s;
     m_signedAuthToken := m_signedAuthToken s; m_authToken := m_authToken s;
     m_channels := m_channels s; m_connectAttempts := m_connectAttempts s;
     m_pingTimeout := m_pingTimeout s; m_pingTimeoutTimer := m_pingTimeoutTimer s;
     channels := channels s; m_trace := m_trace s |}.

Definition set_outQueue (v : list json) (s : t) : t :=
  {| m_state := m_state s; m_connectOptions := m_connectOptions s;
     m_nextCallId := m_nextCallId s; m_outQueue := v;
     m_pendingResponses := m_pendingResponses s;
     m_signedAuthToken := m_signedAuthToken s; m_authToken := m_authToken s;
     m_channels := m_channels s; m_connectAttempts := m_connectAttempts s;
     m_pingTimeout := m_pingTimeout s; m_pingTimeoutTimer := m_pingTimeoutTimer s;
     channels := channels s; m_trace := m_trace s |}.

Definition set_pendingResponses (v : gmap Z ResponseItem) (s : t) : t :=
  {| m_state := m_state s; m_connectOptions := m_connectOptions s;
     m_nextCallId := m_nextCallId s; m_outQueue := m_outQueue s;
     m_pendingResponses := v;
     m_signedAuthToken := m_signedAuthToken s; m_authToken := m_authToken s;
     m_channels := m_channels s; m_connectAttempts := m_connectAttempts s;
     m_pingTimeout := m_pingTimeout s; m_pingTimeoutTimer := m_pingTimeoutTimer s;
     channels := channels s; m_trace := m_trace s |}.

Definition set_authTokens (signed : string) (token : json) (s : t) : t :=
  {| m_state := m_state s; m_connectOptions := m_connectOptions s;
     m_nextCallId := m_nextCallId s; m_outQueue := m_outQueue s;
     m_pendingResponses := m_pendingResponses s;
     m_signedAuthToken := signed; m_authToken := token;
     m_channels := m_channels s; m_connectAttempts := m_connectAttempts s;
     m_pingTimeout := m_pingTimeout s; m_pingTimeoutTimer := m_pingTimeoutTimer s;
     channels := channels s; m_trace := m_trace s |}.

Definition set_channels (v : list (string * SCChannelPtr)) (s : t) : t :=
  {| m_state := m_state s; m_connectOptions := m_connectOptions s;
     m_nextCallId := m_nextCallId s; m_outQueue := m_outQueue s;
     m_pendingResponses := m_pendingResponses s;
     m_signedAuthToken := m_signedAuthToken s; m_authToken := m_authToken s;
     m_channels := v; m_connectAttempts := m_connectAttempts s;
     m_pingTimeout := m_pingTimeout s; m_pingTimeoutTimer := m_pingTimeoutTimer s;
     channels := channels s; m_trace := m_trace s |}.

Definition set_connectAttempts (v : Z) (s : t) : t :=
  {| m_state := m_state s; m_connectOptions := m_connectOptions s;
     m_nextCallId := m_nextCallId s; m_outQueue := m_outQueue s;
     m_pendingResponses := m_pendingResponses s;
     m_signedAuthToken := m_signedAuthToken s; m_authToken := m_authToken s;
     m_channels := m_channels s; m_connectAttempts := v;
     m_pingTimeout := m_pingTimeout s; m_pingTimeoutTimer := m_pingTimeoutTimer s;
     channels := channels s; m_trace := m_trace s |}.

Definition set_pingTimeout (v : Z) (s : t) : t :=
  {| m_state := m_state s; m_connectOptions := m_connectOptions s;
     m_nextCallId := m_nextCallId s; m_outQueue := m_outQueue s;
     m_pendingResponses := m_pendingResponses s;
     m_signedAuthToken := m_signedAuthToken s; m_authToken := m_authToken s;
     m_channels := m_channels s; m_connectAttempts := m_connectAttempts s;
     m_pingTimeout := v; m_pingTimeoutTimer := m_pingTimeoutTimer s;
     channels := channels s; m_trace := m_trace s |}.

Definition set_pingTimeoutTimer (v : option Z) (s : t) : t :=
  {| m_state := m_state s; m_connectOptions := m_connectOptions s;
     m_nextCallId := m_nextCallId s; m_outQueue := m_outQueue s;
     m_pendingResponses := m_pendingResponses s;
     m_signedAuthToken := m_signedAuthToken s; m_authToken := m_authToken s;
     m_channels := m_channels s; m_connectAttempts := m_connectAttempts s;
     m_pingTimeout := m_pingTimeout s; m_pingTimeoutTimer := v;
     channels := channels s; m_trace := m_trace s |}.

Definition set_channel_objects (v : list SCChannel.t) (s : t) : t :=
  {| m_state := m_state s; m_connectOptions := m_connectOptions s;
     m_nextCallId := m_nextCallId s; m_outQueue := m_outQueue s;
     m_pendingResponses := m_pendingResponses s;
     m_signedAuthToken := m_signedAuthToken s; m_authToken := m_authToken s;
     m_channels := m_channels s; m_connectAttempts := m_connectAttempts s;
     m_pingTimeout := m_pingTimeout s; m_pingTimeoutTimer := m_pingTimeoutTimer s;
     channels := v; m_trace := m_trace s |}.

Definition set_trace (v : list Action) (s : t) : t :=
  {| m_state := m_state s; m_connectOptions := m_connectOptions s;
     m_nextCallId := m_nextCallId s; m_outQueue := m_outQueue s;
     m_pendingResponses := m_pendingResponses s;
     m_signedAuthToken := m_signedAuthToken s; m_authToken := m_authToken s;
     m_channels := m_channels s; m_connectAttempts := m_connectAttempts s;
     m_pingTimeout := m_pingTimeout s; m_pingTimeoutTimer := m_pingTimeoutTimer s;
     channels := channels s; m_trace := v |}.

(** Append to the trace. *)
Definition act (a : list Action) (s : t) : t := set_trace (m_trace s ++ a) s.

(** [triggerEvent<HandlerId>(args...)] on the socket *)
Definition triggerEvent (e : Event) (s : t) : t := act [Socket e] s.

(** [channel->triggerEvent<HandlerId>(args...)] *)
Definition channel_triggerEvent (ch : SCChannelPtr) (e : SCChannel.Event) (s : t) : t :=
  act [Channel ch e] s.

(** [m_outQueue.push(payload)] *)
Definition push (payload : json) (s : t) : t :=
  set_outQueue (m_outQueue s ++ [payload]) s.

(** Accessors through a channel pointer.  A pointer held by the registry
    or by a callback always refers to an object; the defaults are never
    reached from such a pointer. *)
Definition getState (ch : SCChannelPtr) (s : t) : ChannelState :=
  match channels s !! ch with
  | Some c => SCChannel.m_state c
  | None => UNSUBSCRIBED
  end.

Definition getName (ch : SCChannelPtr) (s : t) : string :=
  match channels s !! ch with
  | Some c => SCChannel.m_name c
  | None => ""
  end.

Definition update_channel (ch : SCChannelPtr) (f : SCChannel.t -> SCChannel.t) (s : t) : t :=
  set_channel_objects (alter f ch (channels s)) s.

Definition getAuthState (s : t) : AuthState :=
  if String.eqb (m_signedAuthToken s) "" then UNAUTHENTICATED else AUTHENTICATED.

Definition is_AUTHENTICATED (a : AuthState) : bool :=
  match a with AUTHENTICATED => true | UNAUTHENTICATED => false end.

Definition is_OPEN (st : State) : bool :=
  match st with OPEN => true | _ => false end.

Definition is_CLOSED (st : State) : bool :=
  match st with CLOSED => true | _ => false end.

Definition is_UNSUBSCRIBED (c : ChannelState) : bool :=
  match c with UNSUBSCRIBED => true | _ => false end.

Definition is_SUBSCRIBED (c : ChannelState) : bool :=
  match c with SUBSCRIBED => true | _ => false end.

Definition is_PENDING (c : ChannelState) : bool :=
  match c with PENDING => true | _ => false end.

(** [std::dec << cid] *)
Definition dec (z : Z) : string := NilEmpty.string_of_uint (N.to_uint (Z.to_N z)).

(** *** emit

    The body handed to [m_ios.dispatch], as it runs on the io thread.
    [respHandler = 0] is [None]. *)
Definition emit (eventName : string) (data : json)
    (respHandler : option ResponseHandler) (noTimeout : bool) (s : t) : t :=
  let payload := [("data", data); ("event", JStr eventName)] in
  match respHandler with
  | Some h =>
      let cid := m_nextCallId s in
      let s1 := set_nextCallId (wrap_uint64 (cid + 1)) s in
      let payload := map_set "cid" (JNum cid) payload in
      let respItem :=
        {| handler := h;
           ackTimer := if noTimeout then None else Some TimerWaiting |} in
      let s2 := set_pendingResponses (<[cid := respItem]> (m_pendingResponses s1)) s1 in
      push (JObj payload) s2
  | None => push (JObj payload) s
  end.

(** *** Channel subscription *)

(** The body of [cancelPendingSubscriberCallback] is a TODO. *)
Definition cancelPendingSubscriberCallback (channel : SCChannelPtr) (s : t) : t := s.

Definition meetsRequirements (opts : ChannelSubscriptionOptions) (s : t) : bool :=
  negb (waitForAuth opts) || is_AUTHENTICATED (getAuthState s).

Definition tryChannelSubscribe (channel : SCChannelPtr)
    (channelSubOptions : ChannelSubscriptionOptions) (s : t) : t :=
  if is_OPEN (m_state s) && meetsRequirements channelSubOptions s then
    let channelSubData := [("channel", JStr (getName channel s))] in
    let channelSubData :=
      if negb (json_empty (data channelSubOptions))
      then map_set "data" (data channelSubOptions) channelSubData
      else channelSubData in
    emit "#subscribe" (JObj channelSubData)
         (Some (SubscribeAck channel channelSubOptions)) false s
  else s.

Definition triggerChannelSubscribeFail (channel : SCChannelPtr) (ec : error_code)
    (channelSubOptions : ChannelSubscriptionOptions) (s : t) : t :=
  if negb (is_UNSUBSCRIBED (getState channel s)) && meetsRequirements channelSubOptions s then
    let s1 := update_channel channel (SCChannel.set_state UNSUBSCRIBED) s in
    let s2 := channel_triggerEvent channel
                (SCChannel.SubscribeFailEvent (getName channel s1) ec) s1 in
    triggerEvent (SubscribeFailEvent (getName channel s2) ec) s2
  else s.

Definition triggerChannelSubscribe (channel : SCChannelPtr)
    (channelSubOption : ChannelSubscriptionOptions) (s : t) : t :=
  let old := getState channel s in
  if is_SUBSCRIBED old then s
  else
    let s1 := update_channel channel (SCChannel.set_state SUBSCRIBED) s in
    let stateData :=
      {| name := getName channel s1; oldState := old; newState := getState channel s1 |} in
    let s2 := channel_triggerEvent channel (SCChannel.SubscriptionStateChangeEvent stateData) s1 in
    let s3 := channel_triggerEvent channel (SCChannel.SubscribeEvent (getName channel s2)) s2 in
    let s4 := triggerEvent (SubscriptionStateChangeEvent stateData) s3 in
    triggerEvent (SubscribeEvent (getName channel s4)) s4.

Definition triggerChannelUnsubscribe (channel : SCChannelPtr) (new : ChannelState)
    (s : t) : t :=
  let old := getState channel s in
  let s1 := update_channel channel (SCChannel.set_state new) s in
  let s2 := cancelPendingSubscriberCallback channel s1 in
  if is_SUBSCRIBED old then
    let stateData :=
      {| name := getName channel s2; oldState := old; newState := new |} in
    let s3 := channel_triggerEvent channel (SCChannel.SubscriptionStateChangeEvent stateData) s2 in
    let s4 := channel_triggerEvent channel (SCChannel.UnsubscribeEvent (getName channel s3)) s3 in
    let s5 := triggerEvent (SubscriptionStateChangeEvent stateData) s4 in
    triggerEvent (UnsubscribeEvent (getName channel s5)) s5
  else s2.

Definition sendChannelUnsubscribe (channel : SCChannelPtr) (s : t) : t :=
  let s1 := cancelPendingSubscriberCallback channel s in
  emit "#unsubscribe" (JStr (getName channel s1)) None false s1.

(** The state [suspendChannelSubscriptions] moves a channel to. *)
Definition suspended (st : ChannelState) : ChannelState :=
  if is_SUBSCRIBED st || is_PENDING st then PENDING else UNSUBSCRIBED.

Definition suspendChannelSubscriptions (s : t) : t :=
  fold_left
    (fun s (sub : string * SCChannelPtr) =>
       let st := getState (snd sub) s in
       triggerChannelUnsubscribe (snd sub) (suspended st) s)
    (m_channels s) s.

Definition subscribe (channelName : string)
    (channelSubOptions : ChannelSubscriptionOptions) (s : t) : SCChannelPtr * t :=
  let '(channel, s1) :=
    match map_find channelName (m_channels s) with
    | Some channel => (channel, s)
    | None =>
        let channel := length (channels s) in
        let s1 := set_channel_objects (channels s ++ [SCChannel.make channelName]) s in
        (channel, set_channels (map_set channelName channel (m_channels s1)) s1)
    end in
  if is_UNSUBSCRIBED (getState channel s1) then
    let s2 := update_channel channel (SCChannel.set_state PENDING) s1 in
    (channel, tryChannelSubscribe channel channelSubOptions s2)
  else (channel, s1).

Definition unsubscribe (channelName : string) (s : t) : t :=
  match map_find channelName (m_channels s) with
  | Some channel =>
      if negb (is_UNSUBSCRIBED (getState channel s)) then
        sendChannelUnsubscribe channel (triggerChannelUnsubscribe channel UNSUBSCRIBED s)
      else s
  | None => s
  end.

(** [channel->unsubscribe()] is [m_socket->unsubscribe(m_name)]. *)
Definition destroyChannel (channelName : string) (s : t) : t :=
  match map_find channelName (m_channels s) with
  | Some channel =>
      let s1 := update_channel channel SCChannel.unwatch s in
      let s2 := unsubscribe (getName channel s1) s1 in
      set_channels (map_erase channelName (m_channels s2)) s2
  | None => s
  end.

Definition unwatch (channelName : string) (s : t) : t :=
  match map_find channelName (m_channels s) with
  | Some channel => update_channel channel SCChannel.unwatch s
  | None => s
  end.

(** [unwatch(channelName, conn)]: [conn.disconnect()] detaches the slot
    from the signal it is connected to, whichever channel owns it. *)
Definition unwatch_connection (channelName : string) (conn : connection) (s : t) : t :=
  match map_find channelName (m_channels s) with
  | Some channel =>
      set_channel_objects (map (SCChannel.disconnect conn) (channels s)) s
  | None => s
  end.

(** [channel->watch(slot)], called by the user on a channel handle *)
Definition watch (channel : SCChannelPtr) (slot : connection) (s : t) : t :=
  update_channel channel (SCChannel.watch slot) s.

(** *** Response handlers and acknowledgement timers *)

(** Calling a stored handler.  A user handler is recorded in the trace;
    the closure of [tryChannelSubscribe] runs its body. *)
Definition invoke (h : ResponseHandler) (ec : error_code) (resp : json) (s : t) : t :=
  match h with
  | UserHandler id => act [Handler id ec resp] s
  | SubscribeAck channel channelSubOptions =>
      if ec_failed ec then triggerChannelSubscribeFail channel ec channelSubOptions s
      else triggerChannelSubscribe channel channelSubOptions s
  end.

Definition ackTimeoutErrMsg (cid : Z) : string :=
  ("no ack for call id (cid) " ++ dec cid)%string.

Definition handleEmitAckTimeout (cid : Z) (s : t) : t :=
  match m_pendingResponses s !! cid with
  | Some respItem =>
      let s1 := set_pendingResponses (delete cid (m_pendingResponses s)) s in
      let errorInfo :=
        JObj [("error", JObj [("message", JStr (ackTimeoutErrMsg cid))])] in
      invoke (handler respItem) (ec_scio ack_timeout) errorInfo s1
  | None => s
  end.

(** The completion handler [emit] gives to [ackTimer->async_wait]. *)
Definition ackTimerHandler (cid : Z) (ec : error_code) (s : t) : t :=
  if ec_failed ec then s else handleEmitAckTimeout cid s.

(** The io service completes the wait of the timer held by the pending
    entry of [cid] when its deadline passes; a timer that was cancelled,
    or that went away with its entry, has no wait left to complete. *)
Definition ackTimerExpires (cid : Z) (s : t) : t :=
  match m_pendingResponses s !! cid with
  | Some {| handler := _; ackTimer := Some TimerWaiting |} =>
      ackTimerHandler cid ec_success s
  | _ => s
  end.

(** [respItem.ackTimer->cancel()], on the timer the entry shares. *)
Definition cancel_ackTimer (cid : Z) (s : t) : t :=
  set_pendingResponses
    (alter (fun it => {| handler := handler it;
                         ackTimer := match ackTimer it with
                                     | Some _ => Some TimerCancelled
                                     | None => None
                                     end |}) cid (m_pendingResponses s)) s.

(** *** Connection life cycle *)

Definition resetPingTimer (cancelOnly : bool) (s : t) : t :=
  if cancelOnly then set_pingTimeoutTimer None s
  else set_pingTimeoutTimer (Some (m_pingTimeout s)) s.

(** The completion handler of the ping timer. *)
Definition pingTimerHandler (ec : error_code) (s : t) : t :=
  if ec_failed ec then s else act [Transport (ws_close close_protocol_error)] s.

Definition resetState (s : t) : t :=
  resetPingTimer true (set_nextCallId 1 (set_state CONNECTING s)).

Definition clearIoWriteQueue (s : t) : t := set_outQueue [] s.

Definition internalClose (code : close_code) (s : t) : t :=
  let s1 := resetPingTimer true s in
  let s2 := if is_OPEN (m_state s1)
            then act [Transport (ws_close code)] (set_state CLOSED s1)
            else s1 in
  suspendChannelSubscriptions (clearIoWriteQueue s2).

Definition startConnect (s : t) : t :=
  let s1 := triggerEvent ConnectingEvent (resetState s) in
  act [Transport (async_resolve (host (m_connectOptions s1)) (port (m_connectOptions s1)))] s1.

Definition connect (s : t) : t :=
  if negb (is_CLOSED (m_state s)) then s else startConnect s.

Definition close (s : t) : t :=
  act [Transport (ws_close close_normal); Transport ios_stop] (set_state CLOSED s).

Definition disconnect (s : t) : t := act [Transport (ws_close close_normal)] s.

(** *** Reconnect timing

    The arithmetic on [double] is that of the [Library].  The multiplier
    of the options and the sample drawn are known by the numbers they
    hold; [double_of] gives the [double].  Whatever the conversion to
    [uint32_t] yields is held in 32 bits. *)

Definition RECONENCT_DELAY_INVALID : Z := 4294967295.

(** Rounding to the nearest integer, halves away from zero: what
    [std::round] is of a number, without the [double] around it. *)
Definition std_round (q : Q) : Z :=
  if Qle_bool 0 q then Qfloor (q + (1 # 2)) else Qceiling (q - (1 # 2)).

(** [uniform_sample] is the value drawn from
    [uniform_real_distribution<>(0, 1)]. *)
Definition initialTimeout `{L : !Library} (o : AutoReconnectOptions)
    (uniform_sample : Q) : Z :=
  wrap_uint32
    (uint32_of_double
       (round_double
          (double_add (double_of (inject_Z (initialDelay o)))
             (double_mul (double_of (inject_Z (randomness o)))
                (double_of uniform_sample))))).

(** [timeout] before it is compared with [maxDelay] *)
Definition timeout_unclamped `{L : !Library} (o : AutoReconnectOptions)
    (initialDelay exponent : Z) (uniform_sample : Q) : Z :=
  if (RECONENCT_DELAY_INVALID =? initialDelay) || (0 <? exponent) then
    wrap_uint32
      (uint32_of_double
         (round_double
            (double_mul (double_of (inject_Z (initialTimeout o uniform_sample)))
               (std_pow (double_of (multiplier o)) (double_of (inject_Z exponent))))))
  else initialDelay.

Definition reconnect_timeout `{L : !Library} (o : AutoReconnectOptions)
    (initialDelay exponent : Z) (uniform_sample : Q) : Z :=
  let timeout := timeout_unclamped o initialDelay exponent uniform_sample in
  if maxDelay o <? timeout then maxDelay o else timeout.

Definition tryReconnect `{L : !Library} (initialDelay : Z) (uniform_sample : Q)
    (s : t) : t :=
  let exponent := m_connectAttempts s in
  let s1 := set_connectAttempts (wrap_uint32 (exponent + 1)) s in
  let timeout :=
    reconnect_timeout (autoReconnectOptions (m_connectOptions s1))
      initialDelay exponent uniform_sample in
  act [Transport (reconnect_timer timeout)] s1.

(** The completion handler of the reconnect timer. *)
Definition reconnectTimerHandler (ec : error_code) (s : t) : t :=
  if ec_failed ec then s else startConnect s.

Definition closeHandler `{L : !Library} (ec : error_code) (isConnectionAbort : bool)
    (uniform_sample : Q) (s : t) : t :=
  let s1 := internalClose close_normal s in
  let s2 := if negb (is_operation_aborted ec) && autoReconnect (m_connectOptions s1)
            then tryReconnect RECONENCT_DELAY_INVALID uniform_sample s1
            else s1 in
  if isConnectionAbort then triggerEvent (ConnectAbortEvent ec) s2
  else triggerEvent (DisconnectEvent ec) s2.

Definition ioErrorHandler `{L : !Library} (ec : error_code) (uniform_sample : Q)
    (s : t) : t :=
  if is_operation_aborted ec || is_eof ec then closeHandler ec false uniform_sample s
  else s.

Definition resolveHandler `{L : !Library} (ec : error_code) (uniform_sample : Q)
    (s : t) : t :=
  if ec_failed ec then closeHandler ec true uniform_sample s
  else act [Transport async_connect] s.

Definition secureConnectHandler `{L : !Library} (ec : error_code)
    (uniform_sample : Q) (s : t) : t :=
  if ec_failed ec then closeHandler ec true uniform_sample s
  else act [Transport ssl_async_handshake] s.

Definition performHandshake (s : t) : t :=
  act [Transport (ws_async_handshake (host (m_connectOptions s)) (path (m_connectOptions s)))] s.

Definition connectHandler `{L : !Library} (ec : error_code) (uniform_sample : Q)
    (s : t) : t :=
  if ec_failed ec then closeHandler ec true uniform_sample s
  else performHandshake (set_state OPEN s).

(** *** Write pump *)

Definition ioPumpReadSome (s : t) : t := act [Transport ws_async_read_some] s.

Definition ioPumpWrite `{L : !Library} (s : t) : outcome t :=
  match m_outQueue s with
  | [] => Ok (ioPumpReadSome s)
  | obj :: rest =>
      let s1 := set_outQueue rest s in
      m_currentOutBuffer ←
        match codecEngine (m_connectOptions s1) with
        | Some c => encode c obj
        | None => Ok (json_dump obj)
        end;
      Ok (act [Transport (ws_async_write m_currentOutBuffer)] s1)
  end.

Definition pumpWriteHandler `{L : !Library} (ec : error_code) (uniform_sample : Q)
    (s : t) : outcome t :=
  if ec_failed ec then Ok (ioErrorHandler ec uniform_sample s) else ioPumpWrite s.

Definition initialHandshakeHandler `{L : !Library} (ec : error_code) (s : t) : outcome t :=
  if ec_failed ec then Ok s
  else
    let cid := m_nextCallId s in
    let s1 := set_nextCallId (wrap_uint64 (cid + 1)) s in
    let handshakePayload :=
      JObj [("cid", JNum cid); ("data", JNull); ("event", JStr "#handshake")] in
    ioPumpWrite (push handshakePayload s1).

(** *** Inbound dispatch *)

Definition getEventType (payload : json) : outcome ProtocolEvent :=
  catch_oor
    (ev ← json_at "event" payload;
     eventName ← get_string ev;
     if String.eqb "#publish" eventName then Ok PUBLISH
     else if String.eqb "#removeAuthToken" eventName then Ok REMOVE_TOKEN
     else if String.eqb "#setAuthToken" eventName then Ok SET_TOKEN
     else Ok EVENT)
    (rid ← value_int "rid" payload;
     if 1 =? rid then Ok IS_AUTHENTICATED else Ok ACK_RECEIVE).

(** [boost::split(parts, s, boost::is_any_of("."))]: empty parts are kept. *)
Fixpoint split_on (sep : ascii) (s : string) : list string :=
  match s with
  | EmptyString => [EmptyString]
  | String c s' =>
      if Ascii.eqb c sep then EmptyString :: split_on sep s'
      else match split_on sep s' with
           | p :: ps => String c p :: ps
           | [] => [String c EmptyString]
           end
  end.

Definition protocolError (s : t) : t := triggerEvent (ErrorEvent (ec_scio protocol_error)) s.

(** [case ProtocolEvent::PUBLISH] *)
Definition onPublish (payload : json) (s : t) : outcome t :=
  catch_oor
    (d ← json_at "data" payload;
     ch ← json_at "channel" d;
     channelName ← get_string ch;
     innerData ← json_at "data" d;
     match map_find channelName (m_channels s) with
     | Some channel =>
         let slots := match channels s !! channel with
                      | Some c => SCChannel.m_watchers c
                      | None => []
                      end in
         Ok (channel_triggerEvent channel (SCChannel.ChannelEvent slots innerData) s)
     | None => Ok s
     end)
    (Ok (protocolError s)).

(** [case ProtocolEvent::REMOVE_TOKEN] *)
Definition onRemoveToken (s : t) : t :=
  triggerEvent DeauthenticateEvent (set_authTokens "" json_object s).

(** [case ProtocolEvent::SET_TOKEN] *)
Definition onSetToken `{L : !Library} (payload : json) (s : t) : outcome t :=
  catch_oor
    (d ← json_at "data" payload;
     tok ← json_at "token" d;
     jwtToken ← get_string tok;
     pingTimeout ← json_value get_uint32 "pingTimeout" (m_pingTimeout s) d;
     let s1 := set_pingTimeout pingTimeout s in
     let jwtParts := split_on "." jwtToken in
     if (length jwtParts =? 3)%nat then
       catch_oor
         (catch_inv
            (jwtPayload ← Base64 (nth 1 jwtParts "");
             let oldJwtToken := m_signedAuthToken s1 in
             parsed ← json_parse jwtPayload;
             let s2 := set_authTokens jwtToken parsed s1 in
             let s3 := if String.eqb oldJwtToken ""
                       then triggerEvent (AuthenticateEvent (m_signedAuthToken s2)) s2
                       else s2 in
             Ok (triggerEvent (AuthTokenChangeEvent (m_signedAuthToken s3)) s3))
            (Ok (protocolError s1)))
         (Ok (protocolError s1))
     else Ok s1)
    (Ok (protocolError s)).

(** [case ProtocolEvent::ACK_RECEIVE] *)
Definition onAckReceive (payload : json) (s : t) : outcome t :=
  r ← value_int "rid" payload;
  let rid := CallId_of_int r in
  match m_pendingResponses s !! rid with
  | Some respItem =>
      let s1 := cancel_ackTimer rid s in
      match json_at "error" payload with
      | Ok error => Ok (invoke (handler respItem) (ec_scio response_error) error s1)
      | Throw out_of_range =>
          d ← value_json "data" json_object payload;
          Ok (invoke (handler respItem) ec_success d s1)
      | Throw e => Throw e
      end
  | None => Ok (triggerEvent (ErrorEvent (ec_scio unexpected_rid)) s)
  end.

(** [case ProtocolEvent::EVENT] *)
Definition onEvent (payload : json) (s : t) : outcome t :=
  catch_oor
    (c ← value_int "cid" payload;
     let cid := CallId_of_int c in
     ev ← json_at "event" payload;
     eventName ← get_string ev;
     eventData ← json_at "data" payload;
     Ok (triggerEvent
           (EmitEvent eventName eventData (if cid =? 0 then None else Some cid)) s))
    (Ok (protocolError s)).

(** The response callback an [EmitEvent] slot is given, called with [resp]. *)
Definition emitEventRespond (cid : Z) (resp : json) (s : t) : t :=
  push (JObj [("data", resp); ("rid", JNum cid)]) s.

(** The [switch(eventType)] of [readSomeHandler]. *)
Definition dispatch `{L : !Library} (eventType : ProtocolEvent) (payload : json) (s : t)
    : outcome t :=
  match eventType with
  | IS_AUTHENTICATED => Ok (triggerEvent (ConnectEvent payload) s)
  | PUBLISH => onPublish payload s
  | REMOVE_TOKEN => Ok (onRemoveToken s)
  | SET_TOKEN => onSetToken payload s
  | ACK_RECEIVE => onAckReceive payload s
  | EVENT => onEvent payload s
  | UNKNOWN => Ok s
  end.

(** The three bytes of the literal handed to [boost::asio::buffer("#2")]. *)
Definition pong : string := String "#" (String "2" (String Ascii.zero EmptyString)).

(** One decoded object: classify, dispatch, and go back to the write pump. *)
Definition handlePayload `{L : !Library} (payload : json) (s : t) : outcome t :=
  eventType ← getEventType payload;
  s1 ← dispatch eventType payload s;
  ioPumpWrite s1.

(** [readSomeHandler], for a read that left the message [buf] in
    [m_buffer]; [message_done] is [isCurrentMessageComplete()].  A write
    pump entered from inside the [try] block is taken not to throw
    [std::invalid_argument]. *)
Definition readSomeHandler `{L : !Library} (ec : error_code) (buf : string)
    (message_done : bool) (uniform_sample : Q) (s : t) : outcome t :=
  if ec_failed ec then Ok (ioErrorHandler ec uniform_sample s)
  else if String.eqb buf "" then ioPumpWrite s
  else if negb message_done then Ok (ioPumpReadSome s)
  else
    let s1 := triggerEvent (RawEvent buf) s in
    if String.eqb buf "#1" then
      Ok (act [Transport (ws_async_write pong)] (resetPingTimer false s1))
    else
      let decoded :=
        match codecEngine (m_connectOptions s1) with
        | Some c => decode c buf
        | None => json_parse buf
        end in
      match decoded with
      | Ok payload =>
          if negb (is_object payload) then ioPumpWrite (protocolError s1)
          else handlePayload payload s1
      | Throw invalid_argument =>
          ioPumpWrite (triggerEvent (ErrorEvent (ec_scio json_parse_failure)) s1)
      | Throw e => Throw e
      end.

(** The fields of the socket other than the channel objects and the
    trace. *)
Definition frame (s : t) :=
  (m_state s, m_connectOptions s, m_nextCallId s, m_outQueue s,
   m_pendingResponses s, m_signedAuthToken s, m_authToken s, m_channels s,
   m_connectAttempts s, m_pingTimeout s, m_pingTimeoutTimer s).

End SCSocket.

(** ** The specification's statements

    Definitions that follow the words of the specification, to be compared
    with the code above. *)

Module Spec.
Import SCSocket.

(** The classification table of the inbound dispatcher (section 4.G). *)
Definition classify (payload : list (string * json)) : ProtocolEvent :=
  match map_find "event" payload with
  | Some (JStr e) =>
      if String.eqb e "#publish" then PUBLISH
      else if String.eqb e "#removeAuthToken" then REMOVE_TOKEN
      else if String.eqb e "#setAuthToken" then SET_TOKEN
      else EVENT
  | Some _ => EVENT
  | None =>
      match map_find "rid" payload with
      | Some (JNum 1) => IS_AUTHENTICATED
      | _ => ACK_RECEIVE
      end
  end.

(** "Classification is exactly" the table, for a decoded object. *)
Definition classification_as_stated (payload : list (string * json)) : Prop :=
  getEventType (JObj payload) = Ok (classify payload).

(** Packets whose members have the types the code converts them to: a
    string [event]; without an [event], an integer [rid] that fits [int]. *)
Definition well_typed_packet (payload : list (string * json)) : Prop :=
  match map_find "event" payload with
  | Some (JStr _) => True
  | Some _ => False
  | None =>
      match map_find "rid" payload with
      | Some (JNum z) => - 2 ^ 31 <= z < 2 ^ 31
      | Some _ => False
      | None => True
      end
  end.

(** The subscribe gate (section 4.H): "the socket is OPEN AND
    (opts.wait_for_auth == false OR auth_state == AUTHENTICATED)". *)
Definition subscribe_gate (opts : ChannelSubscriptionOptions) (s : t) : Prop :=
  m_state s = OPEN ∧ (waitForAuth opts = false ∨ getAuthState s = AUTHENTICATED).

(** Between [s] and [s'] one packet was put on the egress queue, and it
    is a [#subscribe]. *)
Definition enqueues_subscribe (s s' : t) : Prop :=
  ∃ pkt, m_outQueue s' = m_outQueue s ++ [pkt] ∧
         json_at "event" pkt = Ok (JStr "#subscribe").

(** The trace written between two states. *)
Definition new_trace (s s' : t) : list Action := drop (length (m_trace s)) (m_trace s').

(** "On every transition to CLOSED" (section 3, invariants; section 4.H):
    [s'] is the socket after the transition from [s]. *)
Definition closed_as_stated (s s' : t) : Prop :=
  m_outQueue s' = [] ∧
  m_pendingResponses s' = ∅ ∧
  (∀ nm ch, map_find nm (m_channels s) = Some ch ->
     getState ch s = SUBSCRIBED ∨ getState ch s = PENDING ->
     getState ch s' = PENDING ∧
     Socket (UnsubscribeEvent (getName ch s)) ∈ new_trace s s' ∧
     ∃ d, name d = getName ch s ∧
          Socket (SubscriptionStateChangeEvent d) ∈ new_trace s s') ∧
  (∀ nm ch, map_find nm (m_channels s) = Some ch ->
     getState ch s = UNSUBSCRIBED -> getState ch s' = UNSUBSCRIBED).

(** The "unsubscribe + state-change events" of a channel (section 4.H),
    on the channel and mirrored on the socket. *)
Definition unsubscribe_events (ch : SCChannelPtr) (nm : string)
    (old new : ChannelState) : list Action :=
  let d := {| name := nm; oldState := old; newState := new |} in
  [Channel ch (SCChannel.SubscriptionStateChangeEvent d);
   Channel ch (SCChannel.UnsubscribeEvent nm);
   Socket (SubscriptionStateChangeEvent d);
   Socket (UnsubscribeEvent nm)].

(** The events of suspending the channels of [s]: those of every channel
    that is SUBSCRIBED, in the order of the registry. *)
Definition suspend_events (s : t) (sub : string * SCChannelPtr) : list Action :=
  if is_SUBSCRIBED (getState (snd sub) s)
  then unsubscribe_events (snd sub) (getName (snd sub) s) SUBSCRIBED PENDING
  else [].

Definition suspend_trace (s : t) : list Action :=
  flat_map (suspend_events s) (m_channels s).

(** The synthetic payload of an acknowledgement timeout (section 4.E). *)
Definition ack_timeout_payload (cid : Z) : json :=
  JObj [("error", JObj [("message", JStr ("no ack for call id " ++ dec cid)%string)])].

(** "On expiry, remove the entry and invoke the handler with AckTimeout
    and a synthetic payload": [s] is the socket when the timer of [cid],
    emitted with handler [id], expires. *)
Definition ack_timeout_as_stated (cid : Z) (id : nat) (s : t) : Prop :=
  let s' := ackTimerExpires cid s in
  m_pendingResponses s' !! cid = None ∧
  m_trace s' = m_trace s ++ [Handler id (ec_scio ack_timeout) (ack_timeout_payload cid)].






(** A [#publish] packet, as [compressPublishPacket] expects it. *)
Definition publish_packet (channel : string) (inner : json) : json :=
  JObj [("data", JObj [("channel", JStr channel); ("data", inner)]);
        ("event", JStr "#publish")].

(** An emit packet with a call id. *)
Definition emit_packet (event : string) (d : json) (cid : Z) : json :=
  JObj [("cid", JNum cid); ("data", d); ("event", JStr event)].

(** A response packet with all three members. *)
Definition response_packet (rid : Z) (error d : json) : json :=
  JObj [("data", d); ("error", error); ("rid", JNum rid)].

(** [p] without the members that are null: "up to presence of optional
    fields". *)
Definition drop_null_members (p : json) : json :=
  match p with
  | JObj m => JObj (filter (fun kv => is_null (snd kv) = false) m)
  | _ => p
  end.

(** The codec round trip, on the values between which MessagePack sits. *)
Definition round_trip (p : json) : outcome json :=
  o ← CodecEngineMinBin.encode_json p; CodecEngineMinBin.decode_json o.

End Spec.

(** ** Scenarios

    Concrete sockets and packets, for the examples of the specification
    (section 8) and the instances of the theorems. *)

Module Scenario.
Import SCSocket.

Definition base64_digit (c : ascii) : option N :=
  let n := N_of_ascii c in
  if ((65 <=? n) && (n <=? 90))%N then Some (n - 65)%N
  else if ((97 <=? n) && (n <=? 122))%N then Some (n - 71)%N
  else if ((48 <=? n) && (n <=? 57))%N then Some (n + 4)%N
  else if (n =? 43)%N then Some 62%N
  else if (n =? 47)%N then Some 63%N
  else None.

(** Six bits per character into whole bytes, most significant first. *)
Fixpoint base64_bytes (s : string) (acc nbits : N) : outcome string :=
  match s with
  | EmptyString => Ok EmptyString
  | String c s' =>
      match base64_digit c with
      | None => Throw dataflow_exception
      | Some d =>
          let acc := (acc * 64 + d)%N in
          let nbits := (nbits + 6)%N in
          if (8 <=? nbits)%N then
            let nb := (nbits - 8)%N in
            r ← base64_bytes s' (acc mod 2 ^ nb)%N nb;
            Ok (String (ascii_of_N (acc / 2 ^ nb)) r)
          else base64_bytes s' acc nbits
      end
  end.

Definition dquote : string := String (ascii_of_nat 34) EmptyString.

Definition hex_digit (n : N) : ascii :=
  nth (N.to_nat n) (list_ascii_of_string "0123456789abcdef") "0"%char.

(** A character inside a JSON string, as [dump] writes it. *)
Definition escape_char (c : ascii) : string :=
  let n := N_of_ascii c in
  if (n =? 34)%N then ("\" ++ dquote)%string
  else if (n =? 92)%N then "\\"
  else if (n =? 8)%N then "\b"
  else if (n =? 12)%N then "\f"
  else if (n =? 10)%N then "\n"
  else if (n =? 13)%N then "\r"
  else if (n =? 9)%N then "\t"
  else if (n <? 32)%N then
    ("\u00" ++ String (hex_digit (n / 16)) (String (hex_digit (n mod 16)) EmptyString))%string
  else String c EmptyString.

Fixpoint escape (s : string) : string :=
  match s with
  | EmptyString => EmptyString
  | String c s' => (escape_char c ++ escape s')%string
  end.

Definition quoted (s : string) : string := (dquote ++ escape s ++ dquote)%string.

(** Compact JSON text, members in key order. *)
Fixpoint dump (j : json) : string :=
  match j with
  | JNull => "null"
  | JBool true => "true"
  | JBool false => "false"
  | JNum z => if z <? 0 then ("-" ++ dec (- z))%string else dec z
  | JStr s => quoted s
  | JArr l =>
      ("[" ++
       (fix items (l : list json) : string :=
          match l with
          | [] => EmptyString
          | x :: l' =>
              match l' with
              | [] => dump x
              | _ => (dump x ++ "," ++ items l')%string
              end
          end) l ++ "]")%string
  | JObj m =>
      ("{" ++
       (fix members (m : list (string * json)) : string :=
          match m with
          | [] => EmptyString
          | (k, v) :: m' =>
              match m' with
              | [] => (quoted k ++ ":" ++ dump v)%string
              | _ => (quoted k ++ ":" ++ dump v ++ "," ++ members m')%string
              end
          end) m ++ "}")%string
  end.

(** The token payload of scenario 6, and its JSON text. *)
Definition user_bob : json := JObj [("user", JStr "bob")].
Definition user_bob_text : string := dump user_bob.

(** A library for the scenarios: base64 without padding, the printer
    above, a parser that reads back the one text the scenarios parse, and
    an arithmetic without rounding error, on the numbers themselves (the
    values the scenarios compute with are held exactly by a [double]). *)
#[local] Instance library : Library :=
  {| json_parse := fun text =>
       if String.eqb text user_bob_text then Ok user_bob
       else Throw invalid_argument;
     json_dump := dump;
     Base64 := fun s => base64_bytes s 0%N 0%N;
     double := Q;
     double_of := fun q => q;
     double_add := Qplus;
     double_mul := Qmult;
     std_pow := fun x y => Qpower x (Qfloor y);
     round_double := fun x => inject_Z (std_round x);
     uint32_of_double := Qfloor |}.

(** A socket that uses the binary codec, otherwise with the defaults. *)
Definition options : ConnectOptions :=
  {| host := "localhost"; port := "http"; userAgent := ""; secure := false;
     path := "/socketcluster/"; autoReconnect := true;
     autoReconnectOptions := default_AutoReconnectOptions;
     ackTimeout := 10; codecEngine := Some codecEngineMinBin |}.

(** Connected, and the application handshake written. *)
Definition opened : outcome t :=
  let s1 := connect (make options) in
  let s2 := resolveHandler ec_success 0 s1 in
  let s3 := connectHandler ec_success 0 s2 in
  initialHandshakeHandler ec_success s3.

Definition user_handler : nat := 7%nat.

(** Scenario 2: [emit("foo", {x:1}, h)] on the open socket. *)
Definition emitted : outcome t :=
  s ← opened;
  Ok (emit "foo" (JObj [("x", JNum 1)]) (Some (UserHandler user_handler)) false s).

(** The server's reply [{rid:2, data:{ok:true}}], MessagePack-encoded. *)
Definition reply : string :=
  string_of_list_byte
    (to_msgpack (JObj [("data", JObj [("ok", JBool true)]); ("rid", JNum 2)])).

(** The reply arrives, and then arrives once more. *)
Definition replied_twice : outcome t :=
  s ← emitted;
  s1 ← readSomeHandler ec_success reply true 0 s;
  readSomeHandler ec_success reply true 0 s1.

(** An open socket with a pending call and one channel in PENDING. *)
Definition with_pending_channel : t :=
  let s := set_state OPEN (make default_ConnectOptions) in
  let s := set_nextCallId 2 s in
  let s := emit "foo" JNull (Some (UserHandler user_handler)) false s in
  let s := set_channel_objects
             [SCChannel.set_state PENDING (SCChannel.make "room")] s in
  set_channels [("room", 0%nat)] s.

(** An open socket with channels in each of the three states. *)
Definition with_three_channels : t :=
  let s := set_state OPEN (make default_ConnectOptions) in
  let s := push (JObj [("data", JNull); ("event", JStr "queued")]) s in
  let s := set_channel_objects
             [SCChannel.set_state SUBSCRIBED (SCChannel.make "a");
              SCChannel.set_state PENDING (SCChannel.make "b");
              SCChannel.make "c"] s in
  set_channels [("a", 0%nat); ("b", 1%nat); ("c", 2%nat)] s.

(** The calls of user handlers recorded in a trace. *)
Definition handler_calls (tr : list Action) : list (nat * error_code * json) :=
  flat_map (fun a => match a with
                     | Handler id ec resp => [(id, ec, resp)]
                     | _ => []
                     end) tr.

(** An open socket after the handshake, with the text codec. *)
Definition open_socket : t :=
  set_nextCallId 2 (set_state OPEN (make default_ConnectOptions)).

(** Scenario 4: [subscribe("room")] on the open socket, and the socket
    once the server has acknowledged it. *)
Definition room_pending : t :=
  snd (subscribe "room" default_ChannelSubscriptionOptions open_socket).

Definition room_ack : json := JObj [("data", JNull); ("rid", JNum 2)].

Definition room_subscribed : t :=
  match onAckReceive room_ack room_pending with
  | Ok s => s
  | Throw _ => room_pending
  end.

(** Scenario 6: the token of the specification. *)
Definition token : string := "aaa.eyJ1c2VyIjoiYm9iIn0.zzz".

End Scenario.

(** ** Sequences of steps

    Compositions of the functions above that the statements below are
    about. *)

Module Run.
Import SCSocket.

(** One packet through [compressSinglePacket] and back through
    [decompressSinglePacket]: what a member of an array goes through. *)
Definition single_round_trip (p : json) : outcome json :=
  o ← CodecEngineMinBin.compressSinglePacket p;
  CodecEngineMinBin.decompressSinglePacket o.

(** [m_currentOutBuffer] as [placeNextWriteQueueItemInPayload] fills it
    for the packet [obj]. *)
Definition currentOutBuffer `{L : !Library} (o : ConnectOptions) (obj : json)
    : outcome string :=
  match codecEngine o with
  | Some c => encode c obj
  | None => Ok (json_dump obj)
  end.

(** [n] writes in a row: each [async_write] completes without error and
    [pumpWriteHandler] goes back to [ioPumpWrite]. *)
Fixpoint pump `{L : !Library} (n : nat) (s : t) : outcome t :=
  match n with
  | O => Ok s
  | S n' => s1 ← pumpWriteHandler ec_success 0 s; pump n' s1
  end.

(** The [async_write] requests for a list of buffers. *)
Definition writes (bufs : list string) : list Action :=
  map (fun buf => Transport (ws_async_write buf)) bufs.

(** A connection attempt that goes through: [startConnect], then the
    resolve, connect and WebSocket handshake completions without error. *)
Definition connected `{L : !Library} (s : t) : outcome t :=
  let s1 := startConnect s in
  let s2 := resolveHandler ec_success 0 s1 in
  let s3 := connectHandler ec_success 0 s2 in
  initialHandshakeHandler ec_success s3.

(** The application handshake packet with call id [cid]. *)
Definition handshakePayload (cid : Z) : json :=
  JObj [("cid", JNum cid); ("data", JNull); ("event", JStr "#handshake")].

(** The [data] of a [#subscribe] packet for the channel [nm]. *)
Definition channelSubData (nm : string) (opts : ChannelSubscriptionOptions) : json :=
  JObj (if negb (json_empty (data opts))
        then [("channel", JStr nm); ("data", data opts)]
        else [("channel", JStr nm)]).

(** The events of a subscription that succeeded, on the channel and on
    the socket. *)
Definition subscribe_events (ch : SCChannelPtr) (nm : string) (old : ChannelState)
    : list Action :=
  let d := {| name := nm; oldState := old; newState := SUBSCRIBED |} in
  [Channel ch (SCChannel.SubscriptionStateChangeEvent d);
   Channel ch (SCChannel.SubscribeEvent nm);
   Socket (SubscriptionStateChangeEvent d);
   Socket (SubscribeEvent nm)].

(** The events of a subscription that failed with [ec]. *)
Definition subscribe_fail_events (ch : SCChannelPtr) (nm : string) (ec : error_code)
    : list Action :=
  [Channel ch (SCChannel.SubscribeFailEvent nm ec);
   Socket (SubscribeFailEvent nm ec)].

(** The socket with a new channel object for [nm], already PENDING, in
    the registry: where [subscribe] stands when it calls
    [tryChannelSubscribe] for a name it did not know. *)
Definition with_new_channel (nm : string) (s : t) : t :=
  set_channel_objects
    (channels s ++ [SCChannel.set_state PENDING (SCChannel.make nm)])
    (set_channels (map_set nm (length (channels s)) (m_channels s)) s).

(** The requests made of the transport and the io service that a trace
    records, in order. *)
Definition transport_ops (tr : list Action) : list TransportOp :=
  flat_map (fun a => match a with Transport op => [op] | _ => [] end) tr.

(** The event fired last, if the trace ends with an event of the socket. *)
Definition last_event (tr : list Action) : option Event :=
  match last tr with
  | Some (Socket e) => Some e
  | _ => None
  end.

End Run.

(** * Properties *)

(** Comparisons with a string that is not known are kept folded. *)
#[local] Arguments String.eqb : simpl nomatch.

(** Evaluate member lookups and the error monad, leaving integers alone. *)
Ltac json_cbn :=
  cbn [value_string value_int value_json json_value map_find String.eqb Ascii.eqb
       Bool.eqb get_string get_int get_CallId get_uint32 json_at mbind outcome_bind
       obind catch_oor catch_inv negb].

(** ** Facts about the association-list map *)

Section StdMapFacts.
Context {V : Type}.
Implicit Types (m : list (string * V)) (k : string) (v : V).

Lemma map_erase_absent k m : map_find k m = None -> map_erase k m = m.
Proof.
  induction m as [|[k' v'] m IH]; simpl; [reflexivity|].
  destruct (String.eqb k k'); [discriminate|].
  intros H. rewrite IH by assumption. reflexivity.
Qed.

Lemma map_find_set_eq k v m : map_find k (map_set k v m) = Some v.
Proof.
  induction m as [|[k' v'] m IH]; simpl.
  - rewrite String.eqb_refl. reflexivity.
  - destruct (String.eqb k k') eqn:E; simpl.
    + rewrite String.eqb_refl. reflexivity.
    + destruct (String.ltb k k'); simpl.
      * rewrite String.eqb_refl. reflexivity.
      * rewrite E. exact IH.
Qed.

Lemma map_find_set_ne k k0 v m :
  k0 <> k -> map_find k0 (map_set k v m) = map_find k0 m.
Proof.
  intros Hne. apply String.eqb_neq in Hne.
  induction m as [|[k' v'] m IH]; simpl.
  - rewrite Hne. reflexivity.
  - destruct (String.eqb k k') eqn:E; simpl.
    + apply String.eqb_eq in E. subst k'. rewrite Hne. reflexivity.
    + destruct (String.ltb k k'); simpl.
      * rewrite Hne. reflexivity.
      * rewrite IH. reflexivity.
Qed.

Lemma map_find_erase_eq k m : map_find k (map_erase k m) = None.
Proof.
  induction m as [|[k' v'] m IH]; simpl; [reflexivity|].
  destruct (String.eqb k k') eqn:E; simpl; [exact IH|].
  rewrite E. exact IH.
Qed.

Lemma map_find_erase_ne k k0 m :
  k0 <> k -> map_find k0 (map_erase k m) = map_find k0 m.
Proof.
  intros Hne.
  induction m as [|[k' v'] m IH]; simpl; [reflexivity|].
  destruct (String.eqb k k') eqn:E; simpl.
  - apply String.eqb_eq in E. subst k'.
    apply String.eqb_neq in Hne. rewrite Hne. exact IH.
  - rewrite IH. reflexivity.
Qed.
End StdMapFacts.

(** ** MessagePack on examples *)

Example msgpack_null : to_msgpack JNull = [xc0].
Proof. reflexivity. Qed.

Example msgpack_small_object :
  to_msgpack (JObj [("rid", JNum 300); ("x", JArr [JStr "a"; JNum (-5); JBool true])])
  = [x82; xa3; x72; x69; x64; xcd; x01; x2c; xa1; x78; x93; xa1; x61; xfb; xc3].
Proof. reflexivity. Qed.

Example msgpack_read_back :
  from_msgpack [x82; xa3; x72; x69; x64; xcd; x01; x2c; xa1; x78; x93; xa1; x61; xfb; xc3]
  = Ok (JObj [("rid", JNum 300); ("x", JArr [JStr "a"; JNum (-5); JBool true])]).
Proof. vm_compute. reflexivity. Qed.

(** ** The binary codec *)

Section Codec.
Import CodecEngineMinBin.

Lemma Z_of_byte_of_Z z : Z_of_byte (byte_of_Z z) = z mod 256.
Proof.
  unfold Z_of_byte, byte_of_Z.
  assert (Hr : 0 <= z mod 256 < 256) by (apply Z.mod_pos_bound; lia).
  destruct (Byte.of_N (Z.to_N (z mod 256))) as [b|] eqn:E.
  - apply Byte.to_of_N in E. rewrite E. lia.
  - apply Byte.of_N_None_iff in E. lia.
Qed.

Lemma wrap_int_small z : - 2 ^ 31 <= z < 2 ^ 31 -> wrap_int z = z.
Proof.
  intros H. unfold wrap_int.
  rewrite Z.mod_small; lia.
Qed.

Lemma wrap_uint64_small z : 0 <= z < 2 ^ 64 -> wrap_uint64 z = z.
Proof. intros H. unfold wrap_uint64. apply Z.mod_small. exact H. Qed.

Lemma wrap_uint32_small z : 0 <= z < 2 ^ 32 -> wrap_uint32 z = z.
Proof. intros H. unfold wrap_uint32. apply Z.mod_small. exact H. Qed.

(** The encoding of an object never starts with the byte of nil. *)
Lemma to_msgpack_object_lead m :
  ∃ b rest, to_msgpack (JObj m) = b :: rest ∧ Z_of_byte b ≠ 192.
Proof.
  cbn [to_msgpack]. unfold msgpack_header.
  destruct (Z.of_nat (length m) <=? 15) eqn:E15.
  - eexists _, _. split; [reflexivity|].
    rewrite Z_of_byte_of_Z. apply Z.leb_le in E15.
    rewrite Z.mod_small; lia.
  - destruct (Z.of_nat (length m) <=? 65535);
      (eexists _, _; split; [reflexivity|]); rewrite Z_of_byte_of_Z;
      vm_compute; discriminate.
Qed.

Lemma to_msgpack_object_not_nil m : to_msgpack (JObj m) ≠ to_msgpack JNull.
Proof.
  destruct (to_msgpack_object_lead m) as (b & rest & -> & Hb).
  intros H. injection H as Hhead _. subst b.
  apply Hb. vm_compute. reflexivity.
Qed.

(** An object without the members [e], [p] and [r] is left alone by
    [decode]. *)
Lemma decompressSinglePacket_pass_through m :
  map_find "e" m = None -> map_find "p" m = None -> map_find "r" m = None ->
  decompressSinglePacket (JObj m) = Ok (JObj m).
Proof.
  intros He Hp Hr.
  unfold decompressSinglePacket, decompressEmitPacket, decompressPublishPacket,
    decompressResponsePacket, json_at.
  rewrite He. cbn. rewrite Hp. cbn. rewrite Hr. reflexivity.
Qed.

(** C9. For every JSON object whose [event] member is absent or the
    empty string and whose [rid] member is absent or zero,
    [CodecEngineMinBin::encode] returns the MessagePack encoding of null:
    the object is discarded.  So encoding does not pass such an object
    through (the result differs from the encoding of the object), while
    decoding leaves an object with none of the members [e], [p], [r]
    unchanged. *)
Theorem encode_discards_unshaped_object (m : list (string * json)) :
  (map_find "event" m = None ∨ map_find "event" m = Some (JStr "")) ->
  (map_find "rid" m = None ∨ map_find "rid" m = Some (JNum 0)) ->
  encode (JObj m) = Ok (string_of_list_byte (to_msgpack JNull)) ∧
  encode (JObj m) ≠ Ok (string_of_list_byte (to_msgpack (JObj m))) ∧
  (map_find "e" m = None -> map_find "p" m = None -> map_find "r" m = None ->
   decode_json (JObj m) = Ok (JObj m)).
Proof.
  intros Hev Hrid.
  assert (Henc : encode (JObj m) = Ok (string_of_list_byte (to_msgpack JNull))).
  { unfold encode, encode_json, value_string, value_int, json_value.
    destruct Hev as [-> | ->]; destruct Hrid as [-> | ->]; reflexivity. }
  split; [exact Henc|]. split.
  - rewrite Henc. intros H. injection H as H.
    apply (f_equal list_byte_of_string) in H.
    rewrite !list_byte_of_string_of_list_byte in H.
    symmetry in H. exact (to_msgpack_object_not_nil m H).
  - intros He Hp Hr. cbn [decode_json].
    apply decompressSinglePacket_pass_through; assumption.
Qed.

Lemma encode_discards_unshaped_object_witness :
  encode (JObj [("foo", JNum 1)]) = Ok (string_of_list_byte (to_msgpack JNull)) ∧
  encode (JObj [("foo", JNum 1)])
    ≠ Ok (string_of_list_byte (to_msgpack (JObj [("foo", JNum 1)]))) ∧
  (map_find "e" [("foo", JNum 1)] = None ->
   map_find "p" [("foo", JNum 1)] = None ->
   map_find "r" [("foo", JNum 1)] = None ->
   decode_json (JObj [("foo", JNum 1)]) = Ok (JObj [("foo", JNum 1)])).
Proof.
  apply (encode_discards_unshaped_object [("foo", JNum 1)]);
    left; reflexivity.
Defined.

(** The same object, on the wire: its own encoding decodes to itself. *)
Example decode_passes_unshaped_object_through :
  decode (string_of_list_byte (to_msgpack (JObj [("foo", JNum 1)])))
  = Ok (JObj [("foo", JNum 1)]).
Proof. vm_compute. reflexivity. Qed.

(** C3. The codec does not round-trip a [#publish] packet:
    [compressPublishPacket] stores the event name where
    [decompressPublishPacket] reads the channel.  Whatever the channel of
    the packet was, the decoded packet names the channel "#publish"; so a
    packet published on any other channel does not come back. *)
Theorem publish_round_trip_replaces_channel (channel : string) (inner : json) :
  channel ≠ "#publish" ->
  Spec.round_trip (Spec.publish_packet channel inner)
  = Ok (Spec.publish_packet "#publish" inner) ∧
  Spec.round_trip (Spec.publish_packet channel inner)
  ≠ Ok (Spec.publish_packet channel inner).
Proof.
  intros Hch.
  assert (E : Spec.round_trip (Spec.publish_packet channel inner)
              = Ok (Spec.publish_packet "#publish" inner)) by reflexivity.
  split; [exact E|].
  rewrite E. unfold Spec.publish_packet. intros H.
  injection H as H. apply Hch. symmetry. exact H.
Qed.

Lemma publish_round_trip_replaces_channel_witness :
  Spec.round_trip (Spec.publish_packet "room" (JObj [("msg", JStr "hi")]))
  = Ok (Spec.publish_packet "#publish" (JObj [("msg", JStr "hi")])) ∧
  Spec.round_trip (Spec.publish_packet "room" (JObj [("msg", JStr "hi")]))
  ≠ Ok (Spec.publish_packet "room" (JObj [("msg", JStr "hi")])).
Proof.
  apply (publish_round_trip_replaces_channel "room" (JObj [("msg", JStr "hi")])).
  discriminate.
Defined.

(** The failing packet of C3 through [encode] and [decode], bytes
    included. *)
Example publish_room_over_the_wire :
  (buf ← encode (Spec.publish_packet "room" (JObj [("msg", JStr "hi")])); decode buf)
  = Ok (Spec.publish_packet "#publish" (JObj [("msg", JStr "hi")])).
Proof. vm_compute. reflexivity. Qed.

(** The other two shapes of C3 do come back.  An emit packet with a call
    id that fits [int]: *)
Lemma emit_round_trip (event : string) (d : json) (cid : Z) :
  event ≠ "" -> event ≠ "#publish" -> 0 < cid < 2 ^ 31 ->
  Spec.round_trip (Spec.emit_packet event d cid) = Ok (Spec.emit_packet event d cid).
Proof.
  intros Hne Hnp Hcid.
  assert (E1 : String.eqb "" event = false) by (apply String.eqb_neq; congruence).
  assert (E2 : String.eqb "#publish" event = false) by (apply String.eqb_neq; congruence).
  unfold Spec.round_trip, Spec.emit_packet, encode_json, compressSinglePacket,
    compressPublishPacket, compressEmitPacket, compressResponsePacket.
  cbn [value_string json_value map_find String.eqb Ascii.eqb Bool.eqb get_string
       json_at mbind outcome_bind obind catch_oor negb].
  rewrite E1, E2.
  cbn [value_int json_value map_find String.eqb Ascii.eqb Bool.eqb get_int
       json_at mbind outcome_bind obind catch_oor negb].
  rewrite (wrap_int_small cid) by lia.
  unfold CallId_of_int. rewrite (wrap_uint64_small cid) by lia.
  unfold with_cid.
  assert (E3 : (cid =? 0) = false) by (apply Z.eqb_neq; lia).
  rewrite E3. reflexivity.
Qed.

(** A response packet with its three members; members that are null are
    not restored. *)
Lemma response_round_trip (rid : Z) (error d : json) :
  0 < rid < 2 ^ 31 ->
  Spec.round_trip (Spec.response_packet rid error d)
  = Ok (Spec.drop_null_members (Spec.response_packet rid error d)).
Proof.
  intros Hrid.
  unfold Spec.round_trip, Spec.response_packet, encode_json, compressSinglePacket,
    compressPublishPacket, compressEmitPacket, compressResponsePacket.
  cbn [value_string value_int json_value map_find String.eqb Ascii.eqb Bool.eqb
       get_string get_int get_CallId json_at mbind outcome_bind obind catch_oor negb].
  rewrite (wrap_int_small rid) by lia.
  rewrite (wrap_uint64_small rid) by lia.
  assert (E3 : (rid =? 0) = false) by (apply Z.eqb_neq; lia).
  rewrite E3.
  destruct error, d; reflexivity.
Qed.

End Codec.

(** ** Inbound classification *)

Section Classification.
Import SCSocket.
Context `{L : !Library}.

Lemma getEventType_event (payload : list (string * json)) (e : string) :
  map_find "event" payload = Some (JStr e) ->
  getEventType (JObj payload) = Ok (Spec.classify payload).
Proof.
  intros He. unfold getEventType, Spec.classify, json_at. rewrite He. cbn.
  rewrite (String.eqb_sym "#publish" e), (String.eqb_sym "#removeAuthToken" e),
    (String.eqb_sym "#setAuthToken" e).
  destruct (String.eqb e "#publish"); [reflexivity|].
  destruct (String.eqb e "#removeAuthToken"); [reflexivity|].
  destruct (String.eqb e "#setAuthToken"); reflexivity.
Qed.

Lemma getEventType_no_event (payload : list (string * json)) :
  map_find "event" payload = None ->
  getEventType (JObj payload)
  = (rid ← value_int "rid" (JObj payload);
     if 1 =? rid then Ok IS_AUTHENTICATED else Ok ACK_RECEIVE).
Proof.
  intros He. unfold getEventType, json_at. rewrite He. reflexivity.
Qed.

Lemma classify_rid (z : Z) :
  match JNum z with
  | JNum 1 => IS_AUTHENTICATED
  | _ => ACK_RECEIVE
  end = if 1 =? z then IS_AUTHENTICATED else ACK_RECEIVE.
Proof. destruct z as [|[p|p|]|p]; reflexivity. Qed.

(** C5, amended.  For every decoded object whose [event] member, when
    present, is a string, and whose [rid] member, when it is read, is an
    integer that fits [int], the classification is the table of the
    specification: "#publish" gives PUBLISH, "#removeAuthToken" gives
    REMOVE_TOKEN, "#setAuthToken" gives SET_TOKEN, any other event gives
    EVENT; without an event, rid 1 gives IS_AUTHENTICATED and anything
    else ACK_RECEIVE.  A packet classified IS_AUTHENTICATED fires the
    connect event with the whole payload before the write pump resumes. *)
Theorem classification_of_well_typed_packet (payload : list (string * json)) (s : t) :
  Spec.well_typed_packet payload ->
  getEventType (JObj payload) = Ok (Spec.classify payload) ∧
  (Spec.classify payload = IS_AUTHENTICATED ->
   handlePayload (JObj payload) s
   = ioPumpWrite (triggerEvent (ConnectEvent (JObj payload)) s)).
Proof.
  intros Hwt.
  assert (Hc : getEventType (JObj payload) = Ok (Spec.classify payload)).
  { unfold Spec.well_typed_packet in Hwt.
    destruct (map_find "event" payload) as [ev|] eqn:He.
    - destruct ev; try contradiction. eapply getEventType_event. exact He.
    - rewrite (getEventType_no_event _ He).
      unfold Spec.classify, value_int, json_value. rewrite He.
      destruct (map_find "rid" payload) as [r|] eqn:Hr; [|reflexivity].
      destruct r; try contradiction.
      cbn [get_int mbind outcome_bind obind].
      rewrite (wrap_int_small z Hwt), (classify_rid z).
      destruct (1 =? z); reflexivity. }
  split; [exact Hc|].
  intros Hauth. unfold handlePayload. rewrite Hc, Hauth. reflexivity.
Qed.

(** C5 as stated fails outside those types: an [rid] of 2^32 + 1 is read
    as the [int] 1 and classified IS_AUTHENTICATED, and an [event] that
    is not a string makes [getEventType] throw. *)
Lemma classification_counterexample :
  ¬ Spec.classification_as_stated [("rid", JNum 4294967297)] ∧
  ¬ Spec.classification_as_stated [("event", JNum 5)].
Proof.
  split; unfold Spec.classification_as_stated; vm_compute; discriminate.
Qed.

End Classification.

Lemma classification_of_well_typed_packet_witness :
  SCSocket.getEventType (JObj [("data", JObj [("id", JStr "abc")]); ("rid", JNum 1)])
  = Ok SCSocket.IS_AUTHENTICATED.
Proof.
  exact (proj1 (classification_of_well_typed_packet (L := Scenario.library)
                  [("data", JObj [("id", JStr "abc")]); ("rid", JNum 1)]
                  (SCSocket.make Scenario.options)
                  ltac:(vm_compute; split; [discriminate | reflexivity]))).
Defined.

(** ** Channel subscription *)

Section Channels.
Import SCSocket.

Lemma getState_update_eq ch f c s :
  channels s !! ch = Some c ->
  getState ch (update_channel ch f s) = SCChannel.m_state (f c).
Proof.
  intros Hc. unfold getState, update_channel. cbn [channels set_channel_objects].
  rewrite list_lookup_alter_eq, Hc. reflexivity.
Qed.

Lemma getState_update_ne ch ch' f s :
  ch ≠ ch' -> getState ch' (update_channel ch f s) = getState ch' s.
Proof.
  intros Hne. unfold getState, update_channel. cbn [channels set_channel_objects].
  rewrite list_lookup_alter_ne by exact Hne. reflexivity.
Qed.

Lemma getName_update ch ch' f s :
  (∀ c, SCChannel.m_name (f c) = SCChannel.m_name c) ->
  getName ch' (update_channel ch f s) = getName ch' s.
Proof.
  intros Hf. unfold getName, update_channel. cbn [channels set_channel_objects].
  destruct (decide (ch = ch')) as [->|Hne].
  - rewrite list_lookup_alter_eq. destruct (channels s !! ch'); cbn; [apply Hf|reflexivity].
  - rewrite list_lookup_alter_ne by exact Hne. reflexivity.
Qed.

Lemma is_OPEN_true st : is_OPEN st = true <-> st = OPEN.
Proof. destruct st; cbn; split; congruence. Qed.

Lemma getAuthState_AUTHENTICATED s :
  getAuthState s = AUTHENTICATED <-> m_signedAuthToken s ≠ "".
Proof.
  unfold getAuthState.
  destruct (String.eqb_spec (m_signedAuthToken s) "") as [E|E].
  - split; [discriminate | intros H; contradiction].
  - split; [intros _; exact E | reflexivity].
Qed.

(** The boolean test of [tryChannelSubscribe] is the gate of the
    specification. *)
Lemma gate_true opts s :
  is_OPEN (m_state s) && meetsRequirements opts s = true <-> Spec.subscribe_gate opts s.
Proof.
  unfold Spec.subscribe_gate, meetsRequirements.
  rewrite andb_true_iff, orb_true_iff, negb_true_iff, is_OPEN_true.
  destruct (getAuthState s); cbn; intuition congruence.
Qed.

Lemma gate_false opts s :
  is_OPEN (m_state s) && meetsRequirements opts s = false <-> ¬ Spec.subscribe_gate opts s.
Proof.
  rewrite <- gate_true. destruct (is_OPEN (m_state s) && meetsRequirements opts s);
    split; congruence.
Qed.

Lemma emit_enqueues eventName d h noTimeout s :
  m_outQueue (emit eventName d (Some h) noTimeout s)
  = m_outQueue s ++ [JObj [("cid", JNum (m_nextCallId s)); ("data", d);
                           ("event", JStr eventName)]].
Proof. reflexivity. Qed.

Lemma tryChannelSubscribe_open channel opts s :
  Spec.subscribe_gate opts s ->
  Spec.enqueues_subscribe s (tryChannelSubscribe channel opts s) ∧
  channels (tryChannelSubscribe channel opts s) = channels s.
Proof.
  intros Hg. apply gate_true in Hg. unfold tryChannelSubscribe. rewrite Hg.
  split; [|reflexivity].
  eexists. rewrite emit_enqueues. split; reflexivity.
Qed.

Lemma tryChannelSubscribe_shut channel opts s :
  ¬ Spec.subscribe_gate opts s -> tryChannelSubscribe channel opts s = s.
Proof.
  intros Hg. apply gate_false in Hg. unfold tryChannelSubscribe. rewrite Hg.
  reflexivity.
Qed.

Lemma not_enqueued s : ¬ Spec.enqueues_subscribe s s.
Proof.
  intros (pkt & Hq & _). apply (f_equal length) in Hq.
  rewrite length_app in Hq. cbn in Hq. lia.
Qed.

Lemma tryChannelSubscribe_iff channel opts s :
  Spec.enqueues_subscribe s (tryChannelSubscribe channel opts s)
  <-> Spec.subscribe_gate opts s.
Proof.
  split.
  - intros He. destruct (is_OPEN (m_state s) && meetsRequirements opts s) eqn:G.
    + apply gate_true. exact G.
    + apply gate_false in G. rewrite (tryChannelSubscribe_shut _ _ _ G) in He.
      destruct (not_enqueued s He).
  - intros Hg. apply tryChannelSubscribe_open. exact Hg.
Qed.

(** [subscribe] once the channel object is known: [s1] is the socket with
    the channel found or created, still UNSUBSCRIBED. *)
Lemma subscribe_pending channel opts c s s1 :
  channels s1 !! channel = Some c ->
  SCChannel.m_state c = UNSUBSCRIBED ->
  m_outQueue s1 = m_outQueue s ->
  (Spec.subscribe_gate opts s1 <-> Spec.subscribe_gate opts s) ->
  let s2 := update_channel channel (SCChannel.set_state PENDING) s1 in
  let s3 := tryChannelSubscribe channel opts s2 in
  getState channel s3 = PENDING ∧
  (Spec.enqueues_subscribe s s3 <-> Spec.subscribe_gate opts s) ∧
  (¬ Spec.subscribe_gate opts s -> m_outQueue s3 = m_outQueue s).
Proof.
  intros Hc Hst Hq Hg s2 s3.
  assert (Hp : getState channel s2 = PENDING)
    by (unfold s2; rewrite (getState_update_eq _ _ c) by exact Hc; reflexivity).
  assert (Hg2 : Spec.subscribe_gate opts s2 <-> Spec.subscribe_gate opts s)
    by (rewrite <- Hg; reflexivity).
  assert (Hq2 : m_outQueue s2 = m_outQueue s) by exact Hq.
  assert (He : Spec.enqueues_subscribe s s3 <-> Spec.enqueues_subscribe s2 s3)
    by (unfold Spec.enqueues_subscribe; rewrite Hq2; reflexivity).
  split; [|split].
  - unfold s3, tryChannelSubscribe.
    destruct (is_OPEN (m_state s2) && meetsRequirements opts s2); exact Hp.
  - rewrite He, <- Hg2. apply tryChannelSubscribe_iff.
  - intros Hn. unfold s3. rewrite tryChannelSubscribe_shut; [exact Hq2|].
    rewrite Hg2. exact Hn.
Qed.

(** C6. For every channel and subscription options, a [#subscribe]
    packet is put on the egress queue if and only if the socket is OPEN
    and ([waitForAuth] is false or the auth state is AUTHENTICATED, that
    is, the signed auth token is not empty).  When the gate is not met
    [tryChannelSubscribe] changes nothing; [subscribe] of a channel that is
    new or UNSUBSCRIBED leaves it PENDING either way, and enqueues nothing
    when the gate is not met. *)
Theorem subscribe_sent_iff_gate (channel : SCChannelPtr)
    (opts : ChannelSubscriptionOptions) (s : t) :
  (getAuthState s = AUTHENTICATED <-> m_signedAuthToken s ≠ "") ∧
  (Spec.enqueues_subscribe s (tryChannelSubscribe channel opts s)
   <-> Spec.subscribe_gate opts s) ∧
  (¬ Spec.subscribe_gate opts s -> tryChannelSubscribe channel opts s = s) ∧
  (∀ nm,
     (∀ ch, map_find nm (m_channels s) = Some ch ->
            ∃ c, channels s !! ch = Some c ∧ SCChannel.m_state c = UNSUBSCRIBED) ->
     let r := subscribe nm opts s in
     getState (fst r) (snd r) = PENDING ∧
     (Spec.enqueues_subscribe s (snd r) <-> Spec.subscribe_gate opts s) ∧
     (¬ Spec.subscribe_gate opts s -> m_outQueue (snd r) = m_outQueue s)).
Proof.
  split; [apply getAuthState_AUTHENTICATED|].
  split; [apply tryChannelSubscribe_iff|].
  split; [apply tryChannelSubscribe_shut|].
  intros nm Hreg. unfold subscribe.
  destruct (map_find nm (m_channels s)) as [ch|] eqn:Hfind.
  - destruct (Hreg ch eq_refl) as (c & Hc & Hst).
    assert (Hu : getState ch s = UNSUBSCRIBED) by (unfold getState; rewrite Hc; exact Hst).
    rewrite Hu. cbn [is_UNSUBSCRIBED fst snd].
    apply (subscribe_pending ch opts c s s Hc Hst eq_refl). reflexivity.
  - set (ch := length (channels s)).
    set (s1 := set_channels _ _).
    assert (Hc : channels s1 !! ch = Some (SCChannel.make nm)).
    { unfold s1, ch. cbn. rewrite lookup_app_r by lia.
      rewrite Nat.sub_diag. reflexivity. }
    assert (Hu : getState ch s1 = UNSUBSCRIBED) by (unfold getState; rewrite Hc; reflexivity).
    rewrite Hu. cbn [is_UNSUBSCRIBED fst snd].
    apply (subscribe_pending ch opts (SCChannel.make nm) s s1 Hc eq_refl eq_refl).
    reflexivity.
Qed.

Lemma subscribe_sent_iff_gate_witness :
  let s := set_state OPEN (make default_ConnectOptions) in
  let opts := {| waitForAuth := true; data := JNull |} in
  ¬ Spec.subscribe_gate opts s ∧
  tryChannelSubscribe 0%nat opts s = s ∧
  getState (fst (subscribe "room" opts s)) (snd (subscribe "room" opts s)) = PENDING ∧
  m_outQueue (snd (subscribe "room" opts s)) = [].
Proof.
  intros s opts.
  assert (Hn : ¬ Spec.subscribe_gate opts s).
  { intros [_ [H|H]]; discriminate H. }
  destruct (subscribe_sent_iff_gate 0%nat opts s) as (_ & _ & Htry & Hsub).
  destruct (Hsub "room") as (Hp & _ & Hq).
  { intros ch Hf. discriminate Hf. }
  split; [exact Hn|]. split; [exact (Htry Hn)|]. split; [exact Hp|]. exact (Hq Hn).
Defined.

(** C10. For every channel name that is not in the registry,
    [unsubscribe], [destroyChannel] and both [unwatch] overloads leave the
    socket as it is: registry, egress queue, pending responses, next call
    id, connection state, tokens and trace are all unchanged, so nothing is
    sent and no event fires. *)
Theorem unknown_channel_no_op (channelName : string) (s : t) :
  map_find channelName (m_channels s) = None ->
  unsubscribe channelName s = s ∧
  destroyChannel channelName s = s ∧
  unwatch channelName s = s ∧
  (∀ conn, unwatch_connection channelName conn s = s).
Proof.
  intros Hnone.
  unfold unsubscribe, destroyChannel, unwatch, unwatch_connection.
  rewrite Hnone. repeat split.
Qed.

Lemma unknown_channel_no_op_witness :
  map_find "lobby" (m_channels Scenario.with_three_channels) = None ∧
  unsubscribe "lobby" Scenario.with_three_channels = Scenario.with_three_channels ∧
  destroyChannel "lobby" Scenario.with_three_channels = Scenario.with_three_channels.
Proof.
  assert (H : map_find "lobby" (m_channels Scenario.with_three_channels) = None)
    by reflexivity.
  destruct (unknown_channel_no_op "lobby" Scenario.with_three_channels H)
    as (Hu & Hd & _).
  split; [exact H|]. split; [exact Hu | exact Hd].
Defined.

End Channels.

(** ** Pending responses *)

Section PendingResponses.
Import SCSocket.
Context `{L : !Library}.

Lemma emit_registers eventName d h noTimeout s :
  m_pendingResponses (emit eventName d (Some h) noTimeout s) !! m_nextCallId s
  = Some {| handler := h; ackTimer := if noTimeout then None else Some TimerWaiting |}.
Proof. unfold emit. cbn. apply lookup_insert_eq. Qed.

(** What [handleEmitAckTimeout] does for an entry held by a user handler. *)
Lemma handleEmitAckTimeout_user cid id tm s :
  m_pendingResponses s !! cid = Some {| handler := UserHandler id; ackTimer := tm |} ->
  handleEmitAckTimeout cid s
  = act [Handler id (ec_scio ack_timeout)
           (JObj [("error", JObj [("message", JStr (ackTimeoutErrMsg cid))])])]
        (set_pendingResponses (delete cid (m_pendingResponses s)) s).
Proof. intros H. unfold handleEmitAckTimeout. rewrite H. reflexivity. Qed.

Lemma handleEmitAckTimeout_absent cid s :
  m_pendingResponses s !! cid = None -> handleEmitAckTimeout cid s = s.
Proof. intros H. unfold handleEmitAckTimeout. rewrite H. reflexivity. Qed.

Lemma ackTimerExpires_absent cid s :
  m_pendingResponses s !! cid = None -> ackTimerExpires cid s = s.
Proof. intros H. unfold ackTimerExpires. rewrite H. reflexivity. Qed.

(** C4, amended.  For every emit with a handler and [noTimeout = false]
    whose entry is still as [emit] left it when the ack timer expires (no
    response came in between), the entry is removed from the table of
    pending responses and the handler is called exactly once, with the
    [ack_timeout] error and the payload
    [{error: {message: "no ack for call id (cid) <cid>"}}], [<cid>] being
    the call id in decimal; a second expiry or a later call of
    [handleEmitAckTimeout] for that call id does nothing. *)
Theorem ack_timeout_dispatch (s s' : t) (eventName : string) (d : json) (id : nat) :
  let cid := m_nextCallId s in
  m_pendingResponses s' !! cid
  = m_pendingResponses (emit eventName d (Some (UserHandler id)) false s) !! cid ->
  let s'' := ackTimerExpires cid s' in
  m_pendingResponses s'' = delete cid (m_pendingResponses s') ∧
  m_pendingResponses s'' !! cid = None ∧
  m_trace s'' =
    m_trace s' ++
    [Handler id (ec_scio ack_timeout)
       (JObj [("error",
               JObj [("message", JStr ("no ack for call id (cid) " ++ dec cid)%string)])])] ∧
  ackTimerExpires cid s'' = s'' ∧
  handleEmitAckTimeout cid s'' = s''.
Proof.
  intros cid Hentry s''.
  pose proof (emit_registers eventName d (UserHandler id) false s) as Hreg.
  fold cid in Hreg. rewrite Hreg in Hentry. clear Hreg. cbn in Hentry.
  assert (Hs : s'' = act [Handler id (ec_scio ack_timeout)
                            (JObj [("error", JObj [("message", JStr (ackTimeoutErrMsg cid))])])]
                         (set_pendingResponses (delete cid (m_pendingResponses s')) s')).
  { unfold s'', ackTimerExpires. rewrite Hentry. unfold ackTimerHandler.
    cbn [ec_failed]. apply (handleEmitAckTimeout_user cid id _ s' Hentry). }
  assert (Hgone : m_pendingResponses s'' !! cid = None).
  { rewrite Hs. cbn. apply lookup_delete_eq. }
  split; [rewrite Hs; reflexivity|].
  split; [exact Hgone|].
  split; [rewrite Hs; reflexivity|].
  split; [apply ackTimerExpires_absent | apply handleEmitAckTimeout_absent]; exact Hgone.
Qed.

Lemma ack_timeout_dispatch_witness :
  let s := set_nextCallId 2 (set_state OPEN (make default_ConnectOptions)) in
  let s' := emit "slow" JNull (Some (UserHandler Scenario.user_handler)) false s in
  m_trace (ackTimerExpires 2 s') =
    [Handler Scenario.user_handler (ec_scio ack_timeout)
       (JObj [("error", JObj [("message", JStr "no ack for call id (cid) 2")])])].
Proof.
  intros s s'.
  exact (proj1 (proj2 (proj2
    (ack_timeout_dispatch s s' "slow" JNull Scenario.user_handler eq_refl)))).
Defined.

(** C4 as stated fails on the text of the message: for call id 2 it is
    "no ack for call id (cid) 2", not "no ack for call id 2". *)
Lemma ack_timeout_message_counterexample :
  ¬ Spec.ack_timeout_as_stated 2 Scenario.user_handler Scenario.with_pending_channel.
Proof.
  unfold Spec.ack_timeout_as_stated. intros [_ H].
  vm_compute in H. discriminate H.
Qed.

Lemma cancel_ackTimer_lookup rid it s :
  m_pendingResponses s !! rid = Some it ->
  m_pendingResponses (cancel_ackTimer rid s) !! rid
  = Some {| handler := handler it;
            ackTimer := match ackTimer it with
                        | Some _ => Some TimerCancelled
                        | None => None
                        end |}.
Proof.
  intros H. unfold cancel_ackTimer. cbn [m_pendingResponses set_pendingResponses].
  rewrite lookup_alter_eq, H. reflexivity.
Qed.

(** A response without an [error] member, for a call held by a user
    handler: the handler is called, and the entry stays in the table with
    its timer cancelled. *)
Lemma onAckReceive_user (s : t) (rid : Z) (id : nat) (tm : option TimerState) (d : json) :
  0 <= rid < 2 ^ 31 ->
  m_pendingResponses s !! rid = Some {| handler := UserHandler id; ackTimer := tm |} ->
  onAckReceive (JObj [("data", d); ("rid", JNum rid)]) s
  = Ok (act [Handler id ec_success d] (cancel_ackTimer rid s)).
Proof.
  intros Hrid Hentry. unfold onAckReceive. json_cbn.
  rewrite (wrap_int_small rid) by lia.
  unfold CallId_of_int. rewrite (wrap_uint64_small rid) by lia.
  rewrite Hentry. reflexivity.
Qed.

(** C1.  The entry of a call is not removed when its response is
    received: after a response with a given [rid] has been dispatched the
    entry is still in the table, and a second inbound packet with the same
    [rid] calls the handler again. *)
Theorem duplicate_response_invokes_handler_again (s : t) (rid : Z) (id : nat)
    (tm : option TimerState) (d : json) :
  1 < rid < 2 ^ 31 ->
  m_pendingResponses s !! rid = Some {| handler := UserHandler id; ackTimer := tm |} ->
  let payload := JObj [("data", d); ("rid", JNum rid)] in
  getEventType payload = Ok ACK_RECEIVE ∧
  ∃ s1 s2,
    dispatch ACK_RECEIVE payload s = Ok s1 ∧
    dispatch ACK_RECEIVE payload s1 = Ok s2 ∧
    is_Some (m_pendingResponses s1 !! rid) ∧
    is_Some (m_pendingResponses s2 !! rid) ∧
    m_trace s2 = m_trace s ++ [Handler id ec_success d; Handler id ec_success d].
Proof.
  intros Hrid Hentry payload.
  split.
  - unfold payload, getEventType. json_cbn.
    rewrite (wrap_int_small rid) by lia.
    destruct (Z.eqb_spec 1 rid); [lia | reflexivity].
  - set (s1 := act [Handler id ec_success d] (cancel_ackTimer rid s)).
    assert (H1 : m_pendingResponses s1 !! rid
                 = Some {| handler := UserHandler id;
                           ackTimer := match tm with
                                       | Some _ => Some TimerCancelled
                                       | None => None
                                       end |})
      by (exact (cancel_ackTimer_lookup rid _ s Hentry)).
    set (s2 := act [Handler id ec_success d] (cancel_ackTimer rid s1)).
    exists s1, s2. cbn [dispatch].
    split; [apply (onAckReceive_user s rid id tm d); [lia | exact Hentry]|].
    split; [eapply (onAckReceive_user s1 rid id); [lia | exact H1]|].
    split; [rewrite H1; eexists; reflexivity|].
    split.
    + unfold s2. cbn [act m_pendingResponses set_trace].
      rewrite (cancel_ackTimer_lookup rid _ s1 H1). eexists; reflexivity.
    + unfold s2, s1. cbn. rewrite <- app_assoc. reflexivity.
Qed.

End PendingResponses.

Lemma duplicate_response_invokes_handler_again_witness :
  let payload := JObj [("data", JObj [("ok", JBool true)]); ("rid", JNum 2)] in
  SCSocket.getEventType payload = Ok SCSocket.ACK_RECEIVE ∧
  ∃ s1 s2,
    SCSocket.dispatch (L := Scenario.library) SCSocket.ACK_RECEIVE payload
      Scenario.with_pending_channel = Ok s1 ∧
    SCSocket.dispatch (L := Scenario.library) SCSocket.ACK_RECEIVE payload s1 = Ok s2 ∧
    is_Some (SCSocket.m_pendingResponses s1 !! 2) ∧
    is_Some (SCSocket.m_pendingResponses s2 !! 2) ∧
    SCSocket.m_trace s2 =
      SCSocket.m_trace Scenario.with_pending_channel ++
      [SCSocket.Handler Scenario.user_handler ec_success (JObj [("ok", JBool true)]);
       SCSocket.Handler Scenario.user_handler ec_success (JObj [("ok", JBool true)])].
Proof.
  apply (duplicate_response_invokes_handler_again (L := Scenario.library)
           Scenario.with_pending_channel 2
           Scenario.user_handler (Some TimerWaiting) (JObj [("ok", JBool true)])).
  - lia.
  - reflexivity.
Defined.

(** Scenario 2 of the specification run twice over: the emit of "foo"
    after the handshake gets call id 2, and the reply [{rid:2,
    data:{ok:true}}], read from the transport twice, reaches the handler
    twice. *)
Example reply_read_twice :
  (s ← Scenario.replied_twice; Ok (Scenario.handler_calls (SCSocket.m_trace s)))
  = Ok [(Scenario.user_handler, ec_success, JObj [("ok", JBool true)]);
        (Scenario.user_handler, ec_success, JObj [("ok", JBool true)])].
Proof. vm_compute. reflexivity. Qed.

(** ** Closing *)

Section Closing.
Import SCSocket.

Lemma suspended_idem st : suspended (suspended st) = suspended st.
Proof. destruct st; reflexivity. Qed.

Lemma triggerChannelUnsubscribe_frame ch new s :
  frame (triggerChannelUnsubscribe ch new s) = frame s.
Proof.
  unfold triggerChannelUnsubscribe.
  destruct (is_SUBSCRIBED (getState ch s)); reflexivity.
Qed.

Lemma triggerChannelUnsubscribe_channels ch new s :
  channels (triggerChannelUnsubscribe ch new s)
  = alter (SCChannel.set_state new) ch (channels s).
Proof.
  unfold triggerChannelUnsubscribe.
  destruct (is_SUBSCRIBED (getState ch s)); reflexivity.
Qed.

Lemma getName_channels ch s s' :
  channels s' !! ch = channels s !! ch -> getName ch s' = getName ch s.
Proof. intros H. unfold getName. rewrite H. reflexivity. Qed.

Lemma getState_channels ch s s' :
  channels s' !! ch = channels s !! ch -> getState ch s' = getState ch s.
Proof. intros H. unfold getState. rewrite H. reflexivity. Qed.

Lemma triggerChannelUnsubscribe_getName ch ch' new s :
  getName ch' (triggerChannelUnsubscribe ch new s) = getName ch' s.
Proof.
  unfold getName. rewrite triggerChannelUnsubscribe_channels.
  destruct (decide (ch = ch')) as [->|Hne].
  - rewrite list_lookup_alter_eq. destruct (channels s !! ch'); reflexivity.
  - rewrite list_lookup_alter_ne by exact Hne. reflexivity.
Qed.

Lemma triggerChannelUnsubscribe_other ch ch' new s :
  ch ≠ ch' ->
  channels (triggerChannelUnsubscribe ch new s) !! ch' = channels s !! ch'.
Proof.
  intros Hne. rewrite triggerChannelUnsubscribe_channels.
  apply list_lookup_alter_ne. exact Hne.
Qed.

(** Suspending one channel moves it to the suspended state of where it
    was. *)
Lemma triggerChannelUnsubscribe_suspended ch s :
  getState ch (triggerChannelUnsubscribe ch (suspended (getState ch s)) s)
  = suspended (getState ch s).
Proof.
  unfold getState at 1. rewrite triggerChannelUnsubscribe_channels.
  rewrite list_lookup_alter_eq. unfold getState.
  destruct (channels s !! ch); reflexivity.
Qed.

Lemma triggerChannelUnsubscribe_trace (nm : string) ch s :
  m_trace (triggerChannelUnsubscribe ch (suspended (getState ch s)) s)
  = m_trace s ++ Spec.suspend_events s (nm, ch).
Proof.
  unfold triggerChannelUnsubscribe, Spec.suspend_events, Spec.unsubscribe_events.
  cbn [snd].
  destruct (getState ch s) eqn:E; cbn [is_SUBSCRIBED suspended is_PENDING orb].
  - cbn. rewrite app_nil_r. reflexivity.
  - cbn. rewrite app_nil_r. reflexivity.
  - unfold cancelPendingSubscriberCallback, triggerEvent, channel_triggerEvent, act,
      getName, update_channel.
    cbn [m_trace set_trace channels set_channel_objects].
    rewrite !list_lookup_alter_eq, <- !app_assoc.
    destruct (channels s !! ch); reflexivity.
Qed.

Lemma suspend_events_ext (s s' : t) (l : list (string * nat)) :
  (∀ ch, ch ∈ map snd l -> channels s' !! ch = channels s !! ch) ->
  flat_map (Spec.suspend_events s') l = flat_map (Spec.suspend_events s) l.
Proof.
  induction l as [|[nm ch] l IH]; intros Hsame; [reflexivity|].
  cbn [flat_map]. f_equal.
  - unfold Spec.suspend_events. cbn [snd].
    assert (Hc : channels s' !! ch = channels s !! ch)
      by (apply Hsame; cbn; apply elem_of_cons; left; reflexivity).
    rewrite (getState_channels ch s s' Hc), (getName_channels ch s s' Hc).
    reflexivity.
  - apply IH. intros ch' Hin. apply Hsame. cbn. apply elem_of_cons. right. exact Hin.
Qed.

(** The loop of [suspendChannelSubscriptions] over a part [l] of the
    registry whose entries point to different channel objects. *)
Lemma suspend_loop (l : list (string * nat)) :
  ∀ s, NoDup (map snd l) ->
  let s' := fold_left
              (fun s (sub : string * nat) =>
                 triggerChannelUnsubscribe (snd sub) (suspended (getState (snd sub) s)) s)
              l s in
  frame s' = frame s ∧
  (∀ ch, ch ∈ map snd l -> getState ch s' = suspended (getState ch s)) ∧
  (∀ ch, ch ∉ map snd l -> channels s' !! ch = channels s !! ch) ∧
  m_trace s' = m_trace s ++ flat_map (Spec.suspend_events s) l.
Proof.
  induction l as [|[nm ch] l IH]; intros s Hnd.
  - cbn. rewrite app_nil_r. repeat split.
    intros ch Hin. apply elem_of_nil in Hin. destruct Hin.
  - cbn [map snd] in Hnd. apply NoDup_cons in Hnd as [Hfresh Hnd].
    cbn [fold_left snd].
    set (s1 := triggerChannelUnsubscribe ch (suspended (getState ch s)) s).
    destruct (IH s1 Hnd) as (Hframe & Hstates & Hothers & Htrace).
    split; [|split; [|split]].
    + rewrite Hframe. apply triggerChannelUnsubscribe_frame.
    + intros ch' Hin. cbn [map snd] in Hin. apply elem_of_cons in Hin as [->|Hin].
      * rewrite (getState_channels ch s1 _ (Hothers ch Hfresh)).
        apply triggerChannelUnsubscribe_suspended.
      * assert (Hne : ch ≠ ch') by (intros ->; exact (Hfresh Hin)).
        rewrite (Hstates ch' Hin). f_equal.
        apply getState_channels, triggerChannelUnsubscribe_other. exact Hne.
    + intros ch' Hnin. cbn [map snd] in Hnin.
      apply not_elem_of_cons in Hnin as [Hne Hnin].
      rewrite (Hothers ch' Hnin).
      apply triggerChannelUnsubscribe_other. congruence.
    + rewrite Htrace. unfold s1. rewrite (triggerChannelUnsubscribe_trace nm).
      cbn [flat_map snd]. rewrite <- app_assoc. f_equal. f_equal.
      apply suspend_events_ext. intros ch' Hin.
      apply triggerChannelUnsubscribe_other. intros ->. exact (Hfresh Hin).
Qed.

Lemma frame_eq s s' :
  frame s' = frame s ->
  m_state s' = m_state s ∧ m_outQueue s' = m_outQueue s ∧
  m_pendingResponses s' = m_pendingResponses s ∧ m_channels s' = m_channels s.
Proof. unfold frame. intros H. injection H as -> _ _ -> -> _ _ -> _ _ _. repeat split. Qed.

(** C2, amended.  When [internalClose] runs on a socket whose registry
    entries point to different channel objects: an OPEN socket becomes
    CLOSED; the egress queue is cleared; the table of pending responses
    is left as it is; the registry keeps its entries; every channel that
    was SUBSCRIBED or PENDING ends PENDING and every channel that was
    UNSUBSCRIBED stays UNSUBSCRIBED; and the subscription-state-change and
    unsubscribe events are fired, on the channel and on the socket, for
    exactly the channels that were SUBSCRIBED, in registry order, after the
    close frame. *)
Theorem internalClose_effect (code : close_code) (s : t) :
  NoDup (map snd (m_channels s)) ->
  let s' := internalClose code s in
  (m_state s = OPEN -> m_state s' = CLOSED) ∧
  m_outQueue s' = [] ∧
  m_pendingResponses s' = m_pendingResponses s ∧
  m_channels s' = m_channels s ∧
  (∀ nm ch, (nm, ch) ∈ m_channels s ->
     (getState ch s = SUBSCRIBED ∨ getState ch s = PENDING -> getState ch s' = PENDING) ∧
     (getState ch s = UNSUBSCRIBED -> getState ch s' = UNSUBSCRIBED)) ∧
  m_trace s' =
    m_trace s ++
    (if is_OPEN (m_state s) then [Transport (ws_close code)] else []) ++
    Spec.suspend_trace s.
Proof.
  intros Hnd s'.
  set (s2 := clearIoWriteQueue
               (if is_OPEN (m_state (resetPingTimer true s))
                then act [Transport (ws_close code)]
                       (set_state CLOSED (resetPingTimer true s))
                else resetPingTimer true s)).
  assert (Hs' : s' = suspendChannelSubscriptions s2) by reflexivity.
  assert (Hreg : m_channels s2 = m_channels s)
    by (unfold s2; destruct (is_OPEN (m_state (resetPingTimer true s))); reflexivity).
  assert (Hch : channels s2 = channels s)
    by (unfold s2; destruct (is_OPEN (m_state (resetPingTimer true s))); reflexivity).
  assert (Hq : m_outQueue s2 = []) by reflexivity.
  assert (Hp : m_pendingResponses s2 = m_pendingResponses s)
    by (unfold s2; destruct (is_OPEN (m_state (resetPingTimer true s))); reflexivity).
  assert (Hst : m_state s = OPEN -> m_state s2 = CLOSED)
    by (intros Ho; unfold s2; cbn; rewrite Ho; reflexivity).
  assert (Htr : m_trace s2 = m_trace s ++
                  (if is_OPEN (m_state s) then [Transport (ws_close code)] else [])).
  { unfold s2. cbn. destruct (is_OPEN (m_state s)); cbn; [reflexivity|].
    rewrite app_nil_r. reflexivity. }
  unfold suspendChannelSubscriptions in Hs'.
  assert (Hnd2 : NoDup (map snd (m_channels s2))) by (rewrite Hreg; exact Hnd).
  destruct (suspend_loop (m_channels s2) s2 Hnd2) as (Hframe & Hstates & _ & Htrace).
  rewrite <- Hs' in Hframe, Hstates, Htrace.
  apply frame_eq in Hframe as (Fst & Fq & Fp & Fc).
  split; [intros Ho; rewrite Fst; exact (Hst Ho)|].
  split; [rewrite Fq; exact Hq|].
  split; [rewrite Fp; exact Hp|].
  split; [rewrite Fc; exact Hreg|].
  split.
  - intros nm ch Hin.
    assert (Hin2 : ch ∈ map snd (m_channels s2)).
    { rewrite Hreg. apply list_elem_of_In. apply in_map_iff.
      exists (nm, ch). split; [reflexivity|]. apply list_elem_of_In. exact Hin. }
    rewrite (Hstates ch Hin2).
    assert (Hsame : getState ch s2 = getState ch s)
      by (unfold getState; rewrite Hch; reflexivity).
    rewrite Hsame. split.
    + intros [-> | ->]; reflexivity.
    + intros ->. reflexivity.
  - rewrite Htrace, Htr, <- app_assoc. f_equal. f_equal.
    unfold Spec.suspend_trace. rewrite Hreg.
    apply suspend_events_ext. intros ch _. rewrite Hch. reflexivity.
Qed.

Lemma internalClose_effect_witness :
  let s := Scenario.with_three_channels in
  let s' := internalClose close_normal s in
  m_state s' = CLOSED ∧ m_outQueue s' = [] ∧
  getState 0%nat s' = PENDING ∧ getState 1%nat s' = PENDING ∧
  getState 2%nat s' = UNSUBSCRIBED ∧
  m_trace s' =
    Transport (ws_close close_normal)
    :: Spec.unsubscribe_events 0%nat "a" SUBSCRIBED PENDING.
Proof.
  intros s s'.
  assert (Hnd : NoDup (map snd (m_channels s))).
  { compute_done. }
  destruct (internalClose_effect close_normal s Hnd) as (Hst & Hq & _ & _ & Hch & Htr).
  split; [exact (Hst eq_refl)|]. split; [exact Hq|].
  split; [apply (proj1 (Hch "a" 0%nat ltac:(cbn; rewrite !elem_of_cons; tauto)));
          left; reflexivity|].
  split; [apply (proj1 (Hch "b" 1%nat ltac:(cbn; rewrite !elem_of_cons; tauto)));
          right; reflexivity|].
  split; [apply (proj2 (Hch "c" 2%nat ltac:(cbn; rewrite !elem_of_cons; tauto)));
          reflexivity|].
  exact Htr.
Defined.

(** C2 as stated fails in two places: the pending call of the socket is
    still in the table after the close, and the channel that was PENDING
    gets no event (the only thing traced is the close frame). *)
Lemma closed_counterexample :
  let s := Scenario.with_pending_channel in
  let s' := internalClose close_normal s in
  is_Some (m_pendingResponses s' !! 2) ∧
  getState 0%nat s = PENDING ∧
  Spec.new_trace s s' = [Transport (ws_close close_normal)] ∧
  ¬ Spec.closed_as_stated s s'.
Proof.
  intros s s'.
  assert (Hp : is_Some (m_pendingResponses s' !! 2)) by (eexists; reflexivity).
  split; [exact Hp|]. split; [reflexivity|]. split; [reflexivity|].
  intros (_ & Hempty & _). rewrite Hempty, lookup_empty in Hp.
  destruct Hp as [x Hx]. discriminate Hx.
Qed.

(** The public [close] only changes the connection state and asks the
    transport to close: queue, pending responses and channels stay. *)
Lemma close_keeps_queue_and_channels s :
  m_state (close s) = CLOSED ∧ m_outQueue (close s) = m_outQueue s ∧
  m_pendingResponses (close s) = m_pendingResponses s ∧
  channels (close s) = channels s.
Proof. repeat split. Qed.

End Closing.

(** ** Auth tokens *)

Section SetToken.
Import SCSocket.
Context `{L : !Library}.


End SetToken.



(** ** Reconnect delay *)

Section ReconnectDelay.
Import SCSocket.
Context `{L : !Library}.
Local Open Scope Q_scope.

Lemma std_round_nonneg q : 0 <= q -> std_round q = Qfloor (q + (1 # 2)).
Proof.
  intros H. unfold std_round.
  destruct (Qle_bool 0 q) eqn:E; [reflexivity|].
  apply Qle_bool_iff in H. congruence.
Qed.






End ReconnectDelay.



(** * Further properties of the code *)

(** ** The binary codec, packet by packet *)

Section CodecMore.
Import CodecEngineMinBin.

(** What encoding and decoding do to the call id of an emit packet: it is
    read as an [int] and widened to 64 unsigned bits. *)
Lemma emit_round_trip_cid (event : string) (d : json) (cid : Z) :
  event ≠ "" -> event ≠ "#publish" ->
  Spec.round_trip (Spec.emit_packet event d cid)
  = Ok (if wrap_int cid =? 0
        then JObj [("data", d); ("event", JStr event)]
        else Spec.emit_packet event d (wrap_uint64 (wrap_int cid))).
Proof.
  intros Hne Hnp.
  assert (E1 : String.eqb "" event = false) by (apply String.eqb_neq; congruence).
  assert (E2 : String.eqb "#publish" event = false) by (apply String.eqb_neq; congruence).
  unfold Spec.round_trip, Spec.emit_packet, encode_json, compressSinglePacket,
    compressPublishPacket, compressEmitPacket, compressResponsePacket.
  json_cbn. rewrite E1, E2. json_cbn.
  unfold CallId_of_int, with_cid.
  destruct (wrap_uint64 (wrap_int cid) =? 0) eqn:Ew.
  - assert (Hz : wrap_int cid = 0).
    { apply Z.eqb_eq in Ew. unfold wrap_uint64, wrap_int in *.
      pose proof (Z.mod_pos_bound (cid + 2 ^ 31) (2 ^ 32) ltac:(lia)) as Hb.
      rewrite Z.mod_small in Ew; [exact Ew|].
      destruct (Z_lt_le_dec ((cid + 2 ^ 31) mod 2 ^ 32 - 2 ^ 31) 0) as [Hneg|Hpos];
        [|lia].
      exfalso.
      replace ((cid + 2 ^ 31) mod 2 ^ 32 - 2 ^ 31)
        with (((cid + 2 ^ 31) mod 2 ^ 32 - 2 ^ 31 + 2 ^ 64) - 1 * 2 ^ 64) in Ew by lia.
      rewrite Zminus_mod, Z_mod_mult, Z.sub_0_r, Z.mod_mod in Ew by lia.
      rewrite Z.mod_small in Ew; lia. }
    rewrite Hz. reflexivity.
  - assert (Hz : (wrap_int cid =? 0) = false).
    { apply Z.eqb_neq. intros H0. rewrite H0 in Ew. discriminate Ew. }
    rewrite Hz. reflexivity.
Qed.

(** X1. An emit packet whose event is not empty and not "#publish" comes
    back from the codec as it went in, without a call id or with a call id
    between 1 and 2^31 - 1. *)
Theorem emit_packet_round_trip (event : string) (d : json) :
  event ≠ "" -> event ≠ "#publish" ->
  Spec.round_trip (JObj [("data", d); ("event", JStr event)])
  = Ok (JObj [("data", d); ("event", JStr event)]) ∧
  (∀ cid, 0 < cid < 2 ^ 31 ->
     Spec.round_trip (Spec.emit_packet event d cid) = Ok (Spec.emit_packet event d cid)).
Proof.
  intros Hne Hnp. split.
  - assert (E1 : String.eqb "" event = false) by (apply String.eqb_neq; congruence).
    assert (E2 : String.eqb "#publish" event = false) by (apply String.eqb_neq; congruence).
    unfold Spec.round_trip, encode_json, compressSinglePacket,
      compressPublishPacket, compressEmitPacket, compressResponsePacket.
    json_cbn. rewrite E1, E2. reflexivity.
  - intros cid Hcid. rewrite (emit_round_trip_cid event d cid Hne Hnp).
    rewrite (wrap_int_small cid) by lia.
    rewrite (wrap_uint64_small cid) by lia.
    destruct (Z.eqb_spec cid 0); [lia | reflexivity].
Qed.

Lemma emit_packet_round_trip_witness :
  Spec.round_trip (Spec.emit_packet "foo" (JObj [("x", JNum 1)]) 2)
  = Ok (Spec.emit_packet "foo" (JObj [("x", JNum 1)]) 2).
Proof.
  apply (proj2 (emit_packet_round_trip "foo" (JObj [("x", JNum 1)])
                  ltac:(discriminate) ltac:(discriminate))).
  lia.
Defined.

(** X2. The call id of an emit packet is read as an [int]: a call id
    whose low 32 bits are zero is dropped by the codec, and one whose bit
    31 is set comes back sign-extended to 64 bits. *)
Theorem emit_cid_truncated (event : string) (d : json) (cid : Z) :
  event ≠ "" -> event ≠ "#publish" -> 0 <= cid < 2 ^ 64 ->
  (cid mod 2 ^ 32 = 0 ->
   Spec.round_trip (Spec.emit_packet event d cid)
   = Ok (JObj [("data", d); ("event", JStr event)])) ∧
  (2 ^ 31 <= cid < 2 ^ 32 ->
   Spec.round_trip (Spec.emit_packet event d cid)
   = Ok (Spec.emit_packet event d (cid + 2 ^ 64 - 2 ^ 32))).
Proof.
  intros Hne Hnp Hcid. rewrite (emit_round_trip_cid event d cid Hne Hnp). split.
  - intros Hlow.
    assert (Hz : wrap_int cid = 0).
    { unfold wrap_int.
      replace (cid + 2 ^ 31) with (2 ^ 31 + cid) by lia.
      rewrite <- Zplus_mod_idemp_r, Hlow, Z.add_0_r.
      rewrite Z.mod_small; lia. }
    rewrite Hz. reflexivity.
  - intros Hhigh.
    assert (Hw : wrap_int cid = cid - 2 ^ 32).
    { unfold wrap_int.
      replace (cid + 2 ^ 31) with ((cid - 2 ^ 31) + 1 * 2 ^ 32) by lia.
      rewrite Z_mod_plus_full, Z.mod_small; lia. }
    rewrite Hw.
    destruct (Z.eqb_spec (cid - 2 ^ 32) 0); [lia|].
    f_equal. f_equal. unfold wrap_uint64.
    replace (cid - 2 ^ 32) with ((cid + 2 ^ 64 - 2 ^ 32) + (-1) * 2 ^ 64) by lia.
    rewrite Z_mod_plus_full, Z.mod_small; lia.
Qed.

Lemma emit_cid_truncated_witness :
  Spec.round_trip (Spec.emit_packet "foo" JNull 4294967296)
  = Ok (JObj [("data", JNull); ("event", JStr "foo")]) ∧
  Spec.round_trip (Spec.emit_packet "foo" JNull 2147483648)
  = Ok (Spec.emit_packet "foo" JNull 18446744071562067968).
Proof.
  destruct (emit_cid_truncated "foo" JNull 4294967296
              ltac:(discriminate) ltac:(discriminate) ltac:(lia)) as [H1 _].
  destruct (emit_cid_truncated "foo" JNull 2147483648
              ltac:(discriminate) ltac:(discriminate) ltac:(lia)) as [_ H2].
  split; [apply H1; reflexivity | apply H2; lia].
Defined.

End CodecMore.

Section CodecShapes.
Import CodecEngineMinBin.

(** X3. [compressResponsePacket] rewrites a response only when it has
    both an [error] and a [data] member.  With a call id between 1 and
    2^31 - 1, a response without [error] (the form the socket itself
    answers with) or without [data] is handed to MessagePack as it is, and
    a response with both becomes [{r: [rid, error, data]}]. *)
Theorem response_compressed_only_when_complete (rid : Z) (error d : json) :
  0 < rid < 2 ^ 31 ->
  encode_json (JObj [("data", d); ("rid", JNum rid)])
  = Ok (JObj [("data", d); ("rid", JNum rid)]) ∧
  encode_json (JObj [("error", error); ("rid", JNum rid)])
  = Ok (JObj [("error", error); ("rid", JNum rid)]) ∧
  encode_json (Spec.response_packet rid error d)
  = Ok (JObj [("r", JArr [JNum rid; error; d])]).
Proof.
  intros Hrid.
  assert (E : (rid =? 0) = false) by (apply Z.eqb_neq; lia).
  unfold Spec.response_packet, encode_json, compressSinglePacket,
    compressPublishPacket, compressEmitPacket, compressResponsePacket.
  json_cbn.
  rewrite (wrap_int_small rid) by lia. rewrite E. json_cbn.
  rewrite (wrap_uint64_small rid) by lia.
  repeat split.
Qed.

Lemma response_compressed_only_when_complete_witness :
  encode_json (JObj [("data", JObj [("ok", JBool true)]); ("rid", JNum 2)])
  = Ok (JObj [("data", JObj [("ok", JBool true)]); ("rid", JNum 2)]).
Proof.
  exact (proj1 (response_compressed_only_when_complete 2 JNull
                  (JObj [("ok", JBool true)]) ltac:(lia))).
Defined.

(** X4. A "#publish" packet is compressed as a publish only when its
    [data] is an object with a [data] member.  When [data] is an object
    without that member the packet is compressed as an ordinary emit;
    when [data] is not an object at all, [encode] throws the type error of
    [data.at("data")], which nothing in the codec catches. *)
Theorem publish_data_shapes (d : json) :
  (is_object d = false ->
   encode (JObj [("data", d); ("event", JStr "#publish")]) = Throw domain_error) ∧
  (∀ m, d = JObj m -> map_find "data" m = None ->
     encode_json (JObj [("data", d); ("event", JStr "#publish")])
     = Ok (JObj [("e", JArr [JStr "#publish"; d])])).
Proof.
  split.
  - intros Hobj. unfold encode, encode_json, compressSinglePacket, compressPublishPacket.
    json_cbn. destruct d; try discriminate Hobj; reflexivity.
  - intros m -> Hm. unfold encode_json, compressSinglePacket, compressPublishPacket,
      compressEmitPacket, compressResponsePacket.
    json_cbn. rewrite Hm. reflexivity.
Qed.

Lemma publish_data_shapes_witness :
  encode (JObj [("data", JStr "hello"); ("event", JStr "#publish")]) = Throw domain_error ∧
  encode_json (JObj [("data", JObj [("channel", JStr "room")]); ("event", JStr "#publish")])
  = Ok (JObj [("e", JArr [JStr "#publish"; JObj [("channel", JStr "room")]])]).
Proof.
  split.
  - apply (proj1 (publish_data_shapes (JStr "hello"))). reflexivity.
  - apply (proj2 (publish_data_shapes (JObj [("channel", JStr "room")]))
             [("channel", JStr "room")]); reflexivity.
Defined.

Lemma each_round_trip (g : json -> json) (l : list json) :
  (∀ x, x ∈ l -> Run.single_round_trip x = Ok (g x)) ->
  ∃ ys, each compressSinglePacket l = Ok ys ∧
        each decompressSinglePacket ys = Ok (map g l).
Proof.
  induction l as [|x l IH]; intros Hall.
  - exists []. split; reflexivity.
  - destruct IH as (ys & Hc & Hd).
    { intros y Hy. apply Hall. apply elem_of_cons. right. exact Hy. }
    assert (Hx : Run.single_round_trip x = Ok (g x))
      by (apply Hall; apply elem_of_cons; left; reflexivity).
    unfold Run.single_round_trip in Hx.
    destruct (compressSinglePacket x) as [y|e] eqn:Ey; [|discriminate Hx].
    cbn in Hx. exists (y :: ys). split.
    + cbn [each]. rewrite Ey. cbn. rewrite Hc. reflexivity.
    + cbn [each]. rewrite Hx. cbn. rewrite Hd. reflexivity.
Qed.

(** X5. An array is compressed member by member: when every member of a
    non-empty array comes back from [compressSinglePacket] and
    [decompressSinglePacket] as [g] of itself, the array comes back as the
    array of those.  The empty array is encoded as null, not as an empty
    array. *)
Theorem array_round_trip (g : json -> json) (l : list json) :
  l ≠ [] ->
  (∀ x, x ∈ l -> Run.single_round_trip x = Ok (g x)) ->
  Spec.round_trip (JArr l) = Ok (JArr (map g l)) ∧
  Spec.round_trip (JArr []) = Ok JNull.
Proof.
  intros Hne Hall. split; [|reflexivity].
  destruct (each_round_trip g l Hall) as (ys & Hc & Hd).
  unfold Spec.round_trip, encode_json.
  destruct l as [|x l]; [contradiction|].
  rewrite Hc. cbn. rewrite Hd. reflexivity.
Qed.

Lemma array_round_trip_witness :
  Spec.round_trip (JArr [JObj [("foo", JNum 1)]; Spec.emit_packet "foo" JNull 2])
  = Ok (JArr [JObj [("foo", JNum 1)]; Spec.emit_packet "foo" JNull 2]).
Proof.
  apply (proj1 (array_round_trip (fun x => x)
                  [JObj [("foo", JNum 1)]; Spec.emit_packet "foo" JNull 2]
                  ltac:(discriminate)
                  ltac:(intros x Hx;
                        apply elem_of_cons in Hx as [->|Hx];
                        [reflexivity|];
                        apply elem_of_cons in Hx as [->|Hx];
                        [reflexivity|];
                        apply elem_of_nil in Hx; destruct Hx))).
Defined.

End CodecShapes.

(** ** Calls and their responses *)

Section Calls.
Import SCSocket.
Context `{L : !Library}.

(** X6. Two emits with handlers in a row take two consecutive call ids,
    both calls are pending afterwards, and their packets are queued in
    order with their ids; an emit without a handler takes no call id and
    leaves the table alone. *)
Theorem emit_call_ids (s : t) (e1 e2 e3 : string) (d1 d2 d3 : json)
    (h1 h2 : ResponseHandler) (nt1 nt2 nt3 : bool) :
  0 <= m_nextCallId s -> m_nextCallId s + 2 < 2 ^ 64 ->
  let cid := m_nextCallId s in
  let s2 := emit e2 d2 (Some h2) nt2 (emit e1 d1 (Some h1) nt1 s) in
  m_nextCallId s2 = cid + 2 ∧
  m_pendingResponses s2 !! cid
  = Some {| handler := h1; ackTimer := if nt1 then None else Some TimerWaiting |} ∧
  m_pendingResponses s2 !! (cid + 1)
  = Some {| handler := h2; ackTimer := if nt2 then None else Some TimerWaiting |} ∧
  m_outQueue s2
  = m_outQueue s ++ [Spec.emit_packet e1 d1 cid; Spec.emit_packet e2 d2 (cid + 1)] ∧
  m_nextCallId (emit e3 d3 None nt3 s) = cid ∧
  m_pendingResponses (emit e3 d3 None nt3 s) = m_pendingResponses s ∧
  m_outQueue (emit e3 d3 None nt3 s)
  = m_outQueue s ++ [JObj [("data", d3); ("event", JStr e3)]].
Proof.
  intros H0 Hmax cid s2.
  assert (Hn1 : m_nextCallId (emit e1 d1 (Some h1) nt1 s) = cid + 1).
  { unfold emit. cbn. apply wrap_uint64_small. unfold cid. lia. }
  split.
  { unfold s2, emit at 1. cbn [m_nextCallId set_nextCallId push set_outQueue
                                 set_pendingResponses].
    rewrite Hn1. rewrite wrap_uint64_small by (unfold cid; lia). lia. }
  split.
  { unfold s2, emit at 1. cbn [m_pendingResponses set_nextCallId push set_outQueue
                                 set_pendingResponses].
    rewrite Hn1. rewrite lookup_insert_ne by lia. apply emit_registers. }
  split.
  { unfold s2. pose proof (emit_registers e2 d2 h2 nt2 (emit e1 d1 (Some h1) nt1 s)) as Hr.
    rewrite Hn1 in Hr. exact Hr. }
  split.
  { unfold s2. rewrite emit_enqueues, Hn1, emit_enqueues, <- app_assoc. reflexivity. }
  repeat split.
Qed.

Lemma emit_call_ids_witness :
  let s := set_nextCallId 2 (set_state OPEN (make default_ConnectOptions)) in
  let s2 := emit "b" JNull (Some (UserHandler 2)) false
              (emit "a" JNull (Some (UserHandler 1)) false s) in
  m_nextCallId s2 = 4 ∧
  m_outQueue s2 = [Spec.emit_packet "a" JNull 2; Spec.emit_packet "b" JNull 3].
Proof.
  intros s s2.
  destruct (emit_call_ids s "a" "b" "c" JNull JNull JNull (UserHandler 1) (UserHandler 2)
              false false false ltac:(cbn; lia) ltac:(cbn; lia))
    as (Hn & _ & _ & Hq & _).
  split; [exact Hn | exact Hq].
Defined.

(** X7. A response cancels the acknowledgement timer of its call: once
    the response of a pending call has been dispatched, the expiry of that
    call's timer does nothing, so the handler is not told of a timeout
    after it has had its answer. *)
Theorem response_cancels_ack_timer (s : t) (rid : Z) (id : nat) (d : json) :
  0 <= rid < 2 ^ 31 ->
  m_pendingResponses s !! rid
  = Some {| handler := UserHandler id; ackTimer := Some TimerWaiting |} ->
  ∃ s1, onAckReceive (JObj [("data", d); ("rid", JNum rid)]) s = Ok s1 ∧
        m_trace s1 = m_trace s ++ [Handler id ec_success d] ∧
        ackTimerExpires rid s1 = s1.
Proof.
  intros Hrid Hentry.
  exists (act [Handler id ec_success d] (cancel_ackTimer rid s)).
  split; [apply (onAckReceive_user s rid id _ d Hrid Hentry)|].
  split; [reflexivity|].
  unfold ackTimerExpires. cbn [act m_pendingResponses set_trace].
  rewrite (cancel_ackTimer_lookup rid _ s Hentry). reflexivity.
Qed.

Lemma response_cancels_ack_timer_witness :
  ∃ s1, onAckReceive (JObj [("data", JNull); ("rid", JNum 2)])
          Scenario.with_pending_channel = Ok s1 ∧
        m_trace s1 = [Handler Scenario.user_handler ec_success JNull] ∧
        ackTimerExpires 2 s1 = s1.
Proof.
  apply (response_cancels_ack_timer Scenario.with_pending_channel 2
           Scenario.user_handler JNull).
  - lia.
  - reflexivity.
Defined.

Lemma onAckReceive_rid (m : list (string * json)) (rid : Z) (s : t) :
  0 <= rid < 2 ^ 31 ->
  map_find "rid" m = Some (JNum rid) ->
  onAckReceive (JObj m) s
  = match m_pendingResponses s !! rid with
    | Some respItem =>
        match map_find "error" m with
        | Some error =>
            Ok (invoke (handler respItem) (ec_scio response_error) error
                  (cancel_ackTimer rid s))
        | None =>
            Ok (invoke (handler respItem) ec_success
                  (match map_find "data" m with Some d => d | None => json_object end)
                  (cancel_ackTimer rid s))
        end
    | None => Ok (triggerEvent (ErrorEvent (ec_scio unexpected_rid)) s)
    end.
Proof.
  intros Hrid Hm. unfold onAckReceive, value_int, value_json, json_value, json_at.
  rewrite Hm. cbn [get_int mbind outcome_bind obind].
  rewrite (wrap_int_small rid) by lia.
  unfold CallId_of_int. rewrite (wrap_uint64_small rid) by lia.
  destruct (m_pendingResponses s !! rid); [|reflexivity].
  destruct (map_find "error" m); [reflexivity|].
  destruct (map_find "data" m); reflexivity.
Qed.

(** X8. How a response reaches the handler of its call.  Any [error]
    member, null included, makes it a failure: the handler gets
    [response_error] and the value of [error], and [data] is not looked
    at.  Without an [error] member the handler gets success and [data], or
    the empty object when there is no [data]. *)
Theorem response_handler_arguments (m : list (string * json)) (rid : Z) (id : nat)
    (tm : option TimerState) (s : t) :
  0 <= rid < 2 ^ 31 ->
  map_find "rid" m = Some (JNum rid) ->
  m_pendingResponses s !! rid = Some {| handler := UserHandler id; ackTimer := tm |} ->
  (∀ error, map_find "error" m = Some error ->
     onAckReceive (JObj m) s
     = Ok (act [Handler id (ec_scio response_error) error] (cancel_ackTimer rid s))) ∧
  (map_find "error" m = None ->
   (∀ d, map_find "data" m = Some d ->
      onAckReceive (JObj m) s
      = Ok (act [Handler id ec_success d] (cancel_ackTimer rid s))) ∧
   (map_find "data" m = None ->
    onAckReceive (JObj m) s
    = Ok (act [Handler id ec_success (JObj [])] (cancel_ackTimer rid s)))).
Proof.
  intros Hrid Hm Hentry.
  rewrite (onAckReceive_rid m rid s Hrid Hm), Hentry. cbn [handler invoke].
  split.
  - intros error ->. reflexivity.
  - intros ->. split.
    + intros d ->. reflexivity.
    + intros ->. reflexivity.
Qed.

Lemma response_handler_arguments_witness :
  onAckReceive (JObj [("data", JNum 5); ("error", JNull); ("rid", JNum 2)])
    Scenario.with_pending_channel
  = Ok (act [Handler Scenario.user_handler (ec_scio response_error) JNull]
          (cancel_ackTimer 2 Scenario.with_pending_channel)).
Proof.
  apply (proj1 (response_handler_arguments
                  [("data", JNum 5); ("error", JNull); ("rid", JNum 2)] 2
                  Scenario.user_handler (Some TimerWaiting)
                  Scenario.with_pending_channel ltac:(lia) eq_refl eq_refl)).
  reflexivity.
Defined.

(** X9. A response for which no call is pending fires [unexpected_rid]
    on the error event and changes nothing else; an object with neither
    [event] nor [rid] is such a response, for call id 0. *)
Theorem response_without_pending_call (m : list (string * json)) (s : t) :
  let rid := match map_find "rid" m with Some (JNum z) => z | _ => 0 end in
  (map_find "rid" m = None ∨ ∃ z, map_find "rid" m = Some (JNum z) ∧ 0 <= z < 2 ^ 31) ->
  m_pendingResponses s !! rid = None ->
  onAckReceive (JObj m) s = Ok (triggerEvent (ErrorEvent (ec_scio unexpected_rid)) s) ∧
  (map_find "event" m = None -> rid ≠ 1 -> getEventType (JObj m) = Ok ACK_RECEIVE).
Proof.
  intros rid Hm Hnone. split.
  - destruct Hm as [Hm | (z & Hm & Hz)].
    + unfold rid in Hnone. rewrite Hm in Hnone.
      unfold onAckReceive, value_int, json_value. rewrite Hm.
      cbn [mbind outcome_bind obind]. change (CallId_of_int 0) with 0.
      rewrite Hnone. reflexivity.
    + unfold rid in Hnone. rewrite Hm in Hnone.
      rewrite (onAckReceive_rid m z s Hz Hm), Hnone. reflexivity.
  - intros Hev Hne. unfold getEventType, json_at. rewrite Hev. cbn [catch_oor].
    unfold value_int, json_value.
    destruct Hm as [Hm | (z & Hm & Hz)]; unfold rid in Hne; rewrite Hm in Hne |- *.
    + reflexivity.
    + cbn [get_int mbind outcome_bind obind]. rewrite (wrap_int_small z) by lia.
      destruct (Z.eqb_spec 1 z); [congruence | reflexivity].
Qed.

Lemma response_without_pending_call_witness :
  onAckReceive (JObj [("foo", JNum 1)]) (make default_ConnectOptions)
  = Ok (triggerEvent (ErrorEvent (ec_scio unexpected_rid)) (make default_ConnectOptions)).
Proof.
  apply (proj1 (response_without_pending_call [("foo", JNum 1)]
                  (make default_ConnectOptions)
                  (or_introl eq_refl) eq_refl)).
Defined.

End Calls.

(** ** The life of a subscription *)

Section Subscriptions.
Import SCSocket.
Context `{L : !Library}.

Lemma alter_at_end {A} (f : A -> A) (l : list A) (x : A) :
  alter f (length l) (l ++ [x]) = l ++ [f x].
Proof. induction l as [|y l IH]; cbn; [reflexivity|]. f_equal. exact IH. Qed.

Lemma lookup_at_end {A} (l : list A) (x : A) : (l ++ [x]) !! length l = Some x.
Proof. rewrite lookup_app_r by lia. rewrite Nat.sub_diag. reflexivity. Qed.

(** [subscribe] of a name the registry does not have. *)
Lemma subscribe_fresh nm opts s :
  map_find nm (m_channels s) = None ->
  subscribe nm opts s
  = (length (channels s),
     tryChannelSubscribe (length (channels s)) opts (Run.with_new_channel nm s)).
Proof.
  intros Hfresh. unfold subscribe. rewrite Hfresh.
  set (ch := length (channels s)).
  set (s1 := set_channels _ _).
  assert (Hu : getState ch s1 = UNSUBSCRIBED).
  { unfold getState, s1, ch. cbn [channels set_channels set_channel_objects].
    rewrite lookup_at_end. reflexivity. }
  rewrite Hu. cbn [is_UNSUBSCRIBED]. f_equal. f_equal.
  unfold update_channel, s1, Run.with_new_channel, ch.
  cbn [channels set_channels set_channel_objects].
  rewrite alter_at_end. reflexivity.
Qed.

Lemma with_new_channel_gate nm opts s :
  Spec.subscribe_gate opts (Run.with_new_channel nm s) <-> Spec.subscribe_gate opts s.
Proof. reflexivity. Qed.

Lemma with_new_channel_lookup nm s :
  channels (Run.with_new_channel nm s) !! length (channels s)
  = Some (SCChannel.set_state PENDING (SCChannel.make nm)).
Proof. unfold Run.with_new_channel. cbn [channels set_channel_objects]. apply lookup_at_end. Qed.

(** With the gate open, the new subscription is one [emit]. *)
Lemma subscribe_fresh_open nm opts s :
  map_find nm (m_channels s) = None ->
  Spec.subscribe_gate opts s ->
  subscribe nm opts s
  = (length (channels s),
     emit "#subscribe" (Run.channelSubData nm opts)
       (Some (SubscribeAck (length (channels s)) opts)) false
       (Run.with_new_channel nm s)).
Proof.
  intros Hfresh Hgate. rewrite (subscribe_fresh nm opts s Hfresh). f_equal.
  apply with_new_channel_gate with (nm := nm), gate_true in Hgate.
  unfold tryChannelSubscribe. rewrite Hgate.
  unfold getName. rewrite with_new_channel_lookup.
  unfold Run.channelSubData. cbn [SCChannel.m_name SCChannel.set_state SCChannel.make].
  destruct (negb (json_empty (data opts))); reflexivity.
Qed.

Lemma triggerChannelSubscribe_effect ch opts c s :
  channels s !! ch = Some c ->
  SCChannel.m_state c ≠ SUBSCRIBED ->
  let s' := triggerChannelSubscribe ch opts s in
  frame s' = frame s ∧
  channels s' = alter (SCChannel.set_state SUBSCRIBED) ch (channels s) ∧
  m_trace s' = m_trace s ++ Run.subscribe_events ch (SCChannel.m_name c) (SCChannel.m_state c).
Proof.
  intros Hc Hst s'. unfold s', triggerChannelSubscribe.
  assert (Hg : getState ch s = SCChannel.m_state c) by (unfold getState; rewrite Hc; reflexivity).
  rewrite Hg. destruct (SCChannel.m_state c) eqn:E; try contradiction;
    cbn [is_SUBSCRIBED];
    (split; [reflexivity|]; split; [reflexivity|]);
    unfold triggerEvent, channel_triggerEvent, act, getName, getState, update_channel;
    cbn [m_trace set_trace channels set_channel_objects];
    rewrite !list_lookup_alter_eq, Hc; cbn; rewrite <- !app_assoc; reflexivity.
Qed.

Lemma triggerChannelSubscribeFail_effect ch ec opts c s :
  channels s !! ch = Some c ->
  SCChannel.m_state c ≠ UNSUBSCRIBED ->
  meetsRequirements opts s = true ->
  let s' := triggerChannelSubscribeFail ch ec opts s in
  frame s' = frame s ∧
  channels s' = alter (SCChannel.set_state UNSUBSCRIBED) ch (channels s) ∧
  m_trace s' = m_trace s ++ Run.subscribe_fail_events ch (SCChannel.m_name c) ec.
Proof.
  intros Hc Hst Hm s'. unfold s', triggerChannelSubscribeFail.
  assert (Hg : getState ch s = SCChannel.m_state c) by (unfold getState; rewrite Hc; reflexivity).
  rewrite Hg, Hm.
  destruct (SCChannel.m_state c) eqn:E; try contradiction;
    cbn [is_UNSUBSCRIBED negb andb];
    (split; [reflexivity|]; split; [reflexivity|]);
    unfold triggerEvent, channel_triggerEvent, act, getName, update_channel;
    cbn [m_trace set_trace channels set_channel_objects];
    rewrite !list_lookup_alter_eq, Hc; cbn; rewrite <- !app_assoc; reflexivity.
Qed.

(** X10. Subscribing to a new channel on a socket where the subscribe
    gate is open queues one [#subscribe] packet carrying the next call id
    and registers the channel; when the server's response to that call
    arrives without an [error] member, the channel becomes SUBSCRIBED and
    the state change (PENDING to SUBSCRIBED) and subscribe events fire on
    the channel and on the socket. *)
Theorem subscribe_acknowledged (nm : string) (opts : ChannelSubscriptionOptions)
    (s : t) (d : json) :
  map_find nm (m_channels s) = None ->
  Spec.subscribe_gate opts s ->
  1 < m_nextCallId s < 2 ^ 31 ->
  let ch := fst (subscribe nm opts s) in
  let s1 := snd (subscribe nm opts s) in
  let response := JObj [("data", d); ("rid", JNum (m_nextCallId s))] in
  m_outQueue s1
  = m_outQueue s ++
    [Spec.emit_packet "#subscribe" (Run.channelSubData nm opts) (m_nextCallId s)] ∧
  map_find nm (m_channels s1) = Some ch ∧
  getEventType response = Ok ACK_RECEIVE ∧
  ∃ s2, onAckReceive response s1 = Ok s2 ∧
        getState ch s2 = SUBSCRIBED ∧
        m_trace s2 = m_trace s ++ Run.subscribe_events ch nm PENDING.
Proof.
  intros Hfresh Hgate Hcid ch s1 response.
  unfold ch, s1. rewrite (subscribe_fresh_open nm opts s Hfresh Hgate). cbn [fst snd].
  clear ch s1. set (ch := length (channels s)).
  set (s1 := emit _ _ _ _ _).
  split; [reflexivity|].
  split; [apply map_find_set_eq|].
  split.
  { unfold response, getEventType. json_cbn. rewrite (wrap_int_small _) by lia.
    destruct (Z.eqb_spec 1 (m_nextCallId s)); [lia | reflexivity]. }
  assert (Hp : m_pendingResponses s1 !! m_nextCallId s
               = Some {| handler := SubscribeAck ch opts; ackTimer := Some TimerWaiting |})
    by (apply (emit_registers _ _ _ false (Run.with_new_channel nm s))).
  unfold response.
  rewrite (onAckReceive_rid [("data", d); ("rid", JNum (m_nextCallId s))]
             (m_nextCallId s) s1 ltac:(lia) eq_refl), Hp.
  cbn [map_find String.eqb Ascii.eqb Bool.eqb handler invoke ec_failed].
  set (s1' := cancel_ackTimer _ s1).
  assert (Hc : channels s1' !! ch = Some (SCChannel.set_state PENDING (SCChannel.make nm)))
    by (apply with_new_channel_lookup).
  destruct (triggerChannelSubscribe_effect ch opts _ s1' Hc ltac:(discriminate))
    as (_ & Hch & Htr).
  eexists. split; [reflexivity|]. split.
  - unfold getState. rewrite Hch, list_lookup_alter_eq, Hc. reflexivity.
  - rewrite Htr. reflexivity.
Qed.

Lemma subscribe_acknowledged_witness :
  ∃ s2, onAckReceive Scenario.room_ack Scenario.room_pending = Ok s2 ∧
        getState 0%nat s2 = SUBSCRIBED ∧
        m_trace s2 = Run.subscribe_events 0%nat "room" PENDING.
Proof.
  destruct (subscribe_acknowledged "room" default_ChannelSubscriptionOptions
              Scenario.open_socket JNull eq_refl)
    as (_ & _ & _ & H).
  - split; [reflexivity | left; reflexivity].
  - cbn. lia.
  - exact H.
Defined.

(** X11. A [#subscribe] that fails.  When the response to a pending
    [#subscribe] call carries an [error] member, or when its
    acknowledgement timer expires, and the channel is not UNSUBSCRIBED,
    the outcome depends on the requirement of the subscription at that
    moment.  If it holds ([waitForAuth] is off, or the socket is
    authenticated), the channel goes back to UNSUBSCRIBED and the
    subscribe-fail event fires on the channel and on the socket, with
    [response_error] or [ack_timeout].  If it does not hold (a
    [waitForAuth] subscription whose token has been removed since), the
    channel keeps its state and no event fires.  The registry is left
    alone in every case, and a call that timed out leaves the table. *)
Theorem subscribe_refused (rid : Z) (ch : SCChannelPtr) (opts : ChannelSubscriptionOptions)
    (c : SCChannel.t) (error : json) (s : t) :
  0 <= rid < 2 ^ 31 ->
  m_pendingResponses s !! rid
  = Some {| handler := SubscribeAck ch opts; ackTimer := Some TimerWaiting |} ->
  channels s !! ch = Some c ->
  SCChannel.m_state c ≠ UNSUBSCRIBED ->
  let response := JObj [("error", error); ("rid", JNum rid)] in
  let holds := meetsRequirements opts s in
  let state := if holds then UNSUBSCRIBED else SCChannel.m_state c in
  let events ec :=
    if holds then Run.subscribe_fail_events ch (SCChannel.m_name c) ec else [] in
  (∃ s2, onAckReceive response s = Ok s2 ∧
         getState ch s2 = state ∧
         m_channels s2 = m_channels s ∧
         m_trace s2 = m_trace s ++ events (ec_scio response_error)) ∧
  (let s3 := ackTimerExpires rid s in
   getState ch s3 = state ∧
   m_channels s3 = m_channels s ∧
   m_pendingResponses s3 !! rid = None ∧
   m_trace s3 = m_trace s ++ events (ec_scio ack_timeout)).
Proof.
  intros Hrid Hp Hc Hst response holds state events.
  assert (Hfail : ∀ ec s',
            channels s' = channels s ->
            m_channels s' = m_channels s ->
            m_signedAuthToken s' = m_signedAuthToken s ->
            m_trace s' = m_trace s ->
            let r := triggerChannelSubscribeFail ch ec opts s' in
            getState ch r = state ∧ m_channels r = m_channels s ∧
            m_pendingResponses r = m_pendingResponses s' ∧
            m_trace r = m_trace s ++ events ec).
  { intros ec s' Hch Hm Htok Htr r.
    assert (Hc' : channels s' !! ch = Some c) by (rewrite Hch; exact Hc).
    assert (Hh : meetsRequirements opts s' = holds).
    { unfold holds, meetsRequirements, getAuthState. rewrite Htok. reflexivity. }
    unfold state, events. destruct holds eqn:E.
    - destruct (triggerChannelSubscribeFail_effect ch ec opts c s' Hc' Hst Hh)
        as (Hfr & Hch' & Htr').
      fold r in Hfr, Hch', Htr'.
      apply frame_eq in Hfr as (_ & _ & Fp & Fm).
      split; [unfold getState; rewrite Hch', list_lookup_alter_eq, Hc'; reflexivity|].
      split; [rewrite Fm; exact Hm|]. split; [exact Fp|].
      rewrite Htr', Htr. reflexivity.
    - assert (Hr : r = s').
      { unfold r, triggerChannelSubscribeFail. rewrite Hh, andb_false_r. reflexivity. }
      rewrite Hr. split; [unfold getState; rewrite Hc'; reflexivity|].
      split; [exact Hm|]. split; [reflexivity|].
      rewrite Htr, app_nil_r. reflexivity. }
  split.
  - unfold response.
    rewrite (onAckReceive_rid [("error", error); ("rid", JNum rid)] rid s Hrid eq_refl), Hp.
    cbn [map_find String.eqb Ascii.eqb Bool.eqb handler invoke ec_failed].
    destruct (Hfail (ec_scio response_error) (cancel_ackTimer rid s)
                eq_refl eq_refl eq_refl eq_refl) as (H1 & H2 & _ & H4).
    eexists. split; [reflexivity|]. split; [exact H1|]. split; [exact H2 | exact H4].
  - unfold ackTimerExpires. rewrite Hp. unfold ackTimerHandler. cbn [ec_failed].
    unfold handleEmitAckTimeout. rewrite Hp. cbn [handler invoke ec_failed].
    destruct (Hfail (ec_scio ack_timeout)
                (set_pendingResponses (delete rid (m_pendingResponses s)) s)
                eq_refl eq_refl eq_refl eq_refl) as (H1 & H2 & H3 & H4).
    split; [exact H1|]. split; [exact H2|].
    split; [rewrite H3; apply lookup_delete_eq|].
    rewrite H4. unfold ackTimeoutErrMsg. reflexivity.
Qed.

(** A [waitForAuth] subscription on an authenticated socket, the token
    removed before the server refuses: the channel stays PENDING and
    nothing is fired. *)
Lemma subscribe_refused_witness :
  let opts := {| waitForAuth := true; data := JNull |} in
  let s0 := set_authTokens "signed" JNull Scenario.open_socket in
  let s := onRemoveToken (snd (subscribe "room" opts s0)) in
  (∃ s2, onAckReceive (JObj [("error", JStr "no"); ("rid", JNum 2)]) s = Ok s2 ∧
         getState 0%nat s2 = PENDING ∧
         m_trace s2 = m_trace s) ∧
  getState 0%nat (ackTimerExpires 2 s) = PENDING ∧
  m_trace (ackTimerExpires 2 s) = m_trace s.
Proof.
  intros opts s0 s.
  destruct (subscribe_refused 2 0%nat opts
              (SCChannel.set_state PENDING (SCChannel.make "room")) (JStr "no") s
              ltac:(lia) eq_refl eq_refl ltac:(discriminate))
    as ((s2 & Hs2 & Hst & _ & Htr) & Hst3 & _ & _ & Htr3).
  split.
  - exists s2. split; [exact Hs2|]. split; [exact Hst|].
    rewrite Htr. apply app_nil_r.
  - split; [exact Hst3|]. rewrite Htr3. apply app_nil_r.
Defined.

Lemma set_pendingResponses_same s : set_pendingResponses (m_pendingResponses s) s = s.
Proof. destruct s. reflexivity. Qed.

Lemma cancel_ackTimer_cancelled rid it s :
  m_pendingResponses s !! rid = Some it ->
  ackTimer it ≠ Some TimerWaiting ->
  cancel_ackTimer rid s = s.
Proof.
  intros Hit Htm.
  transitivity (set_pendingResponses (m_pendingResponses s) s);
    [|apply set_pendingResponses_same].
  unfold cancel_ackTimer. f_equal.
  apply map_eq. intros k. destruct (decide (rid = k)) as [<-|Hne].
  - rewrite lookup_alter_eq, Hit. cbn. f_equal.
    destruct it as [h [[|]|]]; cbn in *; congruence.
  - rewrite lookup_alter_ne by exact Hne. reflexivity.
Qed.

(** X12. A second response to a [#subscribe] that has already succeeded
    changes nothing: the entry of the call is still in the table, but the
    callback finds the channel SUBSCRIBED and fires no event again. *)
Theorem duplicate_subscribe_ack (m : list (string * json)) (rid : Z)
    (ch : SCChannelPtr) (opts : ChannelSubscriptionOptions) (s : t) :
  0 <= rid < 2 ^ 31 ->
  map_find "rid" m = Some (JNum rid) ->
  map_find "error" m = None ->
  m_pendingResponses s !! rid
  = Some {| handler := SubscribeAck ch opts; ackTimer := Some TimerCancelled |} ->
  getState ch s = SUBSCRIBED ->
  onAckReceive (JObj m) s = Ok s.
Proof.
  intros Hrid Hm Herr Hentry Hst.
  rewrite (onAckReceive_rid m rid s Hrid Hm), Hentry, Herr.
  cbn [handler invoke ec_failed].
  rewrite (cancel_ackTimer_cancelled rid _ s Hentry) by discriminate.
  unfold triggerChannelSubscribe. rewrite Hst. reflexivity.
Qed.

Lemma duplicate_subscribe_ack_witness :
  onAckReceive Scenario.room_ack Scenario.room_subscribed = Ok Scenario.room_subscribed.
Proof.
  apply (duplicate_subscribe_ack [("data", JNull); ("rid", JNum 2)] 2 0%nat
           default_ChannelSubscriptionOptions Scenario.room_subscribed).
  - lia.
  - reflexivity.
  - reflexivity.
  - vm_compute. reflexivity.
  - reflexivity.
Defined.

(** X13. Repeating [subscribe] for a channel that is not UNSUBSCRIBED
    does nothing: after a first [subscribe] of a channel that was new or
    UNSUBSCRIBED, a second one (with whatever options) returns the same
    channel and leaves the socket as it is, so no second [#subscribe] is
    queued. *)
Theorem subscribe_again_no_op (nm : string) (opts opts' : ChannelSubscriptionOptions)
    (s : t) :
  (∀ ch, map_find nm (m_channels s) = Some ch ->
         ∃ c, channels s !! ch = Some c ∧ SCChannel.m_state c = UNSUBSCRIBED) ->
  subscribe nm opts' (snd (subscribe nm opts s)) = subscribe nm opts s.
Proof.
  intros Hreg.
  assert (Htry : ∀ ch s0, m_channels (tryChannelSubscribe ch opts s0) = m_channels s0 ∧
                          channels (tryChannelSubscribe ch opts s0) = channels s0).
  { intros ch s0. unfold tryChannelSubscribe.
    destruct (is_OPEN (m_state s0) && meetsRequirements opts s0); split; reflexivity. }
  assert (Hdone : ∀ ch s1 c,
            map_find nm (m_channels s1) = Some ch ->
            channels s1 !! ch = Some c -> SCChannel.m_state c = PENDING ->
            subscribe nm opts' s1 = (ch, s1)).
  { intros ch s1 c Hf Hc Hst. unfold subscribe. rewrite Hf.
    unfold getState. rewrite Hc, Hst. reflexivity. }
  destruct (map_find nm (m_channels s)) as [ch|] eqn:Hfind.
  - destruct (Hreg ch eq_refl) as (c & Hc & Hst).
    assert (Hs : subscribe nm opts s
                 = (ch, tryChannelSubscribe ch opts
                          (update_channel ch (SCChannel.set_state PENDING) s))).
    { unfold subscribe. rewrite Hfind. unfold getState. rewrite Hc, Hst. reflexivity. }
    rewrite Hs. cbn [snd].
    destruct (Htry ch (update_channel ch (SCChannel.set_state PENDING) s)) as [Hm Hch].
    apply (Hdone ch _ (SCChannel.set_state PENDING c)).
    + rewrite Hm. exact Hfind.
    + rewrite Hch. unfold update_channel. cbn [channels set_channel_objects].
      rewrite list_lookup_alter_eq, Hc. reflexivity.
    + reflexivity.
  - rewrite (subscribe_fresh nm opts s Hfind). cbn [snd].
    destruct (Htry (length (channels s)) (Run.with_new_channel nm s)) as [Hm Hch].
    apply (Hdone _ _ (SCChannel.set_state PENDING (SCChannel.make nm))).
    + rewrite Hm. apply map_find_set_eq.
    + rewrite Hch. apply with_new_channel_lookup.
    + reflexivity.
Qed.

Lemma subscribe_again_no_op_witness :
  subscribe "room" default_ChannelSubscriptionOptions Scenario.room_pending
  = subscribe "room" default_ChannelSubscriptionOptions Scenario.open_socket.
Proof.
  apply (subscribe_again_no_op "room" default_ChannelSubscriptionOptions
           default_ChannelSubscriptionOptions Scenario.open_socket).
  intros ch Hf. discriminate Hf.
Defined.

End Subscriptions.

(** ** Leaving and destroying channels *)

Section ChannelOps.
Import SCSocket.

Lemma triggerChannelUnsubscribe_effect ch new c s :
  channels s !! ch = Some c ->
  m_trace (triggerChannelUnsubscribe ch new s)
  = m_trace s ++
    (if is_SUBSCRIBED (SCChannel.m_state c)
     then Spec.unsubscribe_events ch (SCChannel.m_name c) SUBSCRIBED new
     else []).
Proof.
  intros Hc. unfold triggerChannelUnsubscribe.
  assert (Hg : getState ch s = SCChannel.m_state c) by (unfold getState; rewrite Hc; reflexivity).
  rewrite Hg. destruct (SCChannel.m_state c) eqn:E; cbn [is_SUBSCRIBED].
  - cbn. rewrite app_nil_r. reflexivity.
  - cbn. rewrite app_nil_r. reflexivity.
  - unfold cancelPendingSubscriberCallback, triggerEvent, channel_triggerEvent, act,
      getName, update_channel, Spec.unsubscribe_events.
    cbn [m_trace set_trace channels set_channel_objects].
    rewrite !list_lookup_alter_eq, Hc, <- !app_assoc. reflexivity.
Qed.

(** [unsubscribe] of a registered channel that is not UNSUBSCRIBED. *)
Lemma unsubscribe_step nm ch c s :
  map_find nm (m_channels s) = Some ch ->
  channels s !! ch = Some c ->
  SCChannel.m_state c ≠ UNSUBSCRIBED ->
  unsubscribe nm s
  = emit "#unsubscribe" (JStr (SCChannel.m_name c)) None false
      (triggerChannelUnsubscribe ch UNSUBSCRIBED s).
Proof.
  intros Hf Hc Hst. unfold unsubscribe. rewrite Hf.
  assert (Hg : getState ch s = SCChannel.m_state c) by (unfold getState; rewrite Hc; reflexivity).
  rewrite Hg. destruct (SCChannel.m_state c) eqn:E; [contradiction| |];
    cbn [is_UNSUBSCRIBED negb]; unfold sendChannelUnsubscribe, cancelPendingSubscriberCallback;
    f_equal; f_equal; unfold getName; rewrite triggerChannelUnsubscribe_channels,
      list_lookup_alter_eq, Hc; reflexivity.
Qed.

(** X14. [unsubscribe] of a registered channel that is PENDING or
    SUBSCRIBED makes it UNSUBSCRIBED and queues [#unsubscribe] with the
    channel name as data and no call id, whatever the connection state;
    no response is awaited for it.  The state-change and unsubscribe events
    fire only if the channel was SUBSCRIBED. *)
Theorem unsubscribe_effect (nm : string) (ch : SCChannelPtr) (c : SCChannel.t) (s : t) :
  map_find nm (m_channels s) = Some ch ->
  channels s !! ch = Some c ->
  SCChannel.m_state c ≠ UNSUBSCRIBED ->
  let s' := unsubscribe nm s in
  getState ch s' = UNSUBSCRIBED ∧
  m_outQueue s'
  = m_outQueue s ++
    [JObj [("data", JStr (SCChannel.m_name c)); ("event", JStr "#unsubscribe")]] ∧
  m_pendingResponses s' = m_pendingResponses s ∧
  m_nextCallId s' = m_nextCallId s ∧
  m_state s' = m_state s ∧
  m_channels s' = m_channels s ∧
  m_trace s'
  = m_trace s ++
    (if is_SUBSCRIBED (SCChannel.m_state c)
     then Spec.unsubscribe_events ch (SCChannel.m_name c) SUBSCRIBED UNSUBSCRIBED
     else []).
Proof.
  intros Hf Hc Hst s'. unfold s'. rewrite (unsubscribe_step nm ch c s Hf Hc Hst).
  pose proof (triggerChannelUnsubscribe_frame ch UNSUBSCRIBED s) as Hfr.
  unfold frame in Hfr. injection Hfr as F1 _ F3 F4 F5 _ _ F8 _ _ _.
  pose proof (triggerChannelUnsubscribe_effect ch UNSUBSCRIBED c s Hc) as Htr.
  pose proof (triggerChannelUnsubscribe_channels ch UNSUBSCRIBED s) as Hch.
  set (s1 := triggerChannelUnsubscribe ch UNSUBSCRIBED s) in *.
  unfold emit, getState.
  cbn [push m_outQueue m_pendingResponses m_nextCallId m_state m_channels
       m_trace set_outQueue channels].
  rewrite F1, F3, F4, F5, F8, Htr, Hch, list_lookup_alter_eq, Hc.
  repeat split.
Qed.

Lemma unsubscribe_effect_witness :
  let s' := unsubscribe "a" Scenario.with_three_channels in
  getState 0%nat s' = UNSUBSCRIBED ∧
  m_outQueue s'
  = [JObj [("data", JNull); ("event", JStr "queued")];
     JObj [("data", JStr "a"); ("event", JStr "#unsubscribe")]] ∧
  m_trace s' = Spec.unsubscribe_events 0%nat "a" SUBSCRIBED UNSUBSCRIBED.
Proof.
  intros s'.
  destruct (unsubscribe_effect "a" 0%nat
              (SCChannel.set_state SUBSCRIBED (SCChannel.make "a"))
              Scenario.with_three_channels eq_refl eq_refl ltac:(discriminate))
    as (Hst & Hq & _ & _ & _ & _ & Htr).
  split; [exact Hst|]. split; [exact Hq | exact Htr].
Defined.

(** X15. [unsubscribe] is idempotent: on any socket and for any name, a
    second [unsubscribe] right after the first changes nothing more (no
    second [#unsubscribe], no event). *)
Theorem unsubscribe_idempotent (nm : string) (s : t) :
  unsubscribe nm (unsubscribe nm s) = unsubscribe nm s.
Proof.
  destruct (map_find nm (m_channels s)) as [ch|] eqn:Hf.
  - destruct (channels s !! ch) as [c|] eqn:Hc.
    + destruct (decide (SCChannel.m_state c = UNSUBSCRIBED)) as [Hu|Hn].
      * assert (Hs : unsubscribe nm s = s).
        { unfold unsubscribe, getState. rewrite Hf, Hc, Hu. reflexivity. }
        rewrite Hs. exact Hs.
      * destruct (unsubscribe_effect nm ch c s Hf Hc Hn) as (Hst & _ & _ & _ & _ & Hm & _).
        set (s' := unsubscribe nm s) in *.
        unfold unsubscribe at 1. rewrite Hm, Hf, Hst. reflexivity.
    + assert (Hs : unsubscribe nm s = s).
      { unfold unsubscribe, getState. rewrite Hf, Hc. reflexivity. }
      rewrite Hs. exact Hs.
  - assert (Hs : unsubscribe nm s = s) by (unfold unsubscribe; rewrite Hf; reflexivity).
    rewrite Hs. exact Hs.
Qed.

Lemma unsubscribe_channels nm s :
  m_channels (unsubscribe nm s) = m_channels s ∧
  length (channels (unsubscribe nm s)) = length (channels s) ∧
  (∀ ch c, map_find nm (m_channels s) = Some ch -> channels s !! ch = Some c ->
           channels (unsubscribe nm s) !! ch
           = Some (SCChannel.set_state UNSUBSCRIBED c)).
Proof.
  destruct (map_find nm (m_channels s)) as [ch|] eqn:Hf.
  - destruct (channels s !! ch) as [c|] eqn:Hc.
    + destruct (decide (SCChannel.m_state c = UNSUBSCRIBED)) as [Hu|Hn].
      * assert (Hs : unsubscribe nm s = s).
        { unfold unsubscribe, getState. rewrite Hf, Hc, Hu. reflexivity. }
        rewrite Hs. split; [reflexivity|]. split; [reflexivity|].
        intros ch' c' Hf' Hc'. injection Hf' as <-. rewrite Hc in Hc'. injection Hc' as <-.
        rewrite Hc. destruct c as [n st w]. cbn in Hu. subst st. reflexivity.
      * rewrite (unsubscribe_step nm ch c s Hf Hc Hn).
        pose proof (triggerChannelUnsubscribe_frame ch UNSUBSCRIBED s) as Hfr.
        unfold frame in Hfr. injection Hfr as _ _ _ _ _ _ _ F8 _ _ _.
        pose proof (triggerChannelUnsubscribe_channels ch UNSUBSCRIBED s) as Hch.
        set (s1 := triggerChannelUnsubscribe ch UNSUBSCRIBED s) in *.
        unfold emit. cbn [push m_channels channels set_outQueue].
        rewrite F8, Hch, length_alter.
        split; [reflexivity|]. split; [reflexivity|].
        intros ch' c' Hf' Hc'. injection Hf' as <-. rewrite Hc in Hc'. injection Hc' as <-.
        rewrite list_lookup_alter_eq, Hc. reflexivity.
    + assert (Hs : unsubscribe nm s = s).
      { unfold unsubscribe, getState. rewrite Hf, Hc. reflexivity. }
      rewrite Hs. split; [reflexivity|]. split; [reflexivity|].
      intros ch' c' Hf' Hc'. injection Hf' as <-. rewrite Hc in Hc'. discriminate Hc'.
  - assert (Hs : unsubscribe nm s = s) by (unfold unsubscribe; rewrite Hf; reflexivity).
    rewrite Hs. split; [reflexivity|]. split; [reflexivity|].
    intros ch' c' Hf'. discriminate Hf'.
Qed.

(** X16. [destroyChannel] of a registered channel takes its name out of
    the registry and leaves the other names alone; the channel object
    itself stays behind, UNSUBSCRIBED and without watchers, for whoever
    still holds it.  A later [subscribe] of the same name does not revive
    that object: it gets a new one. *)
Theorem destroyChannel_effect (nm : string) (ch : SCChannelPtr) (c : SCChannel.t)
    (opts : ChannelSubscriptionOptions) (s : t) :
  map_find nm (m_channels s) = Some ch ->
  channels s !! ch = Some c ->
  SCChannel.m_name c = nm ->
  let s' := destroyChannel nm s in
  map_find nm (m_channels s') = None ∧
  (∀ nm', nm' ≠ nm -> map_find nm' (m_channels s') = map_find nm' (m_channels s)) ∧
  channels s' !! ch
  = Some {| SCChannel.m_name := nm; SCChannel.m_state := UNSUBSCRIBED;
            SCChannel.m_watchers := [] |} ∧
  fst (subscribe nm opts s') = length (channels s) ∧
  fst (subscribe nm opts s') ≠ ch.
Proof.
  intros Hf Hc Hname s'.
  set (s1 := update_channel ch SCChannel.unwatch s).
  assert (Hc1 : channels s1 !! ch = Some (SCChannel.unwatch c)).
  { unfold s1, update_channel. cbn [channels set_channel_objects].
    rewrite list_lookup_alter_eq, Hc. reflexivity. }
  assert (Hn1 : getName ch s1 = nm) by (unfold getName; rewrite Hc1; exact Hname).
  assert (Hs' : s' = set_channels (map_erase nm (m_channels (unsubscribe nm s1)))
                       (unsubscribe nm s1)).
  { unfold s', destroyChannel. rewrite Hf. fold s1. rewrite Hn1. reflexivity. }
  destruct (unsubscribe_channels nm s1) as (Hm & Hlen & Hobj).
  assert (Hreg : m_channels s' = map_erase nm (m_channels s))
    by (rewrite Hs'; cbn [m_channels set_channels]; rewrite Hm; reflexivity).
  assert (Hlen' : length (channels s') = length (channels s)).
  { rewrite Hs'. cbn [channels set_channels]. rewrite Hlen.
    unfold s1, update_channel. cbn [channels set_channel_objects]. apply length_alter. }
  assert (Hfresh : map_find nm (m_channels s') = None)
    by (rewrite Hreg; apply map_find_erase_eq).
  split; [exact Hfresh|].
  split; [intros nm' Hne; rewrite Hreg; apply map_find_erase_ne; exact Hne|].
  split.
  { rewrite Hs'. cbn [channels set_channels].
    rewrite (Hobj ch (SCChannel.unwatch c) Hf Hc1).
    unfold SCChannel.set_state, SCChannel.unwatch. cbn. rewrite Hname. reflexivity. }
  rewrite (subscribe_fresh nm opts s' Hfresh). cbn [fst]. rewrite Hlen'.
  split; [reflexivity|].
  apply lookup_lt_Some in Hc. lia.
Qed.

Lemma destroyChannel_effect_witness :
  let s' := destroyChannel "a" Scenario.with_three_channels in
  map_find "a" (m_channels s') = None ∧
  fst (subscribe "a" default_ChannelSubscriptionOptions s') = 3%nat.
Proof.
  intros s'.
  destruct (destroyChannel_effect "a" 0%nat
              (SCChannel.set_state SUBSCRIBED (SCChannel.make "a"))
              default_ChannelSubscriptionOptions
              Scenario.with_three_channels eq_refl eq_refl eq_refl)
    as (Hnone & _ & _ & Hnew & _).
  split; [exact Hnone | exact Hnew].
Defined.

End ChannelOps.

(** ** Inbound publishes and events *)

Section Inbound.
Import SCSocket.

Lemma destroyChannel_registry nm ch s :
  map_find nm (m_channels s) = Some ch ->
  m_channels (destroyChannel nm s) = map_erase nm (m_channels s).
Proof.
  intros Hf. unfold destroyChannel. rewrite Hf. cbn [m_channels set_channels].
  destruct (unsubscribe_channels
              (getName ch (update_channel ch SCChannel.unwatch s))
              (update_channel ch SCChannel.unwatch s)) as (Hm & _ & _).
  rewrite Hm. reflexivity.
Qed.

Lemma onPublish_packet nm x s :
  onPublish (Spec.publish_packet nm x) s
  = Ok match map_find nm (m_channels s) with
       | Some ch =>
           act [Channel ch (SCChannel.ChannelEvent
                              (match channels s !! ch with
                               | Some c => SCChannel.m_watchers c
                               | None => []
                               end) x)] s
       | None => s
       end.
Proof.
  unfold onPublish, Spec.publish_packet. json_cbn.
  destruct (map_find nm (m_channels s)); reflexivity.
Qed.

(** X17. A compressed publish packet [{"p": [channel, data]}] is expanded
    by the codec, classified as a publish, and handed with its data to the
    watchers of the registered channel of that name: one channel event and
    nothing else.  The state of the channel is not looked at. *)
Theorem compressed_publish_reaches_channel (nm : string) (x : json)
    (ch : SCChannelPtr) (c : SCChannel.t) (s : t) :
  map_find nm (m_channels s) = Some ch ->
  channels s !! ch = Some c ->
  ∃ payload,
    CodecEngineMinBin.decode_json (JObj [("p", JArr [JStr nm; x])]) = Ok payload ∧
    getEventType payload = Ok PUBLISH ∧
    onPublish payload s
    = Ok (act [Channel ch (SCChannel.ChannelEvent (SCChannel.m_watchers c) x)] s).
Proof.
  intros Hf Hc. exists (Spec.publish_packet nm x).
  split; [reflexivity|]. split; [reflexivity|].
  rewrite onPublish_packet, Hf, Hc. reflexivity.
Qed.

Lemma compressed_publish_reaches_channel_witness :
  ∃ payload,
    CodecEngineMinBin.decode_json (JObj [("p", JArr [JStr "c"; JNum 5])]) = Ok payload ∧
    getEventType payload = Ok PUBLISH ∧
    onPublish payload (watch 2%nat 9%nat Scenario.with_three_channels)
    = Ok (act [Channel 2%nat (SCChannel.ChannelEvent [9%nat] (JNum 5))]
            (watch 2%nat 9%nat Scenario.with_three_channels)).
Proof.
  exact (compressed_publish_reaches_channel "c" (JNum 5) 2%nat
           (SCChannel.watch 9%nat (SCChannel.make "c"))
           (watch 2%nat 9%nat Scenario.with_three_channels) eq_refl eq_refl).
Defined.

(** X18. Leaving a channel with [unsubscribe] does not stop deliveries:
    a later publish for it still reaches its watchers.  After
    [destroyChannel] a publish for the name is dropped without any event,
    not even an error. *)
Theorem publish_after_leaving (nm : string) (x : json) (ch : SCChannelPtr)
    (c : SCChannel.t) (s : t) :
  map_find nm (m_channels s) = Some ch ->
  channels s !! ch = Some c ->
  onPublish (Spec.publish_packet nm x) (unsubscribe nm s)
  = Ok (act [Channel ch (SCChannel.ChannelEvent (SCChannel.m_watchers c) x)]
          (unsubscribe nm s)) ∧
  onPublish (Spec.publish_packet nm x) (destroyChannel nm s)
  = Ok (destroyChannel nm s).
Proof.
  intros Hf Hc. split.
  - rewrite onPublish_packet.
    destruct (unsubscribe_channels nm s) as (Hm & _ & Hobj).
    rewrite Hm, Hf, (Hobj ch c Hf Hc). reflexivity.
  - rewrite onPublish_packet, (destroyChannel_registry nm ch s Hf), map_find_erase_eq.
    reflexivity.
Qed.

Lemma publish_after_leaving_witness :
  let s := watch 0%nat 9%nat Scenario.with_three_channels in
  onPublish (Spec.publish_packet "a" JNull) (unsubscribe "a" s)
  = Ok (act [Channel 0%nat (SCChannel.ChannelEvent [9%nat] JNull)] (unsubscribe "a" s)) ∧
  onPublish (Spec.publish_packet "a" JNull) (destroyChannel "a" s)
  = Ok (destroyChannel "a" s).
Proof.
  exact (publish_after_leaving "a" JNull 0%nat
           (SCChannel.watch 9%nat (SCChannel.set_state SUBSCRIBED (SCChannel.make "a")))
           (watch 0%nat 9%nat Scenario.with_three_channels) eq_refl eq_refl).
Defined.

(** X19. A publish whose [data] member is missing, or is an object
    without [channel], or has a string [channel] but no inner [data],
    fires the error event with [protocol_error] and does nothing else: no
    channel is notified, even if the name is registered.  A [channel] that
    is not a string is not caught by the handler: the conversion error
    leaves it. *)
Theorem publish_malformed (members : list (string * json)) (s : t) :
  (map_find "data" members = None ∨
   (∃ dm, map_find "data" members = Some (JObj dm) ∧
          (map_find "channel" dm = None ∨
           (∃ nm, map_find "channel" dm = Some (JStr nm)) ∧ map_find "data" dm = None))
   -> onPublish (JObj members) s = Ok (protocolError s)) ∧
  (∀ dm v, map_find "data" members = Some (JObj dm) ->
           map_find "channel" dm = Some v ->
           (∀ nm, v ≠ JStr nm) ->
           onPublish (JObj members) s = Throw domain_error).
Proof.
  split.
  - intros [Hd | (dm & Hd & [Hc | [(nm & Hc) Hi]])];
      unfold onPublish, json_at; rewrite Hd; cbn [mbind outcome_bind obind catch_oor];
      try reflexivity; rewrite Hc; cbn [mbind outcome_bind obind catch_oor get_string];
      try reflexivity.
    rewrite Hi. reflexivity.
  - intros dm v Hd Hc Hv. unfold onPublish, json_at. rewrite Hd.
    cbn [mbind outcome_bind obind]. rewrite Hc. cbn [mbind outcome_bind obind].
    destruct v; try reflexivity. exfalso. exact (Hv _ eq_refl).
Qed.

Lemma publish_malformed_witness :
  let members := [("data", JObj [("channel", JStr "a")]); ("event", JStr "#publish")] in
  let s := Scenario.with_three_channels in
  onPublish (JObj members) s = Ok (protocolError s) ∧
  onPublish (JObj [("data", JObj [("channel", JNum 1)]); ("event", JStr "#publish")]) s
  = Throw domain_error.
Proof.
  intros members s. split.
  - apply (proj1 (publish_malformed members s)).
    right. exists [("channel", JStr "a")]. split; [reflexivity|].
    right. split; [exists "a"; reflexivity | reflexivity].
  - apply (proj2 (publish_malformed
                    [("data", JObj [("channel", JNum 1)]); ("event", JStr "#publish")] s)
             [("channel", JNum 1)] (JNum 1) eq_refl eq_refl).
    intros nm. discriminate.
Defined.

(** X20. A call made with [emit] and a handler is understood by the
    inbound side of the same code: the queued packet is classified as an
    event, a peer reading it fires the emit event with the same name and
    data and a response callback for the same call id; what that callback
    queues for a reply [resp] is classified as a response and, read back
    by the caller, invokes the handler of the call with no error and
    [resp].  This needs a call id above 1 that fits a C++ [int], and an
    event name that is none of the three reserved ones. *)
Theorem call_answered_by_peer (e : string) (d resp : json) (h : ResponseHandler)
    (noTimeout : bool) (caller peer : t) :
  let cid := m_nextCallId caller in
  1 < cid < 2 ^ 31 ->
  e ≠ "#publish" -> e ≠ "#removeAuthToken" -> e ≠ "#setAuthToken" ->
  let caller1 := emit e d (Some h) noTimeout caller in
  ∃ packet reply,
    m_outQueue caller1 = m_outQueue caller ++ [packet] ∧
    getEventType packet = Ok EVENT ∧
    onEvent packet peer = Ok (triggerEvent (EmitEvent e d (Some cid)) peer) ∧
    m_outQueue (emitEventRespond cid resp peer) = m_outQueue peer ++ [reply] ∧
    getEventType reply = Ok ACK_RECEIVE ∧
    onAckReceive reply caller1
    = Ok (invoke h ec_success resp (cancel_ackTimer cid caller1)).
Proof.
  intros cid Hcid H1 H2 H3 caller1.
  exists (Spec.emit_packet e d cid), (JObj [("data", resp); ("rid", JNum cid)]).
  assert (E1 : String.eqb "#publish" e = false) by (apply String.eqb_neq; congruence).
  assert (E2 : String.eqb "#removeAuthToken" e = false) by (apply String.eqb_neq; congruence).
  assert (E3 : String.eqb "#setAuthToken" e = false) by (apply String.eqb_neq; congruence).
  assert (Ew : wrap_int cid = cid) by (apply wrap_int_small; lia).
  assert (Ec : CallId_of_int cid = cid) by (apply wrap_uint64_small; lia).
  split; [reflexivity|].
  split.
  { unfold getEventType, Spec.emit_packet, json_at, get_string, map_find.
    cbn [String.eqb Ascii.eqb Bool.eqb mbind outcome_bind obind catch_oor].
    rewrite E1, E2, E3. reflexivity. }
  split.
  { unfold onEvent, Spec.emit_packet, value_int, json_value, json_at, get_string, get_int,
      map_find.
    cbn [String.eqb Ascii.eqb Bool.eqb mbind outcome_bind obind catch_oor].
    rewrite Ew, Ec.
    destruct (Z.eqb_spec cid 0) as [E0|_]; [lia | reflexivity]. }
  split; [reflexivity|].
  split.
  { unfold getEventType, value_int, json_value, json_at, get_int, map_find.
    cbn [String.eqb Ascii.eqb Bool.eqb mbind outcome_bind obind catch_oor].
    rewrite Ew. destruct (Z.eqb_spec 1 cid) as [E0|_]; [lia | reflexivity]. }
  rewrite (onAckReceive_rid [("data", resp); ("rid", JNum cid)] cid caller1
             ltac:(lia) eq_refl).
  pose proof (emit_registers e d h noTimeout caller) as Hreg.
  fold cid caller1 in Hreg. rewrite Hreg. reflexivity.
Qed.

Lemma call_answered_by_peer_witness :
  let caller := Scenario.open_socket in
  let caller1 := emit "ask" (JNum 7) (Some (UserHandler 3)) false caller in
  ∃ packet reply,
    m_outQueue caller1 = m_outQueue caller ++ [packet] ∧
    getEventType packet = Ok EVENT ∧
    onEvent packet caller = Ok (triggerEvent (EmitEvent "ask" (JNum 7) (Some 2)) caller) ∧
    m_outQueue (emitEventRespond 2 (JStr "yes") caller) = m_outQueue caller ++ [reply] ∧
    getEventType reply = Ok ACK_RECEIVE ∧
    onAckReceive reply caller1
    = Ok (invoke (UserHandler 3) ec_success (JStr "yes") (cancel_ackTimer 2 caller1)).
Proof.
  exact (call_answered_by_peer "ask" (JNum 7) (JStr "yes") (UserHandler 3) false
           Scenario.open_socket Scenario.open_socket
           ltac:(cbn; lia) ltac:(discriminate) ltac:(discriminate) ltac:(discriminate)).
Defined.

End Inbound.

(** ** Connecting, closing and reconnecting *)

Section LifeCycle.
Import SCSocket.
Context `{L : !Library}.

Lemma transport_ops_app tr1 tr2 :
  Run.transport_ops (tr1 ++ tr2) = Run.transport_ops tr1 ++ Run.transport_ops tr2.
Proof. unfold Run.transport_ops. apply flat_map_app. Qed.

Lemma triggerChannelUnsubscribe_transport ch new s :
  Run.transport_ops (m_trace (triggerChannelUnsubscribe ch new s))
  = Run.transport_ops (m_trace s).
Proof.
  unfold triggerChannelUnsubscribe.
  destruct (is_SUBSCRIBED (getState ch s)); [|reflexivity].
  unfold cancelPendingSubscriberCallback, triggerEvent, channel_triggerEvent, act.
  cbn [m_trace set_trace]. rewrite !transport_ops_app. cbn. rewrite !app_nil_r.
  reflexivity.
Qed.

Lemma suspend_fold (l : list (string * nat)) :
  ∀ s,
  let s' := fold_left
              (fun s (sub : string * nat) =>
                 triggerChannelUnsubscribe (snd sub) (suspended (getState (snd sub) s)) s)
              l s in
  frame s' = frame s ∧
  Run.transport_ops (m_trace s') = Run.transport_ops (m_trace s).
Proof.
  induction l as [|[nm ch] l IH]; intros s; [split; reflexivity|].
  cbn [fold_left snd].
  destruct (IH (triggerChannelUnsubscribe ch (suspended (getState ch s)) s)) as [Hf Ht].
  split.
  - rewrite Hf. apply triggerChannelUnsubscribe_frame.
  - rewrite Ht. apply triggerChannelUnsubscribe_transport.
Qed.

(** What [internalClose] does to the socket proper, whatever the
    registry holds. *)
Lemma internalClose_fields code s :
  let s' := internalClose code s in
  m_state s' = (if is_OPEN (m_state s) then CLOSED else m_state s) ∧
  m_connectOptions s' = m_connectOptions s ∧
  m_nextCallId s' = m_nextCallId s ∧
  m_outQueue s' = [] ∧
  m_pendingResponses s' = m_pendingResponses s ∧
  m_channels s' = m_channels s ∧
  m_connectAttempts s' = m_connectAttempts s ∧
  Run.transport_ops (m_trace s')
  = Run.transport_ops (m_trace s)
    ++ (if is_OPEN (m_state s) then [ws_close code] else []).
Proof.
  intros s'.
  pose (s2 := clearIoWriteQueue
                (if is_OPEN (m_state (resetPingTimer true s))
                 then act [Transport (ws_close code)]
                        (set_state CLOSED (resetPingTimer true s))
                 else resetPingTimer true s)).
  assert (Hs' : s' = suspendChannelSubscriptions s2) by reflexivity.
  unfold suspendChannelSubscriptions in Hs'.
  destruct (suspend_fold (m_channels s2) s2) as [Hf Ht].
  rewrite <- Hs' in Hf, Ht.
  unfold frame in Hf. injection Hf as E1 E2 E3 E4 E5 _ _ E8 E9 _ _.
  rewrite E1, E2, E3, E4, E5, E8, E9, Ht.
  unfold s2, clearIoWriteQueue, resetPingTimer.
  cbn [m_state set_pingTimeoutTimer].
  destruct (is_OPEN (m_state s)) eqn:E.
  - cbn. rewrite transport_ops_app. repeat split.
  - cbn. rewrite app_nil_r. repeat split.
Qed.

Lemma closeHandler_fields ec abort u s :
  let s' := closeHandler ec abort u s in
  let retry := negb (is_operation_aborted ec) && autoReconnect (m_connectOptions s) in
  m_state s' = (if is_OPEN (m_state s) then CLOSED else m_state s) ∧
  m_connectOptions s' = m_connectOptions s ∧
  m_nextCallId s' = m_nextCallId s ∧
  m_outQueue s' = [] ∧
  m_pendingResponses s' = m_pendingResponses s ∧
  m_channels s' = m_channels s ∧
  m_connectAttempts s'
  = (if retry then wrap_uint32 (m_connectAttempts s + 1) else m_connectAttempts s) ∧
  Run.transport_ops (m_trace s')
  = Run.transport_ops (m_trace s)
    ++ (if is_OPEN (m_state s) then [ws_close close_normal] else [])
    ++ (if retry
        then [reconnect_timer
                (reconnect_timeout (autoReconnectOptions (m_connectOptions s))
                   RECONENCT_DELAY_INVALID (m_connectAttempts s) u)]
        else []) ∧
  Run.last_event (m_trace s')
  = Some (if abort then ConnectAbortEvent ec else DisconnectEvent ec).
Proof.
  intros s' retry. unfold s', closeHandler.
  destruct (internalClose_fields close_normal s) as (H1 & H2 & H3 & H4 & H5 & H6 & H7 & H8).
  revert H1 H2 H3 H4 H5 H6 H7 H8.
  generalize (internalClose close_normal s). intros s1 H1 H2 H3 H4 H5 H6 H7 H8.
  rewrite H2. fold retry.
  destruct retry; destruct abort;
    unfold tryReconnect, triggerEvent, act, Run.last_event;
    cbn [m_state m_connectOptions m_nextCallId m_outQueue m_pendingResponses m_channels
         m_connectAttempts m_trace set_trace set_connectAttempts];
    rewrite ?last_snoc, ?transport_ops_app, ?H1, ?H2, ?H3, ?H4, ?H5, ?H6, ?H7, ?H8;
    cbn [Run.transport_ops flat_map app]; rewrite ?app_nil_r, <- ?app_assoc;
    repeat split.
Qed.

(** X21. [connect] does something only on a CLOSED socket.  There it
    moves the socket to CONNECTING, restarts the call ids at 1, fires the
    connecting event and asks for the host to be resolved, and it leaves
    the egress queue and the table of pending responses as they are.  A
    second [connect] right after the first does nothing. *)
Theorem connect_effect (s : t) :
  (m_state s ≠ CLOSED -> connect s = s) ∧
  (m_state s = CLOSED ->
   m_state (connect s) = CONNECTING ∧
   m_nextCallId (connect s) = 1 ∧
   m_outQueue (connect s) = m_outQueue s ∧
   m_pendingResponses (connect s) = m_pendingResponses s ∧
   m_trace (connect s)
   = m_trace s ++
     [Socket ConnectingEvent;
      Transport (async_resolve (host (m_connectOptions s)) (port (m_connectOptions s)))]) ∧
  connect (connect s) = connect s.
Proof.
  split; [|split].
  - intros Hne. unfold connect. destruct (m_state s); [contradiction | reflexivity..].
  - intros Hc. unfold connect. rewrite Hc. cbn [is_CLOSED negb].
    unfold startConnect, resetState, resetPingTimer, triggerEvent, act.
    cbn. rewrite <- app_assoc. repeat split.
  - destruct (m_state s) eqn:E.
    + assert (H : connect s = startConnect s) by (unfold connect; rewrite E; reflexivity).
      rewrite H. reflexivity.
    + assert (H : connect s = s) by (unfold connect; rewrite E; reflexivity).
      rewrite H. exact H.
    + assert (H : connect s = s) by (unfold connect; rewrite E; reflexivity).
      rewrite H. exact H.
Qed.

Lemma connect_effect_witness :
  let s := emit "early" JNull (Some (UserHandler 1)) false (make default_ConnectOptions) in
  m_state (connect s) = CONNECTING ∧
  m_nextCallId (connect s) = 1 ∧
  m_outQueue (connect s) = m_outQueue s ∧
  m_pendingResponses (connect s) = m_pendingResponses s ∧
  m_trace (connect s)
  = m_trace s ++ [Socket ConnectingEvent; Transport (async_resolve "localhost" "http")].
Proof.
  exact (proj1 (proj2 (connect_effect
                         (emit "early" JNull (Some (UserHandler 1)) false
                            (make default_ConnectOptions))))
           eq_refl).
Defined.

(** X22. A connection attempt that fails (in the resolve, the TLS
    connect or the connect step) ends in [closeHandler], which leaves the
    socket CONNECTING: only an OPEN socket is marked CLOSED.  The connect
    abort event is fired last, no close frame is sent, and a [connect]
    afterwards does nothing; a new attempt is started only by the
    reconnect timer, which is set when auto-reconnect is on and the error
    is not [operation_aborted]. *)
Theorem failed_connect_stays_CONNECTING (ec : error_code) (u : Q) (s : t) :
  m_state s = CONNECTING ->
  ec_failed ec = true ->
  let s' := closeHandler ec true u s in
  resolveHandler ec u s = s' ∧
  secureConnectHandler ec u s = s' ∧
  connectHandler ec u s = s' ∧
  m_state s' = CONNECTING ∧
  connect s' = s' ∧
  Run.last_event (m_trace s') = Some (ConnectAbortEvent ec) ∧
  Run.transport_ops (m_trace s')
  = Run.transport_ops (m_trace s)
    ++ (if negb (is_operation_aborted ec) && autoReconnect (m_connectOptions s)
        then [reconnect_timer
                (reconnect_timeout (autoReconnectOptions (m_connectOptions s))
                   RECONENCT_DELAY_INVALID (m_connectAttempts s) u)]
        else []).
Proof.
  intros Hst Hec s'.
  destruct (closeHandler_fields ec true u s) as (H1 & _ & _ & _ & _ & _ & _ & H8 & H9).
  fold s' in H1, H8, H9. rewrite Hst in H1, H8. cbn [is_OPEN app] in H1, H8.
  split; [unfold resolveHandler; rewrite Hec; reflexivity|].
  split; [unfold secureConnectHandler; rewrite Hec; reflexivity|].
  split; [unfold connectHandler; rewrite Hec; reflexivity|].
  split; [exact H1|].
  split; [unfold connect; rewrite H1; reflexivity|].
  split; [exact H9 | exact H8].
Qed.

End LifeCycle.

Lemma failed_connect_stays_CONNECTING_witness :
  let s := SCSocket.connect (SCSocket.make default_ConnectOptions) in
  let s' := SCSocket.resolveHandler (L := Scenario.library) (ec_other 1) 0 s in
  SCSocket.m_state s' = SCSocket.CONNECTING ∧ SCSocket.connect s' = s' ∧
  Run.last_event (SCSocket.m_trace s')
  = Some (SCSocket.ConnectAbortEvent (ec_other 1)).
Proof.
  intros s s'.
  destruct (failed_connect_stays_CONNECTING (L := Scenario.library) (ec_other 1) 0 s
              eq_refl eq_refl)
    as (_ & _ & _ & Hst & Hc & Hl & _).
  split; [exact Hst|]. split; [exact Hc | exact Hl].
Defined.

(** ** The write pump and the handshake *)

Section Pump.
Import SCSocket.
Context `{L : !Library}.

Lemma ioPumpWrite_cons s obj rest buf :
  m_outQueue s = obj :: rest ->
  Run.currentOutBuffer (m_connectOptions s) obj = Ok buf ->
  ioPumpWrite s = Ok (act [Transport (ws_async_write buf)] (set_outQueue rest s)).
Proof.
  intros Hq Hb. unfold ioPumpWrite. rewrite Hq.
  cbn [m_connectOptions set_outQueue]. unfold Run.currentOutBuffer in Hb.
  rewrite Hb. reflexivity.
Qed.

Lemma pump_fifo (q : list json) :
  ∀ (bufs : list string) (s : t),
  m_outQueue s = q ->
  Forall2 (fun obj buf => Run.currentOutBuffer (m_connectOptions s) obj = Ok buf) q bufs ->
  Run.pump (length q) s = Ok (act (Run.writes bufs) (set_outQueue [] s)).
Proof.
  induction q as [|obj rest IH]; intros bufs s Hq Hall.
  - apply Forall2_nil_inv_l in Hall. subst bufs. cbn.
    destruct s. cbn in Hq. subst. unfold act, set_outQueue, set_trace. cbn.
    rewrite app_nil_r. reflexivity.
  - apply Forall2_cons_inv_l in Hall as (buf & bufs' & Hb & Hall & ->).
    cbn [length Run.pump]. unfold pumpWriteHandler. cbn [ec_failed].
    rewrite (ioPumpWrite_cons s obj rest buf Hq Hb). cbn [mbind outcome_bind obind].
    rewrite (IH bufs' (act [Transport (ws_async_write buf)] (set_outQueue rest s))
               eq_refl Hall).
    unfold act, set_outQueue, set_trace, Run.writes. cbn. rewrite <- app_assoc.
    reflexivity.
Qed.

(** X23. The write pump drains the egress queue in order.  When the
    codec of the connection (or the JSON printer, without a codec) turns
    the queued packets into the buffers [bufs], then as many write
    completions as there are packets, and one more, leave the queue empty
    and have made exactly one write per packet, in queue order, followed
    by a read. *)
Theorem write_pump_fifo (bufs : list string) (s : t) :
  Forall2 (fun obj buf => Run.currentOutBuffer (m_connectOptions s) obj = Ok buf)
    (m_outQueue s) bufs ->
  Run.pump (S (length (m_outQueue s))) s
  = Ok (act (Run.writes bufs ++ [Transport ws_async_read_some]) (set_outQueue [] s)).
Proof.
  intros Hall.
  assert (Hstep : ∀ n x, Run.pump (S n) x = (y ← Run.pump n x; ioPumpWrite y)).
  { induction n as [|n IHn]; intros x.
    - cbn. unfold pumpWriteHandler. cbn [ec_failed].
      destruct (ioPumpWrite x); reflexivity.
    - change (Run.pump (S (S n)) x)
        with (y ← pumpWriteHandler ec_success 0 x; Run.pump (S n) y).
      change (Run.pump (S n) x) with (y ← pumpWriteHandler ec_success 0 x; Run.pump n y).
      destruct (pumpWriteHandler ec_success 0 x) as [y|e]; [|reflexivity].
      cbn [mbind outcome_bind obind]. apply IHn. }
  rewrite Hstep, (pump_fifo (m_outQueue s) bufs s eq_refl Hall).
  cbn [mbind outcome_bind obind]. unfold ioPumpWrite, ioPumpReadSome, act.
  cbn. rewrite <- app_assoc. reflexivity.
Qed.

End Pump.

Lemma write_pump_fifo_witness :
  let s := SCSocket.emit "second" (JNum 2) None false Scenario.with_three_channels in
  let bufs := [Scenario.dump (JObj [("data", JNull); ("event", JStr "queued")]);
               Scenario.dump (JObj [("data", JNum 2); ("event", JStr "second")])] in
  Run.pump (L := Scenario.library) 3 s
  = Ok (SCSocket.act (Run.writes bufs ++ [SCSocket.Transport ws_async_read_some])
          (SCSocket.set_outQueue [] s)).
Proof.
  intros s bufs.
  apply (write_pump_fifo (L := Scenario.library) bufs s).
  repeat constructor.
Defined.

(** ** Reconnecting *)

Section Reconnecting.
Import SCSocket.
Context `{L : !Library}.

Lemma transport_ops_writes bufs :
  Run.transport_ops (Run.writes bufs) = map ws_async_write bufs.
Proof.
  induction bufs as [|b bufs IH]; [reflexivity|].
  cbn. f_equal. exact IH.
Qed.

(** A connection attempt that goes through, up to the first write. *)
Lemma connected_fields s obj rest buf :
  m_outQueue s ++ [Run.handshakePayload 1] = obj :: rest ->
  Run.currentOutBuffer (m_connectOptions s) obj = Ok buf ->
  ∃ s0, Run.connected s = Ok s0 ∧
        m_state s0 = OPEN ∧
        m_connectOptions s0 = m_connectOptions s ∧
        m_nextCallId s0 = 2 ∧
        m_outQueue s0 = rest ∧
        m_pendingResponses s0 = m_pendingResponses s ∧
        m_channels s0 = m_channels s ∧
        channels s0 = channels s ∧
        m_connectAttempts s0 = m_connectAttempts s ∧
        m_trace s0
        = m_trace s ++
          [Socket ConnectingEvent;
           Transport (async_resolve (host (m_connectOptions s)) (port (m_connectOptions s)));
           Transport async_connect;
           Transport (ws_async_handshake (host (m_connectOptions s))
                        (path (m_connectOptions s)));
           Transport (ws_async_write buf)].
Proof.
  intros Hq Hb.
  set (s3 := performHandshake
               (set_state OPEN (act [Transport async_connect] (startConnect s)))).
  assert (Hc : Run.connected s
               = ioPumpWrite (push (Run.handshakePayload 1) (set_nextCallId 2 s3)))
    by reflexivity.
  rewrite Hc,
    (ioPumpWrite_cons (push (Run.handshakePayload 1) (set_nextCallId 2 s3))
       obj rest buf Hq Hb).
  eexists. split; [reflexivity|].
  cbn. rewrite <- !app_assoc. repeat split.
Qed.

(** X24. Packets queued before the connection is open are sent before
    the handshake.  A connection attempt that goes through leaves the
    socket OPEN with the next call id 2, and the writes that follow the
    WebSocket handshake are the packets that were waiting in the queue, in
    order, and then the [#handshake] packet with call id 1. *)
Theorem handshake_after_queued (bufs : list string) (s : t) :
  Forall2 (fun obj buf => Run.currentOutBuffer (m_connectOptions s) obj = Ok buf)
    (m_outQueue s ++ [Run.handshakePayload 1]) bufs ->
  ∃ s0 s1,
    Run.connected s = Ok s0 ∧
    m_state s0 = OPEN ∧
    m_nextCallId s0 = 2 ∧
    Run.pump (length (m_outQueue s)) s0 = Ok s1 ∧
    m_outQueue s1 = [] ∧
    Run.transport_ops (m_trace s1)
    = Run.transport_ops (m_trace s) ++
      [async_resolve (host (m_connectOptions s)) (port (m_connectOptions s));
       async_connect;
       ws_async_handshake (host (m_connectOptions s)) (path (m_connectOptions s))] ++
      map ws_async_write bufs.
Proof.
  intros Hall.
  destruct (m_outQueue s ++ [Run.handshakePayload 1]) as [|obj rest] eqn:Hq.
  { apply app_eq_nil in Hq as [_ Hq]. discriminate Hq. }
  apply Forall2_cons_inv_l in Hall as (buf & bufs' & Hb & Hall & ->).
  destruct (connected_fields s obj rest buf Hq Hb)
    as (s0 & Hc & Hst & Ho & Hn & Hq0 & _ & _ & _ & _ & Htr).
  assert (Hlen : length (m_outQueue s) = length rest).
  { apply (f_equal length) in Hq. rewrite length_app in Hq. cbn in Hq. lia. }
  rewrite <- Ho in Hall.
  pose proof (pump_fifo rest bufs' s0 Hq0 Hall) as Hp.
  exists s0, (act (Run.writes bufs') (set_outQueue [] s0)).
  rewrite Hlen.
  split; [exact Hc|]. split; [exact Hst|]. split; [exact Hn|]. split; [exact Hp|].
  split; [reflexivity|].
  unfold act. cbn [m_trace set_trace set_outQueue].
  rewrite Htr, !transport_ops_app, transport_ops_writes. cbn.
  rewrite <- app_assoc. reflexivity.
Qed.

(** X25. The count of reconnect attempts is never reset.  When an OPEN
    socket loses its connection (with auto-reconnect on and an error other
    than [operation_aborted]) and the attempt started by the reconnect
    timer goes through, the socket is OPEN again with the count one
    higher, and the next loss of the connection waits for the delay of the
    next attempt number, not for the first delay again. *)
Theorem backoff_not_reset (ec ec' : error_code) (u u' : Q) (buf : string) (s : t) :
  m_state s = OPEN ->
  is_operation_aborted ec = false ->
  is_operation_aborted ec' = false ->
  autoReconnect (m_connectOptions s) = true ->
  Run.currentOutBuffer (m_connectOptions s) (Run.handshakePayload 1) = Ok buf ->
  let s1 := closeHandler ec false u s in
  let n := wrap_uint32 (m_connectAttempts s + 1) in
  reconnectTimerHandler ec_success s1 = startConnect s1 ∧
  ∃ s2, Run.connected s1 = Ok s2 ∧
        m_state s2 = OPEN ∧
        m_connectAttempts s2 = n ∧
        Run.transport_ops (m_trace (closeHandler ec' false u' s2))
        = Run.transport_ops (m_trace s2) ++
          [ws_close close_normal;
           reconnect_timer
             (reconnect_timeout (autoReconnectOptions (m_connectOptions s))
                RECONENCT_DELAY_INVALID n u')].
Proof.
  intros Hst Hec Hec' Hauto Hb s1 n.
  split; [reflexivity|].
  destruct (closeHandler_fields ec false u s) as (_ & C2 & _ & C4 & _ & _ & C7 & _ & _).
  fold s1 in C2, C4, C7. rewrite Hec, Hauto in C7. cbn [negb andb] in C7.
  assert (Hq : m_outQueue s1 ++ [Run.handshakePayload 1] = [Run.handshakePayload 1])
    by (rewrite C4; reflexivity).
  rewrite <- C2 in Hb.
  destruct (connected_fields s1 _ _ buf Hq Hb)
    as (s2 & Hc & Hst2 & Ho2 & _ & _ & _ & _ & _ & Ha2 & _).
  exists s2. split; [exact Hc|]. split; [exact Hst2|].
  split; [rewrite Ha2; exact C7|].
  destruct (closeHandler_fields ec' false u' s2) as (_ & _ & _ & _ & _ & _ & _ & D8 & _).
  rewrite D8, Hst2, Ho2, C2, Hec', Hauto, Ha2, C7. reflexivity.
Qed.

End Reconnecting.

Lemma handshake_after_queued_witness :
  let s := SCSocket.emit "early" JNull None false
             (SCSocket.make default_ConnectOptions) in
  ∃ s0 s1,
    Run.connected (L := Scenario.library) s = Ok s0 ∧
    SCSocket.m_state s0 = SCSocket.OPEN ∧
    SCSocket.m_nextCallId s0 = 2 ∧
    Run.pump (L := Scenario.library) 1 s0 = Ok s1 ∧
    SCSocket.m_outQueue s1 = [] ∧
    Run.transport_ops (SCSocket.m_trace s1)
    = [async_resolve "localhost" "http"; async_connect;
       ws_async_handshake "localhost" "/socketcluster/";
       ws_async_write (Scenario.dump (JObj [("data", JNull); ("event", JStr "early")]));
       ws_async_write (Scenario.dump (Run.handshakePayload 1))].
Proof.
  intros s.
  apply (handshake_after_queued (L := Scenario.library)
           [Scenario.dump (JObj [("data", JNull); ("event", JStr "early")]);
            Scenario.dump (Run.handshakePayload 1)] s).
  repeat constructor.
Defined.

Lemma backoff_not_reset_witness :
  let s := Scenario.open_socket in
  let s1 := SCSocket.closeHandler (L := Scenario.library) ec_eof false 0 s in
  ∃ s2, Run.connected (L := Scenario.library) s1 = Ok s2 ∧
        SCSocket.m_state s2 = SCSocket.OPEN ∧
        SCSocket.m_connectAttempts s2 = 1 ∧
        Run.transport_ops
          (SCSocket.m_trace (SCSocket.closeHandler (L := Scenario.library) ec_eof false 0 s2))
        = Run.transport_ops (SCSocket.m_trace s2) ++
          [ws_close close_normal; reconnect_timer 15000].
Proof.
  intros s s1.
  exact (proj2 (backoff_not_reset (L := Scenario.library) ec_eof ec_eof 0 0
                  (Scenario.dump (Run.handshakePayload 1)) s
                  eq_refl eq_refl eq_refl eq_refl eq_refl)).
Defined.

(** ** After the connection comes back *)

Section Resuming.
Import SCSocket.
Context `{L : !Library}.

Lemma map_find_elem {V} (k : string) (v : V) (m : list (string * V)) :
  map_find k m = Some v -> v ∈ map snd m.
Proof.
  induction m as [|[k' v'] m IH]; cbn; [discriminate|].
  destruct (String.eqb k k').
  - intros [= ->]. apply elem_of_cons. left. reflexivity.
  - intros H. apply elem_of_cons. right. exact (IH H).
Qed.

Lemma internalClose_getState code ch s :
  NoDup (map snd (m_channels s)) ->
  ch ∈ map snd (m_channels s) ->
  getState ch (internalClose code s) = suspended (getState ch s).
Proof.
  intros Hnd Hin.
  pose (s2 := clearIoWriteQueue
                (if is_OPEN (m_state (resetPingTimer true s))
                 then act [Transport (ws_close code)]
                        (set_state CLOSED (resetPingTimer true s))
                 else resetPingTimer true s)).
  assert (Hs' : internalClose code s = suspendChannelSubscriptions s2) by reflexivity.
  assert (Hreg : m_channels s2 = m_channels s)
    by (unfold s2; destruct (is_OPEN (m_state (resetPingTimer true s))); reflexivity).
  assert (Hch : channels s2 = channels s)
    by (unfold s2; destruct (is_OPEN (m_state (resetPingTimer true s))); reflexivity).
  rewrite Hs'. unfold suspendChannelSubscriptions.
  rewrite <- Hreg in Hnd, Hin.
  destruct (suspend_loop (m_channels s2) s2 Hnd) as (_ & Hstates & _ & _).
  rewrite (Hstates ch Hin). unfold getState. rewrite Hch. reflexivity.
Qed.

Lemma closeHandler_channels ec abort u s :
  channels (closeHandler ec abort u s) = channels (internalClose close_normal s).
Proof.
  unfold closeHandler.
  destruct (negb (is_operation_aborted ec) &&
            autoReconnect (m_connectOptions (internalClose close_normal s)));
    destruct abort; reflexivity.
Qed.

(** X26. A channel suspended by the loss of the connection is not
    subscribed again when the connection comes back.  A registered channel
    that was SUBSCRIBED or PENDING is PENDING after [closeHandler]; after a
    reconnect that goes through, and after the reply to the handshake has
    been dispatched, it is still PENDING and the queue holds no
    [#subscribe] for it; and [subscribe] for its name does nothing, since
    the channel is not UNSUBSCRIBED. *)
Theorem suspended_channel_not_resubscribed (nm : string) (ch : SCChannelPtr)
    (ec : error_code) (u : Q) (buf : string) (reply : json)
    (opts : ChannelSubscriptionOptions) (s : t) :
  NoDup (map snd (m_channels s)) ->
  map_find nm (m_channels s) = Some ch ->
  getState ch s ≠ UNSUBSCRIBED ->
  Run.currentOutBuffer (m_connectOptions s) (Run.handshakePayload 1) = Ok buf ->
  let s1 := closeHandler ec false u s in
  getState ch s1 = PENDING ∧
  ∃ s2 s3, Run.connected s1 = Ok s2 ∧
           dispatch IS_AUTHENTICATED reply s2 = Ok s3 ∧
           m_trace s3 = m_trace s2 ++ [Socket (ConnectEvent reply)] ∧
           getState ch s3 = PENDING ∧
           m_outQueue s3 = [] ∧
           subscribe nm opts s3 = (ch, s3).
Proof.
  intros Hnd Hf Hst Hb s1.
  assert (Hp : getState ch s1 = PENDING).
  { unfold getState, s1. rewrite closeHandler_channels.
    fold (getState ch (internalClose close_normal s)).
    rewrite (internalClose_getState close_normal ch s Hnd (map_find_elem nm ch _ Hf)).
    destruct (getState ch s); [contradiction | reflexivity..]. }
  split; [exact Hp|].
  destruct (closeHandler_fields ec false u s) as (_ & C2 & _ & C4 & _ & C6 & _ & _ & _).
  fold s1 in C2, C4, C6.
  assert (Hq : m_outQueue s1 ++ [Run.handshakePayload 1] = [Run.handshakePayload 1])
    by (rewrite C4; reflexivity).
  rewrite <- C2 in Hb.
  destruct (connected_fields s1 _ _ buf Hq Hb)
    as (s2 & Hc & _ & _ & _ & Hq2 & _ & Hm2 & Hch2 & _ & _).
  exists s2, (triggerEvent (ConnectEvent reply) s2).
  split; [exact Hc|]. split; [reflexivity|]. split; [reflexivity|].
  assert (Hp3 : getState ch (triggerEvent (ConnectEvent reply) s2) = PENDING).
  { unfold getState, triggerEvent, act. cbn [channels set_trace]. rewrite Hch2. exact Hp. }
  split; [exact Hp3|]. split; [exact Hq2|].
  unfold subscribe.
  assert (Hf3 : map_find nm (m_channels (triggerEvent (ConnectEvent reply) s2)) = Some ch).
  { unfold triggerEvent, act. cbn [m_channels set_trace]. rewrite Hm2, C6. exact Hf. }
  rewrite Hf3, Hp3. reflexivity.
Qed.

(** X27. The reply to call id 1 belongs to the handshake.  An inbound
    object without [event] whose [rid] is 1 fires the connect event with
    the whole object and goes back to the write pump; the table of pending
    responses is not consulted.  Yet the first [emit] with a handler on a
    socket that has not connected takes call id 1 itself, so the reply to
    that call never reaches its handler. *)
Theorem reply_to_call_1_is_connect (m : list (string * json)) (s : t)
    (o : ConnectOptions) (e : string) (d : json) (h : ResponseHandler) (noTimeout : bool) :
  map_find "event" m = None ->
  map_find "rid" m = Some (JNum 1) ->
  handlePayload (JObj m) s = ioPumpWrite (triggerEvent (ConnectEvent (JObj m)) s) ∧
  m_pendingResponses (triggerEvent (ConnectEvent (JObj m)) s) = m_pendingResponses s ∧
  m_outQueue (emit e d (Some h) noTimeout (make o)) = [Spec.emit_packet e d 1] ∧
  m_pendingResponses (emit e d (Some h) noTimeout (make o)) !! 1
  = Some {| handler := h; ackTimer := if noTimeout then None else Some TimerWaiting |}.
Proof.
  intros Hev Hrid.
  assert (Ht : getEventType (JObj m) = Ok IS_AUTHENTICATED).
  { unfold getEventType, json_at, value_int, json_value. rewrite Hev, Hrid. reflexivity. }
  split; [unfold handlePayload; rewrite Ht; reflexivity|].
  split; [reflexivity|]. split; [reflexivity|].
  apply (emit_registers e d h noTimeout (make o)).
Qed.

(** X28. Errors of a read or of a write.  Both completion handlers hand
    a failure to [ioErrorHandler].  For [eof] and [operation_aborted] the
    connection is closed through [closeHandler] with the disconnect event;
    any other error is only printed: the socket is left exactly as it was,
    still OPEN if it was, and neither a read nor a write is started
    again. *)
Theorem io_error_handling (ec : error_code) (u : Q) (buf : string) (done : bool) (s : t) :
  ec_failed ec = true ->
  readSomeHandler ec buf done u s = Ok (ioErrorHandler ec u s) ∧
  pumpWriteHandler ec u s = Ok (ioErrorHandler ec u s) ∧
  (is_operation_aborted ec = false -> is_eof ec = false -> ioErrorHandler ec u s = s) ∧
  (is_operation_aborted ec || is_eof ec = true ->
   ioErrorHandler ec u s = closeHandler ec false u s ∧
   Run.last_event (m_trace (ioErrorHandler ec u s)) = Some (DisconnectEvent ec) ∧
   (m_state s = OPEN -> m_state (ioErrorHandler ec u s) = CLOSED)).
Proof.
  intros Hec.
  split; [unfold readSomeHandler; rewrite Hec; reflexivity|].
  split; [unfold pumpWriteHandler; rewrite Hec; reflexivity|].
  split.
  - intros Ha He. unfold ioErrorHandler. rewrite Ha, He. reflexivity.
  - intros Hc. unfold ioErrorHandler. rewrite Hc.
    destruct (closeHandler_fields ec false u s) as (C1 & _ & _ & _ & _ & _ & _ & _ & C9).
    split; [reflexivity|]. split; [exact C9|].
    intros Ho. rewrite C1, Ho. reflexivity.
Qed.

End Resuming.

Lemma suspended_channel_not_resubscribed_witness :
  let s := Scenario.with_three_channels in
  let s1 := SCSocket.closeHandler (L := Scenario.library) ec_eof false 0 s in
  SCSocket.getState 0%nat s1 = PENDING ∧
  ∃ s2 s3, Run.connected (L := Scenario.library) s1 = Ok s2 ∧
           SCSocket.dispatch (L := Scenario.library) SCSocket.IS_AUTHENTICATED
             (JObj [("rid", JNum 1)]) s2 = Ok s3 ∧
           SCSocket.m_trace s3
           = SCSocket.m_trace s2 ++
             [SCSocket.Socket (SCSocket.ConnectEvent (JObj [("rid", JNum 1)]))] ∧
           SCSocket.getState 0%nat s3 = PENDING ∧
           SCSocket.m_outQueue s3 = [] ∧
           SCSocket.subscribe "a" default_ChannelSubscriptionOptions s3 = (0%nat, s3).
Proof.
  intros s s1.
  apply (suspended_channel_not_resubscribed (L := Scenario.library) "a" 0%nat ec_eof 0
           (Scenario.dump (Run.handshakePayload 1)) (JObj [("rid", JNum 1)])
           default_ChannelSubscriptionOptions s).
  - compute_done.
  - reflexivity.
  - discriminate.
  - reflexivity.
Defined.

Lemma reply_to_call_1_is_connect_witness :
  let m := [("data", JStr "answer"); ("rid", JNum 1)] in
  let s := SCSocket.emit "ask" JNull (Some (UserHandler 4)) false
             (SCSocket.make default_ConnectOptions) in
  SCSocket.handlePayload (L := Scenario.library) (JObj m) s
  = SCSocket.ioPumpWrite (L := Scenario.library)
      (SCSocket.triggerEvent (SCSocket.ConnectEvent (JObj m)) s) ∧
  SCSocket.m_pendingResponses s !! 1
  = Some {| handler := UserHandler 4; ackTimer := Some TimerWaiting |}.
Proof.
  intros m s.
  destruct (reply_to_call_1_is_connect (L := Scenario.library) m s default_ConnectOptions
              "ask" JNull (UserHandler 4) false eq_refl eq_refl) as (H1 & _ & _ & H4).
  split; [exact H1 | exact H4].
Defined.

Lemma io_error_handling_witness :
  let s := Scenario.open_socket in
  SCSocket.readSomeHandler (L := Scenario.library) (ec_other 104) "" false 0 s = Ok s ∧
  SCSocket.pumpWriteHandler (L := Scenario.library) (ec_other 104) 0 s = Ok s ∧
  SCSocket.m_state (SCSocket.ioErrorHandler (L := Scenario.library) ec_eof 0 s)
  = SCSocket.CLOSED.
Proof.
  intros s.
  destruct (io_error_handling (L := Scenario.library) (ec_other 104) 0 "" false s eq_refl)
    as (H1 & H2 & H3 & _).
  destruct (io_error_handling (L := Scenario.library) ec_eof 0 "" false s eq_refl)
    as (_ & _ & _ & H4).
  rewrite (H3 eq_refl eq_refl) in H1, H2.
  split; [exact H1|]. split; [exact H2|].
  exact (proj2 (proj2 (H4 eq_refl)) eq_refl).
Defined.

(** ** The first reconnect delay *)

Section FirstDelay.
Import SCSocket.
Context `{L : !Library}.
Local Open Scope Q_scope.

Lemma std_round_inject_Z (k : Z) : (0 <= k)%Z -> std_round (inject_Z k) = k.
Proof.
  intros Hk. rewrite std_round_nonneg.
  - unfold Qfloor, Qplus, inject_Z. cbn.
    symmetry. apply Z.div_unique with (r := 1%Z); lia.
  - change 0 with (inject_Z 0). rewrite <- Zle_Qle. exact Hk.
Qed.

Lemma std_round_comp q q' : q == q' -> std_round q = std_round q'.
Proof.
  intros H. unfold std_round.
  assert (Hb : Qle_bool 0 q = Qle_bool 0 q').
  { destruct (Qle_bool 0 q) eqn:E; destruct (Qle_bool 0 q') eqn:E'; try reflexivity.
    - apply Qle_bool_iff in E. rewrite H in E. apply Qle_bool_iff in E. congruence.
    - apply Qle_bool_iff in E'. rewrite <- H in E'. apply Qle_bool_iff in E'. congruence. }
  rewrite Hb. destruct (Qle_bool 0 q').
  - apply Qfloor_comp. rewrite H. reflexivity.
  - apply Qceiling_comp. rewrite H. reflexivity.
Qed.

(** X29. The delay of the first reconnect attempt (attempt number 0, as
    [closeHandler] asks for it) is the jittered initial timeout cut at
    [maxDelay]; the multiplier plays no part in it.  This rests on four
    facts of the arithmetic on [double], for the 32-bit values [t]:
    [pow(x, 0)] is 1, [t * 1] is [t], [round(t)] is [t], and converting
    [t] back to [uint32_t] gives [t]. *)
Theorem first_reconnect_delay (o : AutoReconnectOptions) (u : Q) :
  std_pow (double_of (multiplier o)) (double_of (inject_Z 0)) = double_of 1 ->
  (∀ t, (0 <= t < 2 ^ 32)%Z ->
        double_mul (double_of (inject_Z t)) (double_of 1) = double_of (inject_Z t)) ->
  (∀ t, (0 <= t < 2 ^ 32)%Z ->
        round_double (double_of (inject_Z t)) = double_of (inject_Z t)) ->
  (∀ t, (0 <= t < 2 ^ 32)%Z -> uint32_of_double (double_of (inject_Z t)) = t) ->
  reconnect_timeout o RECONENCT_DELAY_INVALID 0 u
  = Z.min (maxDelay o) (initialTimeout o u).
Proof.
  intros Hpow Hmul Hround Hconv.
  assert (Ht : (0 <= initialTimeout o u < 2 ^ 32)%Z).
  { unfold initialTimeout, wrap_uint32. apply Z.mod_pos_bound. lia. }
  assert (Hun : timeout_unclamped o RECONENCT_DELAY_INVALID 0 u = initialTimeout o u).
  { unfold timeout_unclamped. cbn [Z.eqb RECONENCT_DELAY_INVALID Pos.eqb orb].
    rewrite Hpow, (Hmul _ Ht), (Hround _ Ht), (Hconv _ Ht).
    apply wrap_uint32_small. exact Ht. }
  unfold reconnect_timeout. rewrite Hun.
  destruct (Z.ltb_spec (maxDelay o) (initialTimeout o u)); lia.
Qed.

End FirstDelay.

Lemma first_reconnect_delay_witness :
  SCSocket.reconnect_timeout (L := Scenario.library) default_AutoReconnectOptions
    SCSocket.RECONENCT_DELAY_INVALID 0 (1 # 2)
  = Z.min 60000
      (SCSocket.initialTimeout (L := Scenario.library) default_AutoReconnectOptions (1 # 2)).
Proof.
  apply (first_reconnect_delay (L := Scenario.library) default_AutoReconnectOptions (1 # 2)).
  - reflexivity.
  - intros t _. unfold double_mul, double_of, Scenario.library, Qmult, inject_Z. cbn.
    rewrite Z.mul_1_r. reflexivity.
  - intros t Ht. unfold round_double, double_of, Scenario.library.
    rewrite std_round_inject_Z by lia. reflexivity.
  - intros t _. unfold uint32_of_double, double_of, Scenario.library. apply Qfloor_Z.
Defined.

(** ** A response that comes after the timeout *)

Section LateResponse.
Import SCSocket.

(** X30. A call whose acknowledgement timer expires is over.  The handler
    is told of the timeout once and the call leaves the table of pending
    responses, so a response that arrives afterwards with the same [rid]
    is reported as [unexpected_rid] on the error event and the handler is
    not called again; a second expiry does nothing either. *)
Theorem late_response_after_timeout (e : string) (d : json) (id : nat)
    (m : list (string * json)) (s : t) :
  let cid := m_nextCallId s in
  0 <= cid < 2 ^ 31 ->
  map_find "rid" m = Some (JNum cid) ->
  let s1 := emit e d (Some (UserHandler id)) false s in
  let s2 := ackTimerExpires cid s1 in
  m_trace s2
  = m_trace s ++
    [Handler id (ec_scio ack_timeout)
       (JObj [("error", JObj [("message", JStr (ackTimeoutErrMsg cid))])])] ∧
  m_pendingResponses s2 !! cid = None ∧
  onAckReceive (JObj m) s2 = Ok (triggerEvent (ErrorEvent (ec_scio unexpected_rid)) s2) ∧
  ackTimerExpires cid s2 = s2.
Proof.
  intros cid Hcid Hrid s1 s2.
  pose proof (emit_registers e d (UserHandler id) false s) as Hreg.
  fold cid s1 in Hreg. cbn [negb] in Hreg.
  assert (Hs2 : s2 = act [Handler id (ec_scio ack_timeout)
                            (JObj [("error", JObj [("message", JStr (ackTimeoutErrMsg cid))])])]
                       (set_pendingResponses (delete cid (m_pendingResponses s1)) s1)).
  { unfold s2, ackTimerExpires. rewrite Hreg. unfold ackTimerHandler. cbn [ec_failed].
    apply (handleEmitAckTimeout_user cid id _ s1 Hreg). }
  assert (Hnone : m_pendingResponses s2 !! cid = None).
  { rewrite Hs2. unfold act. cbn [m_pendingResponses set_trace set_pendingResponses].
    apply lookup_delete_eq. }
  split; [rewrite Hs2; reflexivity|].
  split; [exact Hnone|].
  split.
  - rewrite (onAckReceive_rid m cid s2 Hcid Hrid), Hnone. reflexivity.
  - apply ackTimerExpires_absent. exact Hnone.
Qed.

Lemma late_response_after_timeout_witness :
  let s1 := emit "ask" JNull (Some (UserHandler 3)) false Scenario.open_socket in
  let s2 := ackTimerExpires 2 s1 in
  m_pendingResponses s2 !! 2 = None ∧
  onAckReceive (JObj [("data", JStr "late"); ("rid", JNum 2)]) s2
  = Ok (triggerEvent (ErrorEvent (ec_scio unexpected_rid)) s2).
Proof.
  intros s1 s2.
  destruct (late_response_after_timeout "ask" JNull 3
              [("data", JStr "late"); ("rid", JNum 2)] Scenario.open_socket
              ltac:(cbn; lia) eq_refl) as (_ & Hn & Hr & _).
  split; [exact Hn | exact Hr].
Defined.

End LateResponse.
